(** * Gravatar proxy: the cache store and the revalidation protocol

    A shallow embedding of [internal/cache] (the disk-backed store with its
    in-memory index, recency list and running byte total) and of
    [internal/proxy] (the request handler), followed by the properties of
    the store and of the handler.

    Conventions.
    - A Go [string] is a byte sequence: Rocq's [string] (8-bit characters).
    - A Go [[]byte] is a [list byte].
    - [int64] values are [Z]; where the code does arithmetic on them the
      two's-complement wrap-around is written out with [wrap64].
    - [time.Time] is a [Z] (nanoseconds on one time line), [time.Duration]
      an [int64] count of nanoseconds, as in package [time].
    - [map[string]T] is [gmap string T]; reading an absent key of a
      [map[string]string] gives the empty string, as in Go.
    - The index holds [*CacheEntry] pointers.  Every pointer stored in the
      index is freshly allocated ([Set] builds a new entry, [json.Unmarshal]
      allocates one per key) and is stored under one key only, so a write
      through such a pointer is modelled as a replacement of the value
      stored under that key.  Execution is sequential: one call at a
      time, as the store's lock enforces for the store's methods.
    - A call that can panic returns an [Outcome]. *)

From Stdlib Require Import ZArith Lia Ascii String List DecimalString.
From Stdlib.Strings Require Import Byte.
From stdpp Require Import base option list sorting strings gmap fin_maps.

Local Open Scope string_scope.
Local Open Scope Z_scope.

(** The result of a call that may panic. *)
Inductive Outcome (A : Type) : Type :=
  | Returned (a : A)
  | Panicked.
Arguments Returned {A} a.
Arguments Panicked {A}.

(** ** Machine integers *)

Definition min_int64 : Z := - 2 ^ 63.
Definition max_int64 : Z := 2 ^ 63 - 1.

(** Two's-complement reduction of an integer to the [int64] range. *)
Definition wrap64 (z : Z) : Z := (z + 2 ^ 63) mod 2 ^ 64 - 2 ^ 63.

Definition in_int64 (z : Z) : Prop := min_int64 <= z <= max_int64.

(** ** Package [time] *)

(** [Time.Sub]: the difference as a [Duration], saturating at the least and
    the greatest [Duration] when the difference does not fit. *)
Definition time_Sub (t u : Z) : Z :=
  if t - u <? min_int64 then min_int64
  else if max_int64 <? t - u then max_int64
  else t - u.

(** ** Strings *)

(** [strings.TrimPrefix]. *)
Definition strings_TrimPrefix (s pre : string) : string :=
  if String.prefix pre s
  then substring (String.length pre) (String.length s - String.length pre) s
  else s.

(** [strings.HasSuffix]. *)
Definition strings_HasSuffix (s suf : string) : bool :=
  if (String.length suf <=? String.length s)%nat
  then String.eqb
         (substring (String.length s - String.length suf) (String.length suf) s)
         suf
  else false.

(** Does the character occur in the string. *)
Fixpoint has_char (c : ascii) (s : string) : bool :=
  match s with
  | EmptyString => false
  | String a s' => if Ascii.eqb a c then true else has_char c s'
  end.

(** [hex.EncodeToString]. *)
Definition hex_digit (n : N) : ascii :=
  match String.get (N.to_nat n) "0123456789abcdef" with
  | Some a => a
  | None => "0"%char
  end.

Fixpoint hex_EncodeToString (bs : list byte) : string :=
  match bs with
  | [] => EmptyString
  | b :: bs' =>
      String (hex_digit (N.div (Byte.to_N b) 16))
        (String (hex_digit (N.modulo (Byte.to_N b) 16))
           (hex_EncodeToString bs'))
  end.

(** Reading a [map[string]string] at a key: the empty string when absent. *)
Definition map_get (m : gmap string string) (k : string) : string :=
  default "" (m !! k).

(** ** The data model of package [cache] *)

Record Metadata := mkMetadata {
  CreatedAt : Z;
  LastAccessedAt : Z;
  Headers : gmap string string;
  StatusCode : Z;
  Size : Z
}.

Record CacheEntry := mkCacheEntry {
  Key : string;
  FilePath : string;
  EntryMetadata : Metadata
}.

(** The index document of [loadIndex] and [saveIndex], as the anonymous
    struct holds it: [Entries] is [None] for a [nil] map (the document
    has no ["entries"], or has [null] there), and an entry is [None] for
    a [nil] pointer (a [null] under a key). *)
Record IndexDoc := mkIndexDoc {
  Entries : option (gmap string (option CacheEntry));
  AccessList : list string
}.

(** [index] is the map [c.index].  Its pointers are not [nil] in any
    store that a caller can hold: only [loadIndex] could store one, and it
    panics on it before [New] returns.  The map itself can be [nil],
    which is what [loadIndex] assigns from a document without entries:
    [nilIndex] tells so; then [index] is empty, a lookup finds nothing
    and an assignment to the map panics. *)
Record Cache := mkCache {
  dir : string;
  ttl : Z;
  maxBytes : Z;
  index : gmap string CacheEntry;
  accessList : list string;
  currentBytes : Z;
  nilIndex : bool
}.

(** ** The library functions the packages call

    They are parameters of the development: the theorems hold for every
    implementation of them.
    - [json_Unmarshal_Index] stands for [json.Unmarshal] into the index
      document; [None] is a decoding error.
    - [url_Hostname] stands for [url.Parse] followed by [Hostname];
      [None] is the error of [url.Parse].
    - [upstream_URL] stands for the URL assembly of [buildUpstreamURL]
      ([Query], [Encode], [String]) from a base that [url.Parse]
      accepts.
    - [duration_Seconds] stands for [int(d.Seconds())], which goes through
      a [float64]. *)
Class GoLib := {
  sha256_Sum256 : list byte -> list byte;
  filepath_Join : string -> string -> string;
  http_ParseTime : string -> option Z;
  json_Marshal_Metadata : Metadata -> option (list byte);
  json_Marshal_Index : IndexDoc -> option (list byte);
  json_Unmarshal_Index : list byte -> option IndexDoc;
  strings_TrimSpace : string -> string;
  strings_ToLower : string -> string;
  url_Hostname : string -> option string;
  http_CanonicalHeaderKey : string -> string;
  upstream_URL : string -> string -> gmap string string -> string;
  http_NewRequest_ok : string -> bool;
  duration_Seconds : Z -> Z
}.

Section KeyDerivation.
Context `{GoLib}.

(** The canonical string of [GenerateKey]: [parts] joined with ["?"].
    [ks] is the order in which [for k := range query] yields the keys of
    the map, which Go leaves unspecified. *)
Definition canonical_range (ks : list string) (path : string)
    (query : gmap string string) : string :=
  let keys := merge_sort String.le ks in
  let parts := path :: map (fun k => k ++ "=" ++ map_get query k) keys in
  String.concat "?" parts.

Definition GenerateKey_range (ks : list string) (path : string)
    (query : gmap string string) : string :=
  let fullURL := canonical_range ks path query in
  let hash := sha256_Sum256 (list_byte_of_string fullURL) in
  hex_EncodeToString hash.

(** [GenerateKey] with one enumeration of the keys fixed; by
    [canonical_range_perm] every enumeration gives this key. *)
Definition GenerateKey (path : string) (query : gmap string string) : string :=
  GenerateKey_range (map_to_list query).*1 path query.

End KeyDerivation.

(** ** The world outside the store

    The clock, the disk, the upstream server and the trace of what the
    program did to them. *)

Inductive Event :=
  | EvLog (level msg : string)
  | EvRequest (method path : string) (status duration requestID : Z)
  | EvMkdirAll (path : string)
  | EvReadFile (path : string)
  | EvWriteFile (path : string)
  | EvRemove (path : string)
  | EvUpstream (url : string) (header : gmap string string).

(** What [client.Do] answers: the status, the headers (canonical name to
    first value) and the body, [None] when reading the body fails. *)
Record UpstreamResponse := mkUpstreamResponse {
  RespStatus : Z;
  RespHeader : gmap string string;
  RespBody : option (list byte)
}.

(** - [clock n] is what the [n]-th call of [time.Now] returns.
    - [files] are the regular files of the disk; every operation on a
      [locked] path fails.
    - [residue p data old] is what a failed [os.WriteFile] of [data] to
      [p] leaves at [p], where [old] is what was there ([None]: no file):
      [old] when the file could not be opened, and a part of [data],
      possibly empty, when the write stopped after the truncation.
    - [upstream url header] is the answer to a GET, [None] a transport
      error. *)
Record Env := mkEnv {
  clock : nat -> Z;
  ticks : nat;
  files : gmap string (list byte);
  locked : string -> bool;
  residue : string -> list byte -> option (list byte) -> option (list byte);
  upstream : string -> gmap string string -> option UpstreamResponse;
  trace : list Event
}.

Inductive ReadResult :=
  | ReadOk (data : list byte)
  | ReadNotExist
  | ReadError.

(** State passing over the world. *)
Definition M (A : Type) : Type := Env -> A * Env.

Definition ret {A} (a : A) : M A := fun e => (a, e).

Definition bind {A B} (m : M A) (k : A -> M B) : M B :=
  fun e => let (a, e') := m e in k a e'.

Declare Scope go_scope.
Delimit Scope go_scope with go.
Notation "'call' x <- m ; k" := (bind m (fun x => k))
  (at level 10, x pattern, m at level 99, k at level 200, only parsing)
  : go_scope.
Notation "'exec' m ; k" := (bind m (fun _ => k))
  (at level 10, m at level 99, k at level 200, only parsing) : go_scope.
Local Open Scope go_scope.

Definition emit (ev : Event) : M unit :=
  fun e => (tt, mkEnv (clock e) (ticks e) (files e) (locked e) (residue e)
                  (upstream e) (trace e ++ [ev])).

Definition set_files (fs : gmap string (list byte)) : M unit :=
  fun e => (tt, mkEnv (clock e) (ticks e) fs (locked e) (residue e)
                  (upstream e) (trace e)).

Definition time_Now : M Z :=
  fun e => (clock e (ticks e),
            mkEnv (clock e) (S (ticks e)) (files e) (locked e) (residue e)
              (upstream e) (trace e)).

Definition time_Since (t : Z) : M Z :=
  call now <- time_Now; ret (time_Sub now t).

(** [os.MkdirAll]: [true] when it succeeds. *)
Definition os_MkdirAll (path : string) : M bool :=
  exec emit (EvMkdirAll path);
  fun e => (negb (locked e path), e).

(** [os.WriteFile]: [true] when it succeeds.  It opens the file with
    [O_TRUNC] and writes; a write that fails leaves the [residue]. *)
Definition os_WriteFile (path : string) (data : list byte) : M bool :=
  exec emit (EvWriteFile path);
  fun e =>
    if locked e path
    then (false,
          (set_files (partial_alter (residue e path data) path (files e)) e).2)
    else (true, (set_files (<[path := data]> (files e)) e).2).

Definition os_ReadFile (path : string) : M ReadResult :=
  exec emit (EvReadFile path);
  fun e =>
    if locked e path then (ReadError, e)
    else match files e !! path with
         | Some data => (ReadOk data, e)
         | None => (ReadNotExist, e)
         end.

(** [os.Remove]; its callers ignore the error. *)
Definition os_Remove (path : string) : M unit :=
  exec emit (EvRemove path);
  fun e =>
    if locked e path then (tt, e)
    else set_files (delete path (files e)) e.

Definition log_Info (msg : string) : M unit := emit (EvLog "INFO" msg).
Definition log_Warn (msg : string) : M unit := emit (EvLog "WARN" msg).
Definition log_Error (msg : string) : M unit := emit (EvLog "ERROR" msg).

(** ** Package [cache]: the store *)

Definition with_Size (m : Metadata) (n : Z) : Metadata :=
  mkMetadata (CreatedAt m) (LastAccessedAt m) (Headers m) (StatusCode m) n.

Definition with_CreatedAt (m : Metadata) (t : Z) : Metadata :=
  mkMetadata t (LastAccessedAt m) (Headers m) (StatusCode m) (Size m).

Definition with_LastAccessedAt (m : Metadata) (t : Z) : Metadata :=
  mkMetadata (CreatedAt m) t (Headers m) (StatusCode m) (Size m).

Definition with_Metadata (e : CacheEntry) (m : Metadata) : CacheEntry :=
  mkCacheEntry (Key e) (FilePath e) m.

Definition with_index (c : Cache) (i : gmap string CacheEntry) : Cache :=
  mkCache (dir c) (ttl c) (maxBytes c) i (accessList c) (currentBytes c)
    (nilIndex c).

Definition with_accessList (c : Cache) (l : list string) : Cache :=
  mkCache (dir c) (ttl c) (maxBytes c) (index c) l (currentBytes c)
    (nilIndex c).

Definition with_currentBytes (c : Cache) (n : Z) : Cache :=
  mkCache (dir c) (ttl c) (maxBytes c) (index c) (accessList c) n
    (nilIndex c).

Definition with_nilIndex (c : Cache) (b : bool) : Cache :=
  mkCache (dir c) (ttl c) (maxBytes c) (index c) (accessList c)
    (currentBytes c) b.

(** The entries of a decoded map when none of them is [nil]. *)
Definition nonnil_entries (entries : gmap string (option CacheEntry))
    : option (gmap string CacheEntry) :=
  if decide (map_Forall (fun _ v => is_Some v) entries)
  then Some (omap id entries) else None.

(** The map [c.index] as [json.Marshal] sees it. *)
Definition index_value (c : Cache) : option (gmap string (option CacheEntry)) :=
  if nilIndex c then None else Some (Some <$> index c).

(** The loop of [updateAccessList]: the list without the first occurrence
    of the key. *)
Fixpoint remove_first (key : string) (l : list string) : list string :=
  match l with
  | [] => []
  | k :: l' => if String.eqb k key then l' else k :: remove_first key l'
  end.

Definition updateAccessList (c : Cache) (key : string) : Cache :=
  with_accessList c (remove_first key (accessList c) ++ [key]).

(** The running total that [loadIndex] recomputes: [currentBytes += Size]
    over the entries, from [start].  The additions wrap, and the order in
    which the entries are taken does not change the result. *)
Definition sum_sizes (start : Z) (idx : gmap string CacheEntry) : Z :=
  map_fold (fun _ entry acc => wrap64 (acc + Size (EntryMetadata entry)))
    start idx.

Section Store.
Context `{GoLib}.

(** Every method takes the store and returns it with its result: a method
    of [*Cache] may assign to the fields. [None] is the [nil] error. *)

Definition Get (c : Cache) (key : string)
    : M (option CacheEntry * bool * Cache) :=
  match index c !! key with
  | None => ret (None, false, c)
  | Some entry =>
      call since <- time_Since (CreatedAt (EntryMetadata entry));
      if since >? ttl c then ret (Some entry, false, c)
      else ret (Some entry, true, c)
  end.

Definition saveMetadata (c : Cache) (key : string) (metadata : Metadata)
    : M (option string) :=
  let metaPath := filepath_Join (dir c) (key ++ ".meta") in
  match json_Marshal_Metadata metadata with
  | None => ret (Some "failed to marshal metadata")
  | Some metaBytes =>
      call ok <- os_WriteFile metaPath metaBytes;
      ret (if ok then None else Some "write failed")
  end.

Definition saveIndex (c : Cache) : M (option string) :=
  let indexPath := filepath_Join (dir c) "index.json" in
  match json_Marshal_Index (mkIndexDoc (index_value c) (accessList c)) with
  | None => ret (Some "marshal failed")
  | Some data =>
      call ok <- os_WriteFile indexPath data;
      ret (if ok then None else Some "write failed")
  end.

(** The loop of [evictIfNeeded]; [l] is [c.accessList] at the head of each
    iteration, which loses its first key in every iteration. *)
Fixpoint evictLoop (l : list string) (c : Cache) {struct l} : M Cache :=
  if currentBytes c >? maxBytes c then
    match l with
    | [] => ret c
    | lruKey :: rest =>
        let c := with_accessList c rest in
        match index c !! lruKey with
        | None => evictLoop rest c
        | Some entry =>
            exec os_Remove (FilePath entry);
            exec os_Remove (FilePath entry ++ ".meta");
            let c :=
              with_currentBytes c
                (wrap64 (currentBytes c - Size (EntryMetadata entry))) in
            let c := with_index c (delete lruKey (index c)) in
            exec log_Info "evicted cache entry";
            evictLoop rest c
        end
    end
  else ret c.

Definition evictIfNeeded (c : Cache) : M Cache :=
  evictLoop (accessList c) c.

(** [Set].  On a [nil] map the lookup of line 124 finds nothing and the
    assignment of line 128 panics, with the store as it was. *)
Definition Set_ (c : Cache) (key : string) (data : list byte)
    (metadata : Metadata) : M (Outcome (option string) * Cache) :=
  let filePath := filepath_Join (dir c) key in
  let metaPath := filepath_Join (dir c) (key ++ ".meta") in
  call ok <- os_WriteFile filePath data;
  if negb ok then ret (Returned (Some "failed to write cache file"), c) else
  let metadata := with_Size metadata (Z.of_nat (length data)) in
  match json_Marshal_Metadata metadata with
  | None => ret (Returned (Some "failed to marshal metadata"), c)
  | Some metaBytes =>
      call ok <- os_WriteFile metaPath metaBytes;
      if negb ok
      then ret (Returned (Some "failed to write metadata file"), c) else
      if nilIndex c then ret (Panicked, c) else
      let entry := mkCacheEntry key filePath metadata in
      let c :=
        match index c !! key with
        | Some existing =>
            with_currentBytes c
              (wrap64 (currentBytes c - Size (EntryMetadata existing)))
        | None => c
        end in
      let c := with_index c (<[key := entry]> (index c)) in
      let c := with_currentBytes c (wrap64 (currentBytes c + Size metadata)) in
      let c := updateAccessList c key in
      call c <- evictIfNeeded c;
      call err <- saveIndex c;
      exec (match err with
            | Some _ => log_Error "failed to save cache index"
            | None => ret tt
            end);
      ret (Returned None, c)
  end.

Definition ReadData (c : Cache) (key : string)
    : M ((list byte + string) * Cache) :=
  match index c !! key with
  | None => ret (inr "cache entry not found", c)
  | Some entry =>
      call now <- time_Now;
      let entry :=
        with_Metadata entry (with_LastAccessedAt (EntryMetadata entry) now) in
      let c := with_index c (<[key := entry]> (index c)) in
      let c := updateAccessList c key in
      call err <- saveMetadata c key (EntryMetadata entry);
      exec (match err with
            | Some _ => log_Warn "failed to update metadata"
            | None => ret tt
            end);
      call r <- os_ReadFile (FilePath entry);
      match r with
      | ReadOk data => ret (inl data, c)
      | _ => ret (inr "failed to read cache file", c)
      end
  end.

Definition UpdateMetadata (c : Cache) (key : string) (metadata : Metadata)
    : M (option string * Cache) :=
  match index c !! key with
  | None => ret (Some "cache entry not found", c)
  | Some entry =>
      let c := with_index c (<[key := with_Metadata entry metadata]> (index c)) in
      call err <- saveMetadata c key metadata;
      ret (err, c)
  end.

(** [loadIndex].  The loop of lines 239 to 241 reads [entry.Metadata]
    of every entry of the map: it panics when one of them is [nil]; over
    a [nil] map it does nothing. *)
Definition loadIndex (c : Cache) : M (Outcome (option string * Cache)) :=
  let indexPath := filepath_Join (dir c) "index.json" in
  call r <- os_ReadFile indexPath;
  match r with
  | ReadNotExist => ret (Returned (None, c))
  | ReadError => ret (Returned (Some "read failed", c))
  | ReadOk data =>
      match json_Unmarshal_Index data with
      | None => ret (Returned (Some "unmarshal failed", c))
      | Some doc =>
          match Entries doc with
          | None =>
              let c := with_nilIndex (with_index c ∅) true in
              let c := with_accessList c (AccessList doc) in
              ret (Returned (None, c))
          | Some entries =>
              match nonnil_entries entries with
              | None => ret Panicked
              | Some entries =>
                  let c := with_nilIndex (with_index c entries) false in
                  let c := with_accessList c (AccessList doc) in
                  let c :=
                    with_currentBytes c
                      (sum_sizes (currentBytes c) (index c)) in
                  ret (Returned (None, c))
              end
          end
      end
  end.

(** [New]; [Returned None] is the error return. *)
Definition New (dir : string) (ttl maxBytes : Z) : M (Outcome (option Cache)) :=
  call ok <- os_MkdirAll dir;
  if negb ok then ret (Returned None) else
  let c := mkCache dir ttl maxBytes ∅ [] 0 false in
  call r <- loadIndex c;
  match r with
  | Panicked => ret Panicked
  | Returned (err, c) =>
      exec (match err with
            | Some _ => log_Warn "failed to load cache index, starting fresh"
            | None => ret tt
            end);
      ret (Returned (Some c))
  end.

Definition GetMetadata (c : Cache) (key : string)
    : M (option Metadata * Cache) :=
  match index c !! key with
  | None => ret (None, c)
  | Some entry => ret (Some (EntryMetadata entry), c)
  end.

End Store.

(** ** Requests and responses *)

(** A header is a map from the canonical name to the first value;
    [URLQuery] is [url.Values]. *)
Record Request := mkRequest {
  Method : string;
  URLPath : string;
  URLQuery : gmap string (list string);
  ReqHeader : gmap string string
}.

(** The response writer of [net/http], as the handler sees it: [Code] is
    the status of the response header once it is written, [WHeader] the
    header map that [Header()] returns, [Body] the bytes of the writes
    that succeeded.  [Refuses hd body data] tells whether the connection
    refuses a write of [data] after the header map [hd] and the bytes
    [body]: it is broken or timed out, or [data] goes past a declared
    [Content-Length]. *)
Record ResponseWriter := mkResponseWriter {
  Code : option Z;
  WHeader : gmap string string;
  Body : list byte;
  Refuses : gmap string string -> list byte -> list byte -> bool
}.

(** A writer that has written nothing, on a connection that refuses
    nothing. *)
Definition new_ResponseWriter : ResponseWriter :=
  mkResponseWriter None ∅ [] (fun _ _ _ => false).

(** [bodyAllowedForStatus]. *)
Definition bodyAllowedForStatus (status : Z) : bool :=
  negb ((100 <=? status) && (status <=? 199))
  && negb (status =? 204) && negb (status =? 304).

Section Http.
Context `{GoLib}.

(** [Header.Get]: the empty string when the header is absent. *)
Definition Header_Get (h : gmap string string) (name : string) : string :=
  map_get h (http_CanonicalHeaderKey name).

Definition Header_Set (h : gmap string string) (name value : string)
    : gmap string string :=
  <[http_CanonicalHeaderKey name := value]> h.

Definition w_Header_Set (w : ResponseWriter) (name value : string)
    : ResponseWriter :=
  mkResponseWriter (Code w) (Header_Set (WHeader w) name value) (Body w)
    (Refuses w).

(** [WriteHeader]: once the header is written a further call changes
    nothing; otherwise a code outside 100..999 panics
    ([checkWriteHeaderCode]), an informational code (1xx other than 101)
    is sent at once and leaves the response header to be written, and any
    other code is the status of the response. *)
Definition w_WriteHeader (w : ResponseWriter) (code : Z)
    : Outcome ResponseWriter :=
  match Code w with
  | Some _ => Returned w
  | None =>
      if (code <? 100) || (999 <? code) then Panicked
      else if (code <=? 199) && negb (code =? 101) then Returned w
      else Returned (mkResponseWriter (Some code) (WHeader w) (Body w)
                       (Refuses w))
  end.

(** [Write]: [true] when it returns no error.  It writes the header
    with status 200 when none is written; a write of no bytes succeeds;
    a write of bytes fails when the status allows no body or the
    connection refuses it. *)
Definition w_Write (w : ResponseWriter) (data : list byte)
    : bool * ResponseWriter :=
  let status := default 200 (Code w) in
  let w := mkResponseWriter (Some status) (WHeader w) (Body w) (Refuses w) in
  if (length data =? 0)%nat then (true, w)
  else if negb (bodyAllowedForStatus status)
          || Refuses w (WHeader w) (Body w) data
  then (false, w)
  else (true,
        mkResponseWriter (Code w) (WHeader w) (Body w ++ data) (Refuses w)).

(** [for k, v := range headers { w.Header().Set(k, v) }]. *)
Definition w_set_all (w : ResponseWriter) (headers : gmap string string)
    : ResponseWriter :=
  map_fold (fun k v w => w_Header_Set w k v) w headers.

(** [http.Error]; it ignores the error of its write. *)
Definition http_Error (w : ResponseWriter) (msg : string) (code : Z)
    : Outcome ResponseWriter :=
  let w := w_Header_Set w "Content-Type" "text/plain; charset=utf-8" in
  let w := w_Header_Set w "X-Content-Type-Options" "nosniff" in
  match w_WriteHeader w code with
  | Panicked => Panicked
  | Returned w =>
      Returned (w_Write w (list_byte_of_string (msg ++ String "010"%char ""))).2
  end.

Definition CheckConditional (c : Cache) (key : string) (req : Request)
    : M (bool * Cache) :=
  match index c !! key with
  | None => ret (false, c)
  | Some entry =>
      call since <- time_Since (CreatedAt (EntryMetadata entry));
      if since >? ttl c then ret (false, c) else
      let ifNoneMatch := Header_Get (ReqHeader req) "If-None-Match" in
      if negb (String.eqb ifNoneMatch "")
         && String.eqb (map_get (Headers (EntryMetadata entry)) "ETag")
              ifNoneMatch
      then ret (true, c) else
      let ifModifiedSince := Header_Get (ReqHeader req) "If-Modified-Since" in
      if negb (String.eqb ifModifiedSince "") then
        match http_ParseTime ifModifiedSince with
        | Some t =>
            let lastModified :=
              map_get (Headers (EntryMetadata entry)) "Last-Modified" in
            if negb (String.eqb lastModified "") then
              match http_ParseTime lastModified with
              | Some lmt => if negb (lmt >? t) then ret (true, c)
                            else ret (false, c)
              | None => ret (false, c)
              end
            else ret (false, c)
        | None => ret (false, c)
        end
      else ret (false, c)
  end.

Definition max_age (ttlSeconds : Z) : string :=
  "public, max-age=" ++ NilZero.string_of_int (Z.to_int ttlSeconds).

(** [WriteResponse]: the error and the writer, or the panic of
    [WriteHeader] on the stored status. *)
Definition WriteResponse (c : Cache) (w : ResponseWriter) (key : string)
    (ttlSeconds : Z) : M (Outcome (option string * ResponseWriter) * Cache) :=
  call (r, c) <- ReadData c key;
  match r with
  | inr err => ret (Returned (Some err, w), c)
  | inl data =>
      call (m, c) <- GetMetadata c key;
      match m with
      | None => ret (Returned (Some "cache entry not found", w), c)
      | Some metadata =>
          let w := w_set_all w (Headers metadata) in
          let w := w_Header_Set w "Cache-Control" (max_age ttlSeconds) in
          match w_WriteHeader w (StatusCode metadata) with
          | Panicked => ret (Panicked, c)
          | Returned w =>
              let (ok, w) := w_Write w data in
              ret (Returned (if ok then None else Some "write failed", w), c)
          end
      end
  end.

(** [ExtractHeaders]: the five names in the order of the source. *)
Definition ExtractHeaders (resp : UpstreamResponse) : gmap string string :=
  foldl (fun headers key =>
           let val := Header_Get (RespHeader resp) key in
           if negb (String.eqb val "") then <[key := val]> headers
           else headers)
    ∅ ["Content-Type"; "ETag"; "Last-Modified"; "Cache-Control";
       "Content-Length"].

End Http.

(** ** Package [proxy]: the handler *)

(** The handler's fields; its store is passed along with it and its HTTP
    client is the [upstream] of the world. *)
Record Handler := mkHandler {
  upstreamBase : string;
  h_ttl : Z;
  allowedOrigins : list string
}.

Section Proxy.
Context `{GoLib}.

Definition normalizeHash (hash : string) : string :=
  strings_ToLower (strings_TrimSpace hash).

(** [extractQueryParams]: the first value of each allowed name that has
    one. *)
Definition extractQueryParams (query : gmap string (list string))
    : gmap string string :=
  omap (fun v : list string => head v)
    (filter (fun kv : string * list string => kv.1 ∈ ["s"; "d"; "r"; "f"])
       query).

Definition normalizeOrigin (origin : string) : string :=
  if String.eqb origin "" then "" else
  let origin := strings_TrimSpace origin in
  match url_Hostname origin with
  | None => ""
  | Some host => if String.eqb host "" then "" else strings_ToLower host
  end.

Definition extractDomainFromReferer (referer : string) : string :=
  if String.eqb referer "" then "" else
  match url_Hostname referer with
  | None => ""
  | Some host => if String.eqb host "" then "" else strings_ToLower host
  end.

Definition isOriginAllowed (origin : string) (allowedOrigins : list string)
    : bool :=
  if (length allowedOrigins =? 0)%nat then true else
  if String.eqb origin "" then false else
  let originDomain := normalizeOrigin origin in
  if String.eqb originDomain "" then false else
  existsb (fun allowed =>
             let allowed := strings_TrimSpace (strings_ToLower allowed) in
             if String.eqb allowed "" then false
             else String.eqb originDomain allowed
                  || strings_HasSuffix originDomain ("." ++ allowed))
    allowedOrigins.

Definition allow_headers : string :=
  "Content-Type, Cache-Control, If-None-Match, If-Modified-Since".

Definition checkAccessControl (h : Handler) (w : ResponseWriter) (r : Request)
    : bool * ResponseWriter :=
  if (length (allowedOrigins h) =? 0)%nat then (true, w) else
  let origin := Header_Get (ReqHeader r) "Origin" in
  let referer := Header_Get (ReqHeader r) "Referer" in
  if negb (String.eqb origin "") && isOriginAllowed origin (allowedOrigins h)
  then
    let w := w_Header_Set w "Access-Control-Allow-Origin" origin in
    let w := w_Header_Set w "Access-Control-Allow-Methods" "GET, OPTIONS" in
    let w := w_Header_Set w "Access-Control-Allow-Headers" allow_headers in
    (true, w)
  else
    let refererDomain := extractDomainFromReferer referer in
    if negb (String.eqb referer "")
       && (negb (String.eqb refererDomain "")
           && isOriginAllowed refererDomain (allowedOrigins h))
    then
      let w := if negb (String.eqb origin "")
               then w_Header_Set w "Access-Control-Allow-Origin" origin
               else w in
      let w := w_Header_Set w "Access-Control-Allow-Methods" "GET, OPTIONS" in
      let w := w_Header_Set w "Access-Control-Allow-Headers" allow_headers in
      (true, w)
    else (false, w).

(** [generateRequestID] formats [time.Now().UnixNano()] in decimal; the
    identifier is kept as the number. *)
Definition generateRequestID : M Z := time_Now.

(** [buildUpstreamURL] drops the error of [url.Parse]: when the base
    does not parse, [u] is [nil] and the assignment to [u.Path] panics. *)
Definition buildUpstreamURL (h : Handler) (hash : string)
    (queryParams : gmap string string) : Outcome string :=
  match url_Hostname (upstreamBase h) with
  | None => Panicked
  | Some _ => Returned (upstream_URL (upstreamBase h) hash queryParams)
  end.

(** [log.LogRequest] with its [time.Since(startTime)] argument. *)
Definition LogRequest (r : Request) (status startTime requestID : Z) : M unit :=
  call d <- time_Since startTime;
  emit (EvRequest (Method r) (URLPath r) status d requestID).

(** [h.client.Do]. *)
Definition client_Do (url : string) (header : gmap string string)
    : M (option UpstreamResponse) :=
  exec emit (EvUpstream url header);
  fun e => (upstream e url header, e).

(** The request headers of the conditional GET (lines 98 to 105). *)
Definition upstream_headers (entry : option CacheEntry) : gmap string string :=
  match entry with
  | None => ∅
  | Some entry =>
      let etag := map_get (Headers (EntryMetadata entry)) "ETag" in
      let hd := if negb (String.eqb etag "")
                then Header_Set ∅ "If-None-Match" etag else ∅ in
      let lastModified :=
        map_get (Headers (EntryMetadata entry)) "Last-Modified" in
      if negb (String.eqb lastModified "")
      then Header_Set hd "If-Modified-Since" lastModified else hd
  end.

(** [ServeHTTP] on the writer [w]; the result is the writer at the return,
    or the panic, and the store. *)
Definition ServeHTTP (h : Handler) (c : Cache) (w : ResponseWriter)
    (r : Request) : M (Outcome ResponseWriter * Cache) :=
  call startTime <- time_Now;
  call requestID <- generateRequestID;
  if String.eqb (Method r) "OPTIONS" then
    let (ok, w) := checkAccessControl h w r in
    if ok then ret (w_WriteHeader w 200, c) else
    match http_Error w "Forbidden" 403 with
    | Panicked => ret (Panicked, c)
    | Returned w =>
        exec LogRequest r 403 startTime requestID;
        ret (Returned w, c)
    end
  else
  let (ok, w) := checkAccessControl h w r in
  if negb ok then
    match http_Error w "Forbidden" 403 with
    | Panicked => ret (Panicked, c)
    | Returned w =>
        exec LogRequest r 403 startTime requestID;
        ret (Returned w, c)
    end
  else
  let hash := normalizeHash (strings_TrimPrefix (URLPath r) "/avatar/") in
  if String.eqb hash "" then
    exec LogRequest r 400 startTime requestID;
    ret (http_Error w "Invalid hash" 400, c)
  else
  let queryParams := extractQueryParams (URLQuery r) in
  let cacheKey := GenerateKey ("/avatar/" ++ hash) queryParams in
  call (cond, c) <- CheckConditional c cacheKey r;
  if cond then
    exec LogRequest r 304 startTime requestID;
    ret (w_WriteHeader w 304, c)
  else
  call (entry, valid, c) <- Get c cacheKey;
  if valid then
    exec log_Info "cache hit";
    let ttlSeconds := duration_Seconds (h_ttl h) in
    call (res, c) <- WriteResponse c w cacheKey ttlSeconds;
    match res with
    | Panicked => ret (Panicked, c)
    | Returned (Some _, w) =>
        exec log_Error "failed to write cached response";
        match http_Error w "Internal server error" 500 with
        | Panicked => ret (Panicked, c)
        | Returned w =>
            exec LogRequest r 500 startTime requestID;
            ret (Returned w, c)
        end
    | Returned (None, w) =>
        exec LogRequest r 200 startTime requestID;
        ret (Returned w, c)
    end
  else
  match buildUpstreamURL h hash queryParams with
  | Panicked => ret (Panicked, c)
  | Returned upstreamURL =>
  if negb (http_NewRequest_ok upstreamURL) then
    exec log_Error "failed to create upstream request";
    match http_Error w "Internal server error" 500 with
    | Panicked => ret (Panicked, c)
    | Returned w =>
        exec LogRequest r 500 startTime requestID;
        ret (Returned w, c)
    end
  else
  let reqHeader := upstream_headers entry in
  exec log_Info "fetching from upstream";
  call resp <- client_Do upstreamURL reqHeader;
  match resp with
  | None =>
      exec log_Error "upstream request failed";
      match http_Error w "Failed to fetch from upstream" 502 with
      | Panicked => ret (Panicked, c)
      | Returned w =>
          exec LogRequest r 502 startTime requestID;
          ret (Returned w, c)
      end
  | Some resp =>
      match (if RespStatus resp =? 304 then entry else None) with
      | Some entry =>
          exec log_Info "upstream returned 304, refreshing cache";
          let metadata := EntryMetadata entry in
          call now <- time_Now;
          let metadata := with_CreatedAt metadata now in
          call now <- time_Now;
          let metadata := with_LastAccessedAt metadata now in
          call (err, c) <- UpdateMetadata c cacheKey metadata;
          exec (match err with
                | Some _ => log_Warn "failed to update metadata"
                | None => ret tt
                end);
          let ttlSeconds := duration_Seconds (h_ttl h) in
          call (res, c) <- WriteResponse c w cacheKey ttlSeconds;
          match res with
          | Panicked => ret (Panicked, c)
          | Returned (Some _, w) =>
              exec log_Error "failed to write cached response";
              match http_Error w "Internal server error" 500 with
              | Panicked => ret (Panicked, c)
              | Returned w =>
                  exec LogRequest r 500 startTime requestID;
                  ret (Returned w, c)
              end
          | Returned (None, w) =>
              exec LogRequest r 200 startTime requestID;
              ret (Returned w, c)
          end
      | None =>
          match RespBody resp with
          | None =>
              exec log_Error "failed to read response body";
              match http_Error w "Failed to read upstream response" 500 with
              | Panicked => ret (Panicked, c)
              | Returned w =>
                  exec LogRequest r 500 startTime requestID;
                  ret (Returned w, c)
              end
          | Some data =>
              call created <- time_Now;
              call accessed <- time_Now;
              let metadata :=
                mkMetadata created accessed (ExtractHeaders resp)
                  (RespStatus resp) 0 in
              call (res, c) <- Set_ c cacheKey data metadata;
              match res with
              | Panicked => ret (Panicked, c)
              | Returned err =>
                  exec (match err with
                        | Some _ => log_Warn "failed to cache response"
                        | None => ret tt
                        end);
                  let w := w_set_all w (Headers metadata) in
                  let ttlSeconds := duration_Seconds (h_ttl h) in
                  let w :=
                    w_Header_Set w "Cache-Control" (max_age ttlSeconds) in
                  match w_WriteHeader w (RespStatus resp) with
                  | Panicked => ret (Panicked, c)
                  | Returned w =>
                      let w := (w_Write w data).2 in
                      exec LogRequest r (RespStatus resp) startTime requestID;
                      ret (Returned w, c)
                  end
              end
          end
      end
  end
  end.

End Proxy.

(** ** Package [config] *)

Record Config := mkConfig {
  Port : string;
  CacheDir : string;
  CacheTTL : Z;
  MaxCacheBytes : Z;
  UpstreamBase : string;
  AllowedOrigins : list string
}.

(** [strings.Split] with a separator of one byte. *)
Fixpoint strings_Split (sep : ascii) (s : string) : list string :=
  match s with
  | EmptyString => [EmptyString]
  | String a s' =>
      if Ascii.eqb a sep then EmptyString :: strings_Split sep s'
      else match strings_Split sep s' with
           | piece :: rest => String a piece :: rest
           | [] => [String a EmptyString]
           end
  end.

Section Configuration.
Context `{GoLib}.

(** [os.Getenv], and the two parsers of [Load], [None] for an error. *)
Variable os_Getenv : string -> string.
Variable time_ParseDuration : string -> option Z.
Variable strconv_ParseInt : string -> option Z.

Definition getEnv (key defaultValue : string) : string :=
  let value := os_Getenv key in
  if negb (String.eqb value "") then value else defaultValue.

(** [Load]; [None] is the error return. *)
Definition Load : option Config :=
  let port := getEnv "PORT" "8080" in
  let cacheDir := getEnv "CACHE_DIR" "./cache" in
  let cacheTTLStr := getEnv "CACHE_TTL" "24h" in
  let maxCacheBytesStr := getEnv "MAX_CACHE_BYTES" "268435456" in
  let upstream := getEnv "UPSTREAM_BASE" "https://www.gravatar.com" in
  match time_ParseDuration cacheTTLStr with
  | None => None
  | Some cacheTTL =>
      match strconv_ParseInt maxCacheBytesStr with
      | None => None
      | Some maxCacheBytes =>
          let allowedOriginsStr := getEnv "ALLOWED_ORIGINS" "" in
          let allowed :=
            if negb (String.eqb allowedOriginsStr "") then
              foldl (fun acc origin =>
                       let origin := strings_TrimSpace origin in
                       if negb (String.eqb origin "")
                       then (acc ++ [origin])%list else acc)
                [] (strings_Split ","%char allowedOriginsStr)
            else [] in
          Some (mkConfig port cacheDir cacheTTL maxCacheBytes upstream allowed)
      end
  end.

End Configuration.

(** [NewHandler], which never fails; the store is passed along with the
    handler. *)
Definition NewHandler (cfg : Config) : Handler :=
  mkHandler (UpstreamBase cfg) (CacheTTL cfg) (AllowedOrigins cfg).

(** ** A stand-in for the library functions

    One implementation of [GoLib], small enough to run the model on
    concrete inputs: the digest is the identity, a path is the directory,
    a slash and the name, a time is written as a decimal number of
    seconds, and the only index document that decodes is the one byte
    ["x31"], to [sample_doc]. *)

Definition sample_entry (key : string) (size : Z) : CacheEntry :=
  mkCacheEntry key ("/c/" ++ key) (mkMetadata 0 0 ∅ 200 size).

Definition sample_doc : IndexDoc :=
  mkIndexDoc
    (Some (<["a" := Some (sample_entry "a" 3)]>
             (<["b" := Some (sample_entry "b" 4)]> ∅)))
    ["a"; "b"].

Definition sample_lib : GoLib := {|
  sha256_Sum256 := fun bs => bs;
  filepath_Join := fun d name => d ++ "/" ++ name;
  http_ParseTime := fun s =>
    match NilZero.int_of_string s with
    | Some n => Some (Z.of_int n)
    | None => None
    end;
  json_Marshal_Metadata := fun m =>
    Some (list_byte_of_string (NilZero.string_of_int (Z.to_int (Size m))));
  json_Marshal_Index := fun _ => Some [x31];
  json_Unmarshal_Index := fun bs =>
    match bs with
    | [x31] => Some sample_doc
    | _ => None
    end;
  strings_TrimSpace := fun s => s;
  strings_ToLower := fun s => s;
  url_Hostname := fun s => Some s;
  http_CanonicalHeaderKey := fun s => s;
  upstream_URL := fun base hash _ => base ++ "/avatar/" ++ hash;
  http_NewRequest_ok := fun _ => true;
  duration_Seconds := fun d => d `quot` 1000000000
|}.

(** A world whose clock reads [t0], [t0 + 1], ..., with the given files,
    no locked path and an upstream that answers every request with [resp]. *)
Definition sample_env (t0 : Z) (fs : gmap string (list byte))
    (resp : option UpstreamResponse) : Env :=
  mkEnv (fun n => t0 + Z.of_nat n) 0 fs (fun _ => false) (fun _ _ old => old)
    (fun _ _ => resp) [].

Definition empty_cache (ttl maxBytes : Z) : Cache :=
  mkCache "/c" ttl maxBytes ∅ [] 0 false.

(** * The vocabulary of the properties *)

(** The keys of a query map, in the order of [map_to_list]. *)
Definition query_keys (q : gmap string string) : list string :=
  (map_to_list q).*1.

(** Splitting a string at the first occurrence of a character. *)
Fixpoint split_at (c : ascii) (s : string) : string * option string :=
  match s with
  | EmptyString => (EmptyString, None)
  | String a s' =>
      if Ascii.eqb a c then (EmptyString, Some s')
      else let (x, r) := split_at c s' in (String a x, r)
  end.

(** The names and values of a query have none of the separators. *)
Definition separator_free (q : gmap string string) : Prop :=
  forall k v, q !! k = Some v ->
    has_char "?"%char k = false /\ has_char "="%char k = false
    /\ has_char "?"%char v = false.

(** Two different strings with the same hexadecimal digest. *)
Definition digest_collision `{GoLib} (s1 s2 : string) : Prop :=
  s1 <> s2 /\
  hex_EncodeToString (sha256_Sum256 (list_byte_of_string s1))
  = hex_EncodeToString (sha256_Sum256 (list_byte_of_string s2)).

Definition sample_query : gmap string string :=
  <["s" := "80"]> (<["d" := "identicon"]> ∅).

(** The sum of the [Size] fields of the entries of an index, as an
    integer without wrap-around. *)
Definition total_size (idx : gmap string CacheEntry) : Z :=
  map_fold (fun _ entry acc => acc + Size (EntryMetadata entry)) 0 idx.

(** The running total is the [int64] sum of the sizes in the index. *)
Definition total_ok (c : Cache) : Prop :=
  currentBytes c = wrap64 (total_size (index c)).

(** A store in a consistent state: the running total is the sum of the
    sizes, which are not negative and do not overflow, and the recency
    list holds every key of the index, once. *)
Record store_ok (c : Cache) : Prop := mk_store_ok {
  ok_total : currentBytes c = total_size (index c);
  ok_sizes : forall k entry,
      index c !! k = Some entry -> 0 <= Size (EntryMetadata entry);
  ok_range : total_size (index c) <= max_int64;
  ok_listed : forall k, is_Some (index c !! k) -> k ∈ accessList c;
  ok_nodup : NoDup (accessList c)
}.

(** The entries of an index whose keys are in a list. *)
Definition entries_in (ks : list string) (idx : gmap string CacheEntry)
    : gmap string CacheEntry :=
  filter (fun kv : string * CacheEntry => kv.1 ∈ ks) idx.

(** What one run of the eviction loop did, from the store [c] in the
    world [e] to the store [c'] in the world [e'], in terms of the keys it
    took from the recency list, in the order in which it took them. *)
Record evicted (victims : list string) (c : Cache) (e : Env)
    (c' : Cache) (e' : Env) : Prop := mk_evicted {
  ev_order : accessList c = (victims ++ accessList c')%list;
  ev_index : forall k,
      index c' !! k = if decide (k ∈ victims) then None else index c !! k;
  ev_total :
      currentBytes c'
      = wrap64 (currentBytes c - total_size (entries_in victims (index c)));
  ev_conf : dir c' = dir c /\ ttl c' = ttl c /\ maxBytes c' = maxBytes c;
  ev_stop : currentBytes c' <= maxBytes c \/ accessList c' = [];
  ev_needed : forall v1 k v2,
      victims = (v1 ++ k :: v2)%list ->
      maxBytes c
      < wrap64 (currentBytes c - total_size (entries_in v1 (index c)));
  ev_removed : forall k entry,
      k ∈ victims -> index c !! k = Some entry ->
      EvRemove (FilePath entry) ∈ trace e'
      /\ EvRemove (FilePath entry ++ ".meta") ∈ trace e'
      /\ (locked e (FilePath entry) = false ->
          files e' !! FilePath entry = None)
      /\ (locked e (FilePath entry ++ ".meta") = false ->
          files e' !! (FilePath entry ++ ".meta")%string = None);
  ev_frame : forall p,
      (forall k entry, k ∈ victims -> index c !! k = Some entry ->
         p <> FilePath entry /\ p <> (FilePath entry ++ ".meta")%string) ->
      files e' !! p = files e !! p;
  ev_files_mono : forall p, files e !! p = None -> files e' !! p = None;
  ev_trace_mono : exists t, trace e' = (trace e ++ t)%list;
  ev_world : clock e' = clock e /\ ticks e' = ticks e
             /\ locked e' = locked e /\ upstream e' = upstream e
}.

(** The world after the two [os.Remove] and the [log.Info] of one
    iteration. *)
Definition removed_env (entry : CacheEntry) (e : Env) : Env :=
  (log_Info "evicted cache entry"
     (os_Remove (FilePath entry ++ ".meta")
        (os_Remove (FilePath entry) e).2).2).2.

(** Reading a field of a store that was built by the setters. *)
Ltac simpl_cache :=
  cbn [index accessList currentBytes maxBytes dir ttl nilIndex
       with_index with_accessList with_currentBytes with_nilIndex] in *.

(** The entries of an index whose keys are not in a list. *)
Definition entries_out (ks : list string) (idx : gmap string CacheEntry)
    : gmap string CacheEntry :=
  filter (fun kv : string * CacheEntry => kv.1 ∉ ks) idx.

(** The world after one more reading of the clock. *)
Definition tick (e : Env) : Env :=
  mkEnv (clock e) (S (ticks e)) (files e) (locked e) (residue e) (upstream e)
    (trace e).

(** The world after [n] more readings of the clock. *)
Definition ticked (n : nat) (e : Env) : Env :=
  mkEnv (clock e) (n + ticks e) (files e) (locked e) (residue e) (upstream e)
    (trace e).

(** The world with more events in its trace. *)
Definition traced (e : Env) (evs : list Event) : Env :=
  mkEnv (clock e) (ticks e) (files e) (locked e) (residue e) (upstream e)
    (trace e ++ evs).

Section SetVocabulary.
Context `{GoLib}.

(** The entry that [Set] builds. *)
Definition Set_entry (c : Cache) (key : string) (data : list byte)
    (metadata : Metadata) : CacheEntry :=
  mkCacheEntry key (filepath_Join (dir c) key)
    (with_Size metadata (Z.of_nat (length data))).

(** The store of [Set] when it calls [evictIfNeeded]. *)
Definition Set_inserted (c : Cache) (key : string) (data : list byte)
    (metadata : Metadata) : Cache :=
  let entry := Set_entry c key data metadata in
  let c :=
    match index c !! key with
    | Some existing =>
        with_currentBytes c
          (wrap64 (currentBytes c - Size (EntryMetadata existing)))
    | None => c
    end in
  let c := with_index c (<[key := entry]> (index c)) in
  let c :=
    with_currentBytes c
      (wrap64 (currentBytes c + Size (EntryMetadata entry))) in
  updateAccessList c key.

(** The world of [Set] when it calls [evictIfNeeded]: after the two
    writes. *)
Definition Set_written (c : Cache) (key : string) (data metaBytes : list byte)
    (e : Env) : Env :=
  (os_WriteFile (filepath_Join (dir c) (key ++ ".meta")) metaBytes
     (os_WriteFile (filepath_Join (dir c) key) data e).2).2.

(** No other entry of the index keeps its artifact, or its metadata
    file, at the path of the artifact of [key], and the metadata file of
    [key] and the index document are not at that path either. *)
Definition paths_apart (c : Cache) (key : string) : Prop :=
  filepath_Join (dir c) key <> filepath_Join (dir c) (key ++ ".meta")
  /\ filepath_Join (dir c) key <> filepath_Join (dir c) "index.json"
  /\ forall k entry, k <> key -> index c !! k = Some entry ->
       FilePath entry <> filepath_Join (dir c) key
       /\ (FilePath entry ++ ".meta")%string <> filepath_Join (dir c) key.

(** The world of [Set] at its return: after [saveIndex] and the log line
    of its failure. *)
Definition Set_saved (c : Cache) (e : Env) : Env :=
  let r := saveIndex c e in
  (match r.1 with
   | Some _ => log_Error "failed to save cache index"
   | None => ret tt
   end r.2).2.

End SetVocabulary.

(** A store with two entries of 40 bytes under a ceiling of 100, a payload
    of 40 bytes and a metadata record, as in the eviction test of the
    package. *)
Definition sample_store : Cache :=
  mkCache "/c" 3600 100
    (<["key1" := sample_entry "key1" 40]>
       (<["key2" := sample_entry "key2" 40]> ∅))
    ["key1"; "key2"] 80 false.

Definition sample_data : list byte := repeat x00 40.

Definition sample_metadata : Metadata := mkMetadata 5 5 ∅ 200 0.

Definition sample_world : Env :=
  sample_env 5
    (<["/c/key1" := sample_data]> (<["/c/key2" := sample_data]> ∅)) None.

(** The store after a [ReadData] that found [entry] and read the clock at
    [now]. *)
Definition ReadData_store (c : Cache) (key : string) (entry : CacheEntry)
    (now : Z) : Cache :=
  updateAccessList
    (with_index c
       (<[key := with_Metadata entry
                   (with_LastAccessedAt (EntryMetadata entry) now)]>
          (index c)))
    key.

Section HandlerVocabulary.
Context `{GoLib}.

(** The validators of the request match those of the stored entry: the
    request has an [If-None-Match] value and it is, byte for byte, the
    stored [ETag]; or its [If-Modified-Since] parses as a time and the
    stored [Last-Modified] parses as a time that is not after it. *)
Definition validators_match (entry : CacheEntry) (req : Request) : Prop :=
  let ifNoneMatch := Header_Get (ReqHeader req) "If-None-Match" in
  let ifModifiedSince := Header_Get (ReqHeader req) "If-Modified-Since" in
  let stored := Headers (EntryMetadata entry) in
  (ifNoneMatch <> "" /\ map_get stored "ETag" = ifNoneMatch)
  \/ (exists t lmt,
        http_ParseTime ifModifiedSince = Some t
        /\ http_ParseTime (map_get stored "Last-Modified") = Some lmt
        /\ lmt <= t).

(** The hash and the cache key that [ServeHTTP] derives from a request. *)
Definition request_hash (r : Request) : string :=
  normalizeHash (strings_TrimPrefix (URLPath r) "/avatar/").

Definition request_key (r : Request) : string :=
  GenerateKey ("/avatar/" ++ request_hash r) (extractQueryParams (URLQuery r)).

(** The request passes the gates before the cache: it is not a preflight,
    the access control lets it through and its hash is not empty. *)
Definition admitted (h : Handler) (r : Request) : Prop :=
  Method r <> "OPTIONS"
  /\ (checkAccessControl h new_ResponseWriter r).1 = true
  /\ request_hash r <> "".

End HandlerVocabulary.

(** A request for ["/avatar/abc"] carrying [If-None-Match: abc123], a
    handler without an allow list, and a store that holds, under the key
    of that request, an entry of 9 bytes created at time 0 with the
    headers [ETag: abc123], [Last-Modified: 100] and
    [Cache-Control: max-age=300]. *)
Definition sample_request : Request :=
  mkRequest "GET" "/avatar/abc" ∅ (<["If-None-Match" := "abc123"]> ∅).

Definition sample_handler : Handler :=
  mkHandler "https://www.gravatar.com" 3600000000000 [].

Definition sample_key : string := request_key (H := sample_lib) sample_request.

Definition sample_cached : CacheEntry :=
  mkCacheEntry sample_key ("/c/" ++ sample_key)
    (mkMetadata 0 0
       (<["ETag" := "abc123"]>
          (<["Last-Modified" := "100"]>
             (<["Cache-Control" := "max-age=300"]> ∅))) 200 9).

Definition sample_avatars (ttl : Z) : Cache :=
  mkCache "/c" ttl 1000 (<[sample_key := sample_cached]> ∅) [sample_key] 9
    false.

Definition sample_bytes : list byte := repeat x2a 9.

Section RevalidationVocabulary.
Context `{GoLib}.

(** The URL of the upstream request for a request. *)
Definition request_url (h : Handler) (r : Request) : string :=
  upstream_URL (upstreamBase h) (request_hash r)
    (extractQueryParams (URLQuery r)).

(** The writer after the access control, from the writer [w]. *)
Definition access_writer (h : Handler) (w : ResponseWriter) (r : Request)
    : ResponseWriter :=
  (checkAccessControl h w r).2.

(** The writer once the stored headers and the [Cache-Control] of the
    handler are set. *)
Definition served_writer (w : ResponseWriter) (headers : gmap string string)
    (ttlSeconds : Z) : ResponseWriter :=
  w_Header_Set (w_set_all w headers) "Cache-Control" (max_age ttlSeconds).

(** [Write] takes [data] as the body of a response with the status
    [status], on a connection that does not refuse it. *)
Definition takes_body (status : Z) (data : list byte) : bool :=
  (length data =? 0)%nat || bodyAllowedForStatus status.

(** The writer after the header with [status] and a write of [data] that
    was taken. *)
Definition written_writer (w : ResponseWriter) (status : Z)
    (data : list byte) : ResponseWriter :=
  mkResponseWriter (Some status) (WHeader w) (Body w ++ data) (Refuses w).

(** The world in which the handler, on an upstream 304 for a stale entry,
    calls [UpdateMetadata]: six readings of the clock and three events
    after the start of the request. *)
Definition refresh_world (h : Handler) (r : Request) (entry : CacheEntry)
    (e : Env) : Env :=
  traced (ticked 6 e)
    [EvLog "INFO" "fetching from upstream";
     EvUpstream (request_url h r) (upstream_headers (Some entry));
     EvLog "INFO" "upstream returned 304, refreshing cache"].

(** The metadata that the handler passes to [UpdateMetadata]: the stored
    record with [CreatedAt] and [LastAccessedAt] set to the fifth and the
    sixth reading of the clock of the request. *)
Definition refreshed_metadata (entry : CacheEntry) (e : Env) : Metadata :=
  with_LastAccessedAt
    (with_CreatedAt (EntryMetadata entry) (clock e (4 + ticks e)))
    (clock e (5 + ticks e)).

(** The world after the log line of a failed [UpdateMetadata]. *)
Definition refresh_logged (err : option string) (e : Env) : Env :=
  (match err with
   | Some _ => log_Warn "failed to update metadata"
   | None => ret tt
   end e).2.

End RevalidationVocabulary.

(** The world of a revalidation: the artifact of [sample_cached] is on the
    disk and the upstream answers 304 to everything. *)
Definition sample_revalidation : Env :=
  sample_env 5 (<["/c/" ++ sample_key := sample_bytes]> ∅)
    (Some (mkUpstreamResponse 304 ∅ None)).

(** The recency list holds every key of the index, and holds no key
    twice. *)
Definition recency_ok (c : Cache) : Prop :=
  NoDup (accessList c)
  /\ forall k, is_Some (index c !! k) -> k ∈ accessList c.

(** A world in which the paths of a list are locked. *)
Definition sample_locked (paths : list string) (e : Env) : Env :=
  mkEnv (clock e) (ticks e) (files e)
    (fun p => existsb (String.eqb p) paths) (residue e) (upstream e) (trace e).

(** A stand-in whose URL parser, like [url.Parse], finds a host only
    after a scheme: the host of ["https://example.com/a"] is
    ["example.com"], and a bare ["example.com"] is a path and has no
    host. *)
Definition scheme_lib : GoLib := {|
  sha256_Sum256 := fun bs => bs;
  filepath_Join := fun d name => d ++ "/" ++ name;
  http_ParseTime := fun _ => None;
  json_Marshal_Metadata := fun _ => None;
  json_Marshal_Index := fun _ => None;
  json_Unmarshal_Index := fun _ => None;
  strings_TrimSpace := fun s => s;
  strings_ToLower := fun s => s;
  url_Hostname := fun s =>
    if String.prefix "https://" s
    then Some (split_at "/"%char (strings_TrimPrefix s "https://")).1
    else Some "";
  http_CanonicalHeaderKey := fun s => s;
  upstream_URL := fun base hash _ => base ++ "/avatar/" ++ hash;
  http_NewRequest_ok := fun _ => true;
  duration_Seconds := fun d => d `quot` 1000000000
|}.


(** * Properties *)

(** ** Key derivation *)

Lemma elem_of_query_keys (q : gmap string string) (k : string) :
  k ∈ query_keys q <-> is_Some (q !! k).
Proof.
  unfold query_keys. rewrite list_elem_of_fmap. split.
  - intros [[k' v] [-> Hin]]. apply elem_of_map_to_list in Hin. eauto.
  - intros [v Hv]. exists (k, v). split; [done|].
    by apply elem_of_map_to_list.
Qed.

(** Sorting forgets the order of the enumeration. *)
Lemma merge_sort_perm (ks1 ks2 : list string) :
  ks1 ≡ₚ ks2 -> merge_sort String.le ks1 = merge_sort String.le ks2.
Proof.
  intros Hp. apply (Sorted_unique String.le).
  - apply Sorted_merge_sort, _.
  - apply Sorted_merge_sort, _.
  - by rewrite !merge_sort_Permutation.
Qed.

Lemma canonical_range_perm (ks1 ks2 : list string) (path : string)
    (q : gmap string string) :
  ks1 ≡ₚ ks2 -> canonical_range ks1 path q = canonical_range ks2 path q.
Proof.
  intros Hp. unfold canonical_range. by rewrite (merge_sort_perm ks1 ks2).
Qed.

Lemma split_at_free (c : ascii) (x : string) :
  has_char c x = false -> split_at c x = (x, None).
Proof.
  induction x as [|a x IH]; simpl; [done|].
  destruct (Ascii.eqb a c); [done|]. intros Hx. by rewrite IH.
Qed.

Lemma split_at_app (c : ascii) (x r : string) :
  has_char c x = false ->
  split_at c (x ++ String c r)%string = (x, Some r).
Proof.
  induction x as [|a x IH]; simpl.
  - by rewrite Ascii.eqb_refl.
  - destruct (Ascii.eqb a c); [done|]. intros Hx. by rewrite IH.
Qed.

(** A part [name=value] determines the name and the value when the name
    has no ["="]. *)
Lemma part_inj (k1 v1 k2 v2 : string) :
  has_char "="%char k1 = false -> has_char "="%char k2 = false ->
  (k1 ++ "=" ++ v1)%string = (k2 ++ "=" ++ v2)%string -> k1 = k2 /\ v1 = v2.
Proof.
  intros H1 H2 Heq.
  assert (Hs : split_at "="%char (k1 ++ String "="%char v1)%string
               = split_at "="%char (k2 ++ String "="%char v2)%string)
    by (f_equal; exact Heq).
  rewrite !split_at_app in Hs by done. by inversion Hs.
Qed.

Lemma concat_question_cons (x y : string) (l : list string) :
  String.concat "?" (x :: y :: l)
  = (x ++ String "?"%char (String.concat "?" (y :: l)))%string.
Proof. reflexivity. Qed.

(** Joining with ["?"] is injective on non-empty lists of strings that
    have no ["?"]. *)
Lemma concat_sep_inj (x1 x2 : string) (l1 l2 : list string) :
  Forall (fun s => has_char "?"%char s = false) (x1 :: l1) ->
  Forall (fun s => has_char "?"%char s = false) (x2 :: l2) ->
  String.concat "?" (x1 :: l1) = String.concat "?" (x2 :: l2) ->
  x1 :: l1 = x2 :: l2.
Proof.
  revert x1 x2 l2. induction l1 as [|y1 l1 IH]; intros x1 x2 l2 F1 F2 Heq.
  - destruct l2 as [|y2 l2]; [simpl in Heq; by subst|].
    rewrite concat_question_cons in Heq.
    apply (f_equal (split_at "?"%char)) in Heq. simpl String.concat in Heq.
    rewrite (split_at_free _ x1), (split_at_app _ x2) in Heq
      by (first [by inversion F1 | by inversion F2]).
    discriminate.
  - rewrite concat_question_cons in Heq.
    apply (f_equal (split_at "?"%char)) in Heq.
    rewrite (split_at_app _ x1) in Heq by (by inversion F1).
    destruct l2 as [|y2 l2].
    + simpl String.concat in Heq.
      rewrite (split_at_free _ x2) in Heq by (by inversion F2). discriminate.
    + rewrite concat_question_cons, split_at_app in Heq by (by inversion F2).
      inversion Heq as [[Hx Hr]]. f_equal.
      apply IH; [by inversion F1 | by inversion F2 | done].
Qed.

Lemma has_char_app (c : ascii) (x y : string) :
  has_char c (x ++ y)%string = has_char c x || has_char c y.
Proof.
  induction x as [|a x IH]; simpl; [done|]. by destruct (Ascii.eqb a c).
Qed.

(** Equal lists of parts come from equal lists of names with equal
    values. *)
Lemma parts_inj (q1 q2 : gmap string string) (l1 l2 : list string) :
  Forall (fun k => has_char "="%char k = false) l1 ->
  Forall (fun k => has_char "="%char k = false) l2 ->
  map (fun k => k ++ "=" ++ map_get q1 k)%string l1
  = map (fun k => k ++ "=" ++ map_get q2 k)%string l2 ->
  l1 = l2 /\ Forall (fun k => map_get q1 k = map_get q2 k) l1.
Proof.
  revert l2. induction l1 as [|k1 l1 IH]; intros [|k2 l2] F1 F2 Heq;
    simpl in Heq; try discriminate; [done|].
  injection Heq as Hk Hl.
  apply part_inj in Hk as [-> Hv]; [|by inversion F1|by inversion F2].
  destruct (IH l2) as [-> Hall]; [by inversion F1|by inversion F2|done|].
  split; [done|]. by constructor.
Qed.

Lemma canonical_range_inj (ks1 ks2 : list string) (path1 path2 : string)
    (q1 q2 : gmap string string) :
  ks1 ≡ₚ query_keys q1 -> ks2 ≡ₚ query_keys q2 ->
  has_char "?"%char path1 = false -> has_char "?"%char path2 = false ->
  separator_free q1 -> separator_free q2 ->
  canonical_range ks1 path1 q1 = canonical_range ks2 path2 q2 ->
  path1 = path2 /\ q1 = q2.
Proof.
  intros Hk1 Hk2 Hp1 Hp2 Hf1 Hf2 Heq. unfold canonical_range in Heq.
  set (s1 := merge_sort String.le ks1) in *.
  set (s2 := merge_sort String.le ks2) in *.
  assert (Hs1 : forall k, k ∈ s1 <-> is_Some (q1 !! k)).
  { intros k. unfold s1. by rewrite merge_sort_Permutation, Hk1,
      elem_of_query_keys. }
  assert (Hs2 : forall k, k ∈ s2 <-> is_Some (q2 !! k)).
  { intros k. unfold s2. by rewrite merge_sort_Permutation, Hk2,
      elem_of_query_keys. }
  assert (Hget : forall (q : gmap string string) k v,
             q !! k = Some v -> map_get q k = v).
  { intros q k v Hv. unfold map_get. by rewrite Hv. }
  apply concat_sep_inj in Heq.
  - injection Heq as -> Hparts. split; [done|].
    apply parts_inj in Hparts as [Hs Hall].
    + apply map_eq. intros k. rewrite Forall_forall in Hall.
      destruct (q1 !! k) as [v1|] eqn:E1.
      * assert (Hin : k ∈ s1) by (apply Hs1; eauto).
        pose proof (Hall k Hin) as Hv. rewrite (Hget _ _ _ E1) in Hv.
        rewrite Hs in Hin. apply Hs2 in Hin as [v2 E2].
        rewrite (Hget _ _ _ E2) in Hv. by subst.
      * destruct (q2 !! k) as [v2|] eqn:E2; [|done].
        assert (Hin : k ∈ s2) by (apply Hs2; eauto).
        rewrite <- Hs in Hin. apply Hs1 in Hin as [v Hv]. congruence.
    + apply Forall_forall. intros k [v Hv]%Hs1. by apply (Hf1 k v).
    + apply Forall_forall. intros k [v Hv]%Hs2. by apply (Hf2 k v).
  - constructor; [done|]. apply Forall_forall.
    intros s [k [-> Hin]]%list_elem_of_fmap. apply Hs1 in Hin as [v Hv].
    destruct (Hf1 k v Hv) as (Ha & _ & Hb).
    rewrite !has_char_app, Ha, (Hget _ _ _ Hv), Hb. done.
  - constructor; [done|]. apply Forall_forall.
    intros s [k [-> Hin]]%list_elem_of_fmap. apply Hs2 in Hin as [v Hv].
    destruct (Hf2 k v Hv) as (Ha & _ & Hb).
    rewrite !has_char_app, Ha, (Hget _ _ _ Hv), Hb. done.
Qed.

(** C7. [GenerateKey] is a function of the path and of the set of
    (name, value) pairs only: two maps with the same pairs give the same
    key whatever the order in which their keys are enumerated, and every
    enumeration gives the key of [GenerateKey]. *)
Theorem GenerateKey_order_invariant `{GoLib} (path : string)
    (q1 q2 : gmap string string) (ks1 ks2 : list string) :
  (forall k, q1 !! k = q2 !! k) ->
  ks1 ≡ₚ query_keys q1 -> ks2 ≡ₚ query_keys q2 ->
  GenerateKey_range ks1 path q1 = GenerateKey_range ks2 path q2
  /\ GenerateKey_range ks1 path q1 = GenerateKey path q1.
Proof.
  intros Hq Hk1 Hk2. apply map_eq in Hq. subst q2.
  unfold GenerateKey, GenerateKey_range. split.
  - by rewrite (canonical_range_perm ks1 ks2) by (by rewrite Hk1, Hk2).
  - by rewrite (canonical_range_perm ks1 (map_to_list q1).*1).
Qed.

Lemma GenerateKey_order_invariant_witness :
  GenerateKey_range (H := sample_lib) ["s"; "d"] "/avatar/test" sample_query
  = GenerateKey_range (H := sample_lib) ["d"; "s"] "/avatar/test" sample_query
  /\ GenerateKey_range (H := sample_lib) ["s"; "d"] "/avatar/test" sample_query
     = GenerateKey (H := sample_lib) "/avatar/test" sample_query.
Proof.
  apply (GenerateKey_order_invariant (H := sample_lib) "/avatar/test"
           sample_query sample_query ["s"; "d"] ["d"; "s"]).
  - intros k. reflexivity.
  - vm_compute. reflexivity.
  - vm_compute. apply Permutation_swap.
Defined.

(** C8, as stated, fails: the path ["/avatar/x?s=80"] with no parameter and
    the path ["/avatar/x"] with the parameter [s=80] are different inputs
    with the same canonical string, hence the same key. *)
Lemma GenerateKey_collision :
  ("/avatar/x?s=80", (∅ : gmap string string))
    <> ("/avatar/x", <["s" := "80"]> ∅)
  /\ canonical_range (query_keys ∅) "/avatar/x?s=80" ∅
     = canonical_range (query_keys (<["s" := "80"]> ∅)) "/avatar/x"
         (<["s" := "80"]> ∅)
  /\ GenerateKey (H := sample_lib) "/avatar/x?s=80" ∅
     = GenerateKey (H := sample_lib) "/avatar/x" (<["s" := "80"]> ∅).
Proof.
  split; [|split].
  - intros Heq. discriminate (f_equal fst Heq).
  - vm_compute. reflexivity.
  - vm_compute. reflexivity.
Qed.

(** C8, amended. When the paths have no ["?"], and the parameter names and
    values have no ["?"] and the names no ["="], two different
    (path, parameters) pairs have different canonical strings, so that
    their keys can only be equal by a collision of the digest. *)
Theorem GenerateKey_injective `{GoLib} (ks1 ks2 : list string)
    (path1 path2 : string) (q1 q2 : gmap string string) :
  ks1 ≡ₚ query_keys q1 -> ks2 ≡ₚ query_keys q2 ->
  has_char "?"%char path1 = false -> has_char "?"%char path2 = false ->
  separator_free q1 -> separator_free q2 ->
  (path1, q1) <> (path2, q2) ->
  canonical_range ks1 path1 q1 <> canonical_range ks2 path2 q2
  /\ (GenerateKey_range ks1 path1 q1 = GenerateKey_range ks2 path2 q2 ->
      digest_collision (canonical_range ks1 path1 q1)
        (canonical_range ks2 path2 q2)).
Proof.
  intros Hk1 Hk2 Hp1 Hp2 Hf1 Hf2 Hne.
  assert (Hc : canonical_range ks1 path1 q1 <> canonical_range ks2 path2 q2).
  { intros Heq. apply Hne.
    destruct (canonical_range_inj ks1 ks2 path1 path2 q1 q2) as [-> ->]; done. }
  split; [done|]. intros Hkey. split; [done|]. exact Hkey.
Qed.

(** ** Arithmetic of the running total *)

Lemma wrap64_id (z : Z) : in_int64 z -> wrap64 z = z.
Proof.
  unfold in_int64, min_int64, max_int64, wrap64. intros Hz.
  rewrite Z.mod_small; lia.
Qed.

Lemma wrap64_range (z : Z) : in_int64 (wrap64 z).
Proof.
  unfold in_int64, min_int64, max_int64, wrap64.
  pose proof (Z.mod_pos_bound (z + 2 ^ 63) (2 ^ 64)). lia.
Qed.

Lemma wrap64_add_l (a b : Z) : wrap64 (wrap64 a + b) = wrap64 (a + b).
Proof.
  unfold wrap64. f_equal.
  replace ((a + 2 ^ 63) mod 2 ^ 64 - 2 ^ 63 + b + 2 ^ 63)
    with ((a + 2 ^ 63) mod 2 ^ 64 + b) by lia.
  rewrite Zplus_mod_idemp_l. f_equal. lia.
Qed.

Lemma wrap64_sub_l (a b : Z) : wrap64 (wrap64 a - b) = wrap64 (a - b).
Proof. rewrite <- !Z.add_opp_r. apply wrap64_add_l. Qed.

Lemma wrap64_idemp (a : Z) : wrap64 (wrap64 a) = wrap64 a.
Proof. apply wrap64_id, wrap64_range. Qed.

(** ** The sum of the sizes *)

Lemma total_size_empty : total_size ∅ = 0.
Proof. apply map_fold_empty. Qed.

Lemma total_size_insert_fresh (idx : gmap string CacheEntry) k entry :
  idx !! k = None ->
  total_size (<[k := entry]> idx) = total_size idx + Size (EntryMetadata entry).
Proof.
  intros Hk. unfold total_size.
  rewrite map_fold_insert_L; [done| intros; lia | done].
Qed.

Lemma total_size_delete (idx : gmap string CacheEntry) k entry :
  idx !! k = Some entry ->
  total_size idx = total_size (delete k idx) + Size (EntryMetadata entry).
Proof.
  intros Hk. unfold total_size.
  rewrite (map_fold_delete_L _ _ k entry idx); [done| intros; lia | done].
Qed.

Lemma total_size_insert (idx : gmap string CacheEntry) k entry :
  total_size (<[k := entry]> idx)
  = total_size idx
    - match idx !! k with
      | Some old => Size (EntryMetadata old)
      | None => 0
      end
    + Size (EntryMetadata entry).
Proof.
  destruct (idx !! k) as [old|] eqn:Hk.
  - rewrite (total_size_delete idx k old) by done.
    rewrite <- (insert_delete_eq idx).
    rewrite total_size_insert_fresh by apply lookup_delete_eq. lia.
  - rewrite total_size_insert_fresh by done. lia.
Qed.

Lemma total_size_nonneg (idx : gmap string CacheEntry) :
  (forall k entry, idx !! k = Some entry -> 0 <= Size (EntryMetadata entry)) ->
  0 <= total_size idx.
Proof.
  induction idx as [|k entry idx Hk IH] using map_ind; intros Hs.
  - by rewrite total_size_empty.
  - rewrite total_size_insert_fresh by done.
    assert (0 <= Size (EntryMetadata entry))
      by (apply (Hs k); apply lookup_insert_eq).
    assert (0 <= total_size idx); [|lia].
    apply IH. intros k' e' He'. apply (Hs k').
    rewrite lookup_insert_ne; [done|]. intros ->. congruence.
Qed.

(** What [loadIndex] accumulates is the wrapped sum. *)
Lemma sum_sizes_total (start : Z) (idx : gmap string CacheEntry) :
  in_int64 start -> sum_sizes start idx = wrap64 (start + total_size idx).
Proof.
  intros Hs. induction idx as [|k entry idx Hk IH] using map_ind.
  - unfold sum_sizes. rewrite map_fold_empty, total_size_empty.
    rewrite Z.add_0_r. symmetry. by apply wrap64_id.
  - rewrite total_size_insert_fresh by done. unfold sum_sizes in *.
    rewrite map_fold_insert_L; [| |done].
    + rewrite IH, wrap64_add_l. f_equal. lia.
    + intros. rewrite !wrap64_add_l. f_equal. lia.
Qed.

Lemma entries_in_lookup (ks : list string) (idx : gmap string CacheEntry) k :
  entries_in ks idx !! k = if decide (k ∈ ks) then idx !! k else None.
Proof.
  unfold entries_in. destruct (decide (k ∈ ks)) as [Hin|Hin].
  - destruct (idx !! k) as [e|] eqn:He.
    + by apply map_lookup_filter_Some.
    + apply map_lookup_filter_None. by left.
  - apply map_lookup_filter_None. right. intros e _. exact Hin.
Qed.

Lemma entries_in_nil (idx : gmap string CacheEntry) : entries_in [] idx = ∅.
Proof.
  apply map_eq. intros k. rewrite entries_in_lookup, lookup_empty.
  destruct (decide (k ∈ [])) as [Hin|]; [|done]. by apply elem_of_nil in Hin.
Qed.

(** Taking one more key: its entry, when it has one, adds its size. *)
Lemma total_size_entries_in_cons (idx : gmap string CacheEntry) k ks :
  total_size (entries_in (k :: ks) idx)
  = match idx !! k with
    | Some entry => Size (EntryMetadata entry)
    | None => 0
    end
    + total_size (entries_in ks (delete k idx)).
Proof.
  destruct (idx !! k) as [entry|] eqn:Hk.
  - assert (Heq : entries_in (k :: ks) idx
                  = <[k := entry]> (entries_in ks (delete k idx))).
    { apply map_eq. intros j. rewrite entries_in_lookup.
      destruct (decide (j = k)) as [->|Hne].
      - rewrite lookup_insert_eq, decide_True by set_solver. done.
      - rewrite lookup_insert_ne, entries_in_lookup, lookup_delete_ne by done.
        apply decide_ext. rewrite elem_of_cons. tauto. }
    rewrite Heq, total_size_insert_fresh; [lia|].
    rewrite entries_in_lookup, lookup_delete_eq. by destruct (decide _).
  - assert (Heq : entries_in (k :: ks) idx = entries_in ks (delete k idx)).
    { apply map_eq. intros j. rewrite !entries_in_lookup.
      destruct (decide (j = k)) as [->|Hne].
      - rewrite lookup_delete_eq, Hk. by repeat destruct (decide _).
      - rewrite lookup_delete_ne by done.
        apply decide_ext. rewrite elem_of_cons. tauto. }
    rewrite Heq. lia.
Qed.

(** When every key of the index is in the list, the list takes all. *)
Lemma entries_in_all (ks : list string) (idx : gmap string CacheEntry) :
  (forall k, is_Some (idx !! k) -> k ∈ ks) -> entries_in ks idx = idx.
Proof.
  intros Hall. apply map_eq. intros k. rewrite entries_in_lookup.
  destruct (decide (k ∈ ks)) as [|Hn]; [done|].
  destruct (idx !! k) eqn:Hk; [|done]. destruct Hn. apply Hall. eauto.
Qed.

(** ** The primitive operations on the world *)

Lemma os_Remove_eq (p : string) (e : Env) :
  os_Remove p e
  = (tt, mkEnv (clock e) (ticks e)
           (if locked e p then files e else delete p (files e))
           (locked e) (residue e) (upstream e) (trace e ++ [EvRemove p])).
Proof.
  unfold os_Remove, bind, emit, set_files. simpl. by destruct (locked e p).
Qed.

Lemma os_WriteFile_eq (p : string) (data : list byte) (e : Env) :
  os_WriteFile p data e
  = (negb (locked e p),
     mkEnv (clock e) (ticks e)
       (if locked e p
        then partial_alter (residue e p data) p (files e)
        else <[p := data]> (files e))
       (locked e) (residue e) (upstream e) (trace e ++ [EvWriteFile p])).
Proof.
  unfold os_WriteFile, bind, emit, set_files. simpl. by destruct (locked e p).
Qed.

Lemma os_ReadFile_eq (p : string) (e : Env) :
  os_ReadFile p e
  = (if locked e p then ReadError
     else match files e !! p with
          | Some data => ReadOk data
          | None => ReadNotExist
          end,
     mkEnv (clock e) (ticks e) (files e) (locked e) (residue e) (upstream e)
       (trace e ++ [EvReadFile p])).
Proof.
  unfold os_ReadFile, bind, emit. simpl. destruct (locked e p); [done|].
  by destruct (files _ !! p).
Qed.

Lemma emit_eq (ev : Event) (e : Env) :
  emit ev e
  = (tt, mkEnv (clock e) (ticks e) (files e) (locked e) (residue e) (upstream e)
           (trace e ++ [ev])).
Proof. reflexivity. Qed.

(** ** The eviction loop *)

Lemma evictLoop_cons (k : string) (rest : list string) (c : Cache) (e : Env) :
  evictLoop (k :: rest) c e
  = if currentBytes c >? maxBytes c then
      match index c !! k with
      | None => evictLoop rest (with_accessList c rest) e
      | Some entry =>
          evictLoop rest
            (with_index
               (with_currentBytes (with_accessList c rest)
                  (wrap64 (currentBytes c - Size (EntryMetadata entry))))
               (delete k (index c)))
            (removed_env entry e)
      end
    else (c, e).
Proof.
  simpl. destruct (currentBytes c >? maxBytes c); [|done].
  simpl. destruct (index c !! k); [|done].
  unfold removed_env, bind.
  destruct (os_Remove (FilePath c0) e) as [[] e1]. simpl.
  destruct (os_Remove (FilePath c0 ++ ".meta") e1) as [[] e2]. simpl.
  destruct (log_Info "evicted cache entry" e2) as [[] e3]. done.
Qed.

(** The eviction does not make the map of the index [nil]. *)
Lemma evictLoop_nilIndex (l : list string) (c : Cache) (e : Env) :
  nilIndex (evictLoop l c e).1 = nilIndex c.
Proof.
  revert c e. induction l as [|k rest IH]; intros c e.
  - simpl. by destruct (_ >? _).
  - rewrite evictLoop_cons. destruct (_ >? _); [|done].
    destruct (index c !! k) as [entry|]; by rewrite IH.
Qed.

Lemma removed_env_files (entry : CacheEntry) (e : Env) :
  files (removed_env entry e)
  = (if locked e (FilePath entry ++ ".meta") then id
     else delete (FilePath entry ++ ".meta")%string)
      (if locked e (FilePath entry) then files e
       else delete (FilePath entry) (files e)).
Proof.
  unfold removed_env, log_Info. rewrite !os_Remove_eq, emit_eq. simpl.
  by destruct (locked e (FilePath entry ++ ".meta")).
Qed.

Lemma removed_env_trace (entry : CacheEntry) (e : Env) :
  trace (removed_env entry e)
  = (trace e ++ [EvRemove (FilePath entry);
                 EvRemove (FilePath entry ++ ".meta");
                 EvLog "INFO" "evicted cache entry"])%list.
Proof.
  unfold removed_env, log_Info. rewrite !os_Remove_eq, emit_eq. simpl.
  by rewrite <- !app_assoc.
Qed.

Lemma removed_env_world (entry : CacheEntry) (e : Env) :
  clock (removed_env entry e) = clock e
  /\ ticks (removed_env entry e) = ticks e
  /\ locked (removed_env entry e) = locked e
  /\ upstream (removed_env entry e) = upstream e.
Proof.
  unfold removed_env, log_Info. rewrite !os_Remove_eq, emit_eq. done.
Qed.

Lemma evicted_nil (c : Cache) (e : Env) :
  in_int64 (currentBytes c) ->
  currentBytes c <= maxBytes c \/ accessList c = [] ->
  evicted [] c e c e.
Proof.
  intros Hr Hstop. split.
  - done.
  - intros k. destruct (decide (k ∈ [])) as [Hin|]; [|done].
    by apply elem_of_nil in Hin.
  - rewrite entries_in_nil, total_size_empty, Z.sub_0_r.
    symmetry. by apply wrap64_id.
  - done.
  - done.
  - intros [|??] ???; discriminate.
  - intros k entry Hin. by apply elem_of_nil in Hin.
  - done.
  - done.
  - exists []. by rewrite app_nil_r.
  - done.
Qed.

(** One more victim at the head, with an entry in the index. *)
Lemma evicted_cons_entry (k : string) (rest victims : list string)
    (entry : CacheEntry) (c c' : Cache) (e e' : Env) :
  accessList c = k :: rest ->
  in_int64 (currentBytes c) ->
  maxBytes c < currentBytes c ->
  index c !! k = Some entry ->
  evicted victims
    (with_index
       (with_currentBytes (with_accessList c rest)
          (wrap64 (currentBytes c - Size (EntryMetadata entry))))
       (delete k (index c)))
    (removed_env entry e) c' e' ->
  evicted (k :: victims) c e c' e'.
Proof.
  intros Hl Hr Hgt Hk [Ho Hi Ht Hc Hs Hn Hrm Hf Hfm [t Htr] Hw].
  simpl_cache.
  destruct (removed_env_world entry e) as (Hw1 & Hw2 & Hw3 & Hw4).
  assert (Hsum : forall v,
    wrap64 (wrap64 (currentBytes c - Size (EntryMetadata entry))
            - total_size (entries_in v (delete k (index c))))
    = wrap64 (currentBytes c - total_size (entries_in (k :: v) (index c)))).
  { intros v. rewrite wrap64_sub_l, total_size_entries_in_cons, Hk.
    f_equal. lia. }
  split.
  - by rewrite Hl, Ho.
  - intros j. rewrite Hi. destruct (decide (j = k)) as [->|Hne].
    + rewrite lookup_delete_eq, (decide_True (P := k ∈ k :: victims))
        by apply list_elem_of_here.
      by destruct (decide _).
    + rewrite lookup_delete_ne by done. apply decide_ext.
      rewrite elem_of_cons. tauto.
  - by rewrite Ht, Hsum.
  - done.
  - done.
  - intros [|k0 v1] j v2 Heq; simpl in Heq.
    + rewrite entries_in_nil, total_size_empty, Z.sub_0_r, wrap64_id; done.
    + injection Heq as -> Heq. rewrite <- Hsum. by apply (Hn v1 j v2).
  - intros j en Hin Hj. destruct (decide (j = k)) as [->|Hne].
    + assert (en = entry) as -> by congruence.
      rewrite Htr, removed_env_trace.
      split; [|split; [|split]].
      * apply elem_of_app. left. apply elem_of_app. right.
        apply list_elem_of_here.
      * apply elem_of_app. left. apply elem_of_app. right.
        apply list_elem_of_further, list_elem_of_here.
      * intros Hlk. apply Hfm. rewrite removed_env_files, Hlk.
        destruct (locked e (FilePath entry ++ ".meta")); simpl;
          rewrite ?lookup_delete_None; auto.
      * intros Hlk. apply Hfm. rewrite removed_env_files, Hlk.
        apply lookup_delete_eq.
    + apply elem_of_cons in Hin as [?|Hin]; [done|].
      rewrite <- Hw3. apply (Hrm j en Hin). by rewrite lookup_delete_ne.
  - intros p Hp. rewrite Hf.
    + destruct (Hp k entry) as [Hp1 Hp2]; [apply list_elem_of_here|done|].
      rewrite removed_env_files.
      destruct (locked e (FilePath entry ++ ".meta")),
        (locked e (FilePath entry)); simpl;
        rewrite ?lookup_delete_ne by done; done.
    + intros j en Hin Hj. destruct (decide (j = k)) as [->|Hne].
      * by rewrite lookup_delete_eq in Hj.
      * rewrite lookup_delete_ne in Hj by done.
        apply (Hp j en); [by apply list_elem_of_further|done].
  - intros p Hp. apply Hfm. rewrite removed_env_files.
    destruct (locked e (FilePath entry ++ ".meta")),
      (locked e (FilePath entry)); simpl;
      rewrite ?lookup_delete_None; tauto.
  - exists ([EvRemove (FilePath entry);
             EvRemove (FilePath entry ++ ".meta");
             EvLog "INFO" "evicted cache entry"] ++ t)%list.
    by rewrite Htr, removed_env_trace, app_assoc.
  - destruct Hw as (-> & -> & -> & ->). done.
Qed.

(** One more key taken from the head that has no entry in the index. *)
Lemma evicted_cons_absent (k : string) (rest victims : list string)
    (c c' : Cache) (e e' : Env) :
  accessList c = k :: rest ->
  in_int64 (currentBytes c) ->
  maxBytes c < currentBytes c ->
  index c !! k = None ->
  evicted victims (with_accessList c rest) e c' e' ->
  evicted (k :: victims) c e c' e'.
Proof.
  intros Hl Hr Hgt Hk [Ho Hi Ht Hc Hs Hn Hrm Hf Hfm Htr Hw].
  simpl_cache.
  assert (Hsum : forall v,
    total_size (entries_in (k :: v) (index c))
    = total_size (entries_in v (index c))).
  { intros v. rewrite total_size_entries_in_cons, Hk.
    by rewrite delete_id. }
  split; [| | |done|done| | | |done|done|done].
  - by rewrite Hl, Ho.
  - intros j. rewrite Hi. destruct (decide (j = k)) as [->|Hne].
    + rewrite Hk. by repeat destruct (decide _).
    + apply decide_ext. rewrite elem_of_cons. tauto.
  - by rewrite Ht, Hsum.
  - intros [|k0 v1] j v2 Heq; simpl in Heq.
    + rewrite entries_in_nil, total_size_empty, Z.sub_0_r, wrap64_id; done.
    + injection Heq as -> Heq. rewrite Hsum. by apply (Hn v1 j v2).
  - intros j en Hin Hj. apply elem_of_cons in Hin as [->|Hin]; [congruence|].
    by apply (Hrm j en).
  - intros p Hp. apply Hf. intros j en Hin Hj.
    apply (Hp j en); [by apply list_elem_of_further|done].
Qed.

Lemma evictLoop_evicted (l : list string) (c : Cache) (e : Env) :
  accessList c = l -> in_int64 (currentBytes c) ->
  exists victims,
    evicted victims c e (evictLoop l c e).1 (evictLoop l c e).2.
Proof.
  revert c e. induction l as [|k rest IH]; intros c e Hl Hr.
  - exists []. simpl. destruct (currentBytes c >? maxBytes c);
      apply evicted_nil; auto.
  - rewrite evictLoop_cons.
    destruct (currentBytes c >? maxBytes c) eqn:Hgt.
    + apply Z.gtb_lt in Hgt. destruct (index c !! k) as [entry|] eqn:Hk.
      * edestruct IH as [victims Hv]; [| |exists (k :: victims);
          eapply evicted_cons_entry; [done..|exact Hv]]; [done|].
        apply wrap64_range.
      * edestruct IH as [victims Hv]; [| |exists (k :: victims);
          eapply evicted_cons_absent; [done..|exact Hv]]; done.
    + exists []. apply evicted_nil; [done|]. left.
      rewrite Z.gtb_ltb in Hgt. by apply Z.ltb_ge in Hgt.
Qed.

(** ** What eviction keeps *)

Lemma entries_out_lookup (ks : list string) (idx : gmap string CacheEntry) k :
  entries_out ks idx !! k = if decide (k ∈ ks) then None else idx !! k.
Proof.
  unfold entries_out. destruct (decide (k ∈ ks)) as [Hin|Hin].
  - apply map_lookup_filter_None. right. intros e _ Hn. by apply Hn.
  - destruct (idx !! k) as [e|] eqn:He.
    + by apply map_lookup_filter_Some.
    + apply map_lookup_filter_None. by left.
Qed.

Lemma total_size_split (ks : list string) (idx : gmap string CacheEntry) :
  total_size idx
  = total_size (entries_in ks idx) + total_size (entries_out ks idx).
Proof.
  revert idx. induction ks as [|k ks IH]; intros idx.
  - rewrite entries_in_nil, total_size_empty.
    replace (entries_out [] idx) with idx; [lia|].
    apply map_eq. intros j. rewrite entries_out_lookup.
    destruct (decide (j ∈ [])) as [Hin|]; [|done].
    by apply elem_of_nil in Hin.
  - rewrite total_size_entries_in_cons.
    assert (Hout : entries_out (k :: ks) idx = entries_out ks (delete k idx)).
    { apply map_eq. intros j. rewrite !entries_out_lookup.
      destruct (decide (j = k)) as [->|Hne].
      - rewrite lookup_delete_eq, (decide_True (P := k ∈ k :: ks))
          by apply list_elem_of_here.
        by destruct (decide _).
      - rewrite lookup_delete_ne by done. apply decide_ext.
        rewrite elem_of_cons. tauto. }
    rewrite Hout. specialize (IH (delete k idx)).
    destruct (idx !! k) as [entry|] eqn:Hk.
    + rewrite (total_size_delete idx k entry) by done. lia.
    + rewrite delete_id in * by done. lia.
Qed.

Lemma evicted_index (victims : list string) (c c' : Cache) (e e' : Env) :
  evicted victims c e c' e' -> index c' = entries_out victims (index c).
Proof.
  intros Hev. apply map_eq. intros k.
  by rewrite entries_out_lookup, (ev_index _ _ _ _ _ Hev).
Qed.

Lemma evicted_total_ok (victims : list string) (c c' : Cache) (e e' : Env) :
  total_ok c -> evicted victims c e c' e' -> total_ok c'.
Proof.
  unfold total_ok. intros Hc Hev.
  rewrite (ev_total _ _ _ _ _ Hev), Hc, wrap64_sub_l.
  rewrite (evicted_index _ _ _ _ _ Hev). f_equal.
  pose proof (total_size_split victims (index c)). lia.
Qed.

Lemma evicted_store_ok (victims : list string) (c c' : Cache) (e e' : Env) :
  store_ok c -> evicted victims c e c' e' -> store_ok c'.
Proof.
  intros [Ht Hs Hr Hl Hn] Hev.
  assert (Hsub : forall k entry,
             index c' !! k = Some entry -> index c !! k = Some entry).
  { intros k entry. rewrite (ev_index _ _ _ _ _ Hev).
    by destruct (decide _). }
  assert (Hs' : forall k entry,
             index c' !! k = Some entry -> 0 <= Size (EntryMetadata entry)).
  { intros k entry Hk. apply (Hs k). by apply Hsub. }
  pose proof (total_size_split victims (index c)) as Hsplit.
  rewrite <- (evicted_index _ _ _ _ _ Hev) in Hsplit.
  pose proof (total_size_nonneg _ Hs') as H0.
  assert (H1 : 0 <= total_size (entries_in victims (index c))).
  { apply total_size_nonneg. intros k entry. rewrite entries_in_lookup.
    destruct (decide _); [apply Hs|done]. }
  split.
  - rewrite (ev_total _ _ _ _ _ Hev), Ht.
    replace (total_size (index c)
             - total_size (entries_in victims (index c)))
      with (total_size (index c')) by lia.
    apply wrap64_id. unfold in_int64, min_int64. lia.
  - done.
  - lia.
  - intros k [entry Hk]. pose proof Hk as Hk'.
    rewrite (ev_index _ _ _ _ _ Hev) in Hk'.
    destruct (decide (k ∈ victims)) as [|Hout]; [done|].
    assert (Hin : k ∈ accessList c) by (apply Hl; eauto).
    rewrite (ev_order _ _ _ _ _ Hev) in Hin.
    apply elem_of_app in Hin as [?|?]; done.
  - rewrite (ev_order _ _ _ _ _ Hev) in Hn. by apply NoDup_app in Hn as (_&_&?).
Qed.

(** ** The recency list *)

Lemma elem_of_remove_first_ne (key k : string) (l : list string) :
  k <> key -> k ∈ remove_first key l <-> k ∈ l.
Proof.
  intros Hne. induction l as [|a l IH]; simpl; [done|].
  destruct (String.eqb_spec a key) as [->|Ha].
  - rewrite elem_of_cons. tauto.
  - rewrite !elem_of_cons. tauto.
Qed.

Lemma remove_first_subseteq (key k : string) (l : list string) :
  k ∈ remove_first key l -> k ∈ l.
Proof.
  induction l as [|a l IH]; simpl; [done|].
  destruct (String.eqb_spec a key) as [->|Ha]; rewrite !elem_of_cons; tauto.
Qed.

Lemma remove_first_NoDup (key : string) (l : list string) :
  NoDup l -> NoDup (remove_first key l) /\ key ∉ remove_first key l.
Proof.
  induction 1 as [|a l Ha Hl [IH1 IH2]]; simpl.
  - split; [constructor|]. apply not_elem_of_nil.
  - destruct (String.eqb_spec a key) as [->|Hne]; [done|].
    split.
    + constructor; [|done]. intros Hin. by apply remove_first_subseteq in Hin.
    + rewrite elem_of_cons. intros [?|?]; [congruence|done].
Qed.

Lemma updateAccessList_NoDup (c : Cache) (key : string) :
  NoDup (accessList c) -> NoDup (accessList (updateAccessList c key)).
Proof.
  intros Hn. simpl. destruct (remove_first_NoDup key _ Hn) as [H1 H2].
  apply NoDup_app. split; [done|]. split; [|apply NoDup_singleton].
  intros k Hk ->%list_elem_of_singleton. done.
Qed.

Lemma updateAccessList_elem (c : Cache) (key k : string) :
  k ∈ accessList (updateAccessList c key) <-> k = key \/ k ∈ accessList c.
Proof.
  simpl. rewrite elem_of_app, list_elem_of_singleton.
  destruct (decide (k = key)) as [->|Hne]; [tauto|].
  rewrite elem_of_remove_first_ne by done. tauto.
Qed.

(** ** [Set] *)

Section SetLemmas.
Context `{GoLib}.

(** [Set], by cases on its three failures. *)
Lemma Set_eq (c : Cache) (key : string) (data : list byte) (md : Metadata)
    (e : Env) :
  Set_ c key data md e
  = if locked e (filepath_Join (dir c) key)
    then (Returned (Some "failed to write cache file"), c,
          (os_WriteFile (filepath_Join (dir c) key) data e).2)
    else
      match json_Marshal_Metadata (with_Size md (Z.of_nat (length data))) with
      | None => (Returned (Some "failed to marshal metadata"), c,
                 (os_WriteFile (filepath_Join (dir c) key) data e).2)
      | Some mb =>
          if locked e (filepath_Join (dir c) (key ++ ".meta"))
          then (Returned (Some "failed to write metadata file"), c,
                Set_written c key data mb e)
          else if nilIndex c
          then (Panicked, c, Set_written c key data mb e)
          else
            let r := evictIfNeeded (Set_inserted c key data md)
                       (Set_written c key data mb e) in
            (Returned None, r.1, Set_saved r.1 r.2)
      end.
Proof.
  unfold Set_, Set_written, Set_saved, bind.
  rewrite os_WriteFile_eq. cbn [fst snd].
  destruct (locked e (filepath_Join (dir c) key)); [done|].
  cbn [negb]. cbv iota.
  destruct (json_Marshal_Metadata _) as [mb|]; [|done].
  rewrite os_WriteFile_eq. cbn [locked fst snd].
  destruct (locked e (filepath_Join (dir c) (key ++ ".meta"))); [done|].
  cbn [negb]. cbv iota.
  destruct (nilIndex c); [done|].
  fold (Set_entry c key data md).
  change (evictIfNeeded _) with (evictIfNeeded (Set_inserted c key data md)).
  destruct (evictIfNeeded _ _) as [c3 e3]. cbn [fst snd].
  destruct (saveIndex c3 e3) as [err e4]. cbn [fst snd].
  destruct err; cbn; by destruct (log_Error _ _) || done.
Qed.

Lemma Set_saved_frame (c : Cache) (e : Env) :
  (forall p, p <> filepath_Join (dir c) "index.json" ->
     files (Set_saved c e) !! p = files e !! p)
  /\ locked (Set_saved c e) = locked e
  /\ clock (Set_saved c e) = clock e
  /\ ticks (Set_saved c e) = ticks e
  /\ upstream (Set_saved c e) = upstream e.
Proof.
  unfold Set_saved, saveIndex, bind, log_Error.
  destruct (json_Marshal_Index _) as [bs|]; cbn [fst snd ret].
  - rewrite os_WriteFile_eq. cbn [fst snd].
    destruct (locked e _) eqn:Hl; cbn [negb]; rewrite ?emit_eq; cbn;
      (split; [|done]); intros p Hp.
    + by rewrite lookup_partial_alter_ne.
    + by rewrite lookup_insert_ne.
  - rewrite emit_eq. cbn. done.
Qed.

Lemma Set_written_files (c : Cache) (key : string) (data mb : list byte)
    (e : Env) :
  locked e (filepath_Join (dir c) key) = false ->
  locked e (filepath_Join (dir c) (key ++ ".meta")) = false ->
  files (Set_written c key data mb e)
  = <[filepath_Join (dir c) (key ++ ".meta") := mb]>
      (<[filepath_Join (dir c) key := data]> (files e)).
Proof.
  intros H1 H2. unfold Set_written. rewrite !os_WriteFile_eq. cbn.
  by rewrite H1, H2.
Qed.

(** The two writes of [Set] touch no other path, whether they succeed or
    not. *)
Lemma Set_written_frame (c : Cache) (key : string) (data mb : list byte)
    (e : Env) (p : string) :
  p <> filepath_Join (dir c) key ->
  p <> filepath_Join (dir c) (key ++ ".meta") ->
  files (Set_written c key data mb e) !! p = files e !! p.
Proof.
  intros H1 H2. unfold Set_written. rewrite !os_WriteFile_eq. cbn.
  destruct (locked e (filepath_Join (dir c) (key ++ ".meta")));
    destruct (locked e (filepath_Join (dir c) key));
    rewrite ?lookup_partial_alter_ne, ?lookup_insert_ne by done;
    rewrite ?lookup_partial_alter_ne, ?lookup_insert_ne by done; done.
Qed.

Lemma Set_written_world (c : Cache) (key : string) (data mb : list byte)
    (e : Env) :
  locked (Set_written c key data mb e) = locked e
  /\ clock (Set_written c key data mb e) = clock e
  /\ ticks (Set_written c key data mb e) = ticks e
  /\ upstream (Set_written c key data mb e) = upstream e.
Proof. unfold Set_written. rewrite !os_WriteFile_eq. done. Qed.

Lemma Set_written_residue (c : Cache) (key : string) (data mb : list byte)
    (e : Env) :
  residue (Set_written c key data mb e) = residue e.
Proof. unfold Set_written. rewrite !os_WriteFile_eq. done. Qed.

(** The store that [Set] hands to the eviction. *)
Lemma Set_inserted_fields (c : Cache) (key : string) (data : list byte)
    (md : Metadata) :
  index (Set_inserted c key data md)
  = <[key := Set_entry c key data md]> (index c)
  /\ accessList (Set_inserted c key data md)
     = (remove_first key (accessList c) ++ [key])%list
  /\ currentBytes (Set_inserted c key data md)
     = wrap64 (match index c !! key with
               | Some existing =>
                   wrap64 (currentBytes c - Size (EntryMetadata existing))
               | None => currentBytes c
               end + Z.of_nat (length data))
  /\ dir (Set_inserted c key data md) = dir c
  /\ ttl (Set_inserted c key data md) = ttl c
  /\ maxBytes (Set_inserted c key data md) = maxBytes c.
Proof. unfold Set_inserted. by destruct (index c !! key). Qed.

Lemma Set_inserted_nilIndex (c : Cache) (key : string) (data : list byte)
    (md : Metadata) :
  nilIndex (Set_inserted c key data md) = nilIndex c.
Proof. unfold Set_inserted. by destruct (index c !! key). Qed.

Lemma Set_inserted_total_ok (c : Cache) (key : string) (data : list byte)
    (md : Metadata) :
  total_ok c -> total_ok (Set_inserted c key data md).
Proof.
  unfold total_ok. intros Hc.
  destruct (Set_inserted_fields c key data md) as (-> & _ & -> & _).
  rewrite total_size_insert, Hc. cbn [Set_entry EntryMetadata with_Size Size].
  destruct (index c !! key) as [old|].
  - by rewrite wrap64_sub_l, wrap64_add_l.
  - rewrite wrap64_add_l. f_equal. lia.
Qed.

Lemma Set_inserted_store_ok (c : Cache) (key : string) (data : list byte)
    (md : Metadata) :
  store_ok c ->
  total_size (index c) + Z.of_nat (length data) <= max_int64 ->
  store_ok (Set_inserted c key data md).
Proof.
  intros [Ht Hs Hr Hl Hn] Hfit.
  destruct (Set_inserted_fields c key data md) as (Hi & Ha & Hb & _).
  pose proof (total_size_insert (index c) key (Set_entry c key data md)) as Hsum.
  cbn [Set_entry EntryMetadata with_Size Size] in Hsum.
  pose proof (total_size_nonneg _ Hs) as H0.
  assert (Hold : 0 <= match index c !! key with
                      | Some old => Size (EntryMetadata old)
                      | None => 0
                      end <= total_size (index c)).
  { destruct (index c !! key) as [old|] eqn:Hk; [|lia].
    pose proof (Hs key old Hk).
    rewrite (total_size_delete _ _ _ Hk).
    assert (0 <= total_size (delete key (index c))); [|lia].
    apply total_size_nonneg. intros k en Hen.
    apply (Hs k). apply lookup_delete_Some in Hen. tauto. }
  split.
  - rewrite Hb, Hi, Hsum, Ht. unfold min_int64, max_int64 in *.
    destruct (index c !! key) as [old|].
    + rewrite wrap64_add_l. apply wrap64_id.
      unfold in_int64, min_int64, max_int64. lia.
    + rewrite Z.sub_0_r. apply wrap64_id.
      unfold in_int64, min_int64, max_int64. lia.
  - rewrite Hi. intros k en. rewrite lookup_insert.
    destruct (decide (key = k)) as [->|Hne].
    + intros [= <-]. cbn. lia.
    + apply Hs.
  - rewrite Hi, Hsum. lia.
  - rewrite Hi. intros k Hk.
    rewrite Ha.
    rewrite elem_of_app, list_elem_of_singleton.
    destruct (decide (k = key)) as [->|Hne]; [tauto|]. left.
    rewrite elem_of_remove_first_ne by done.
    apply Hl. by rewrite lookup_insert_ne in Hk.
  - rewrite Ha. destruct (remove_first_NoDup key _ Hn) as [H1 H2].
    apply NoDup_app. split; [done|]. split; [|apply NoDup_singleton].
    intros k Hk ->%list_elem_of_singleton. done.
Qed.

End SetLemmas.

Section SetResults.
Context `{GoLib}.

(** A [Set] that returns no error went through the eviction. *)
Lemma Set_success (c : Cache) (key : string) (data : list byte)
    (md : Metadata) (e : Env) (c' : Cache) (e' : Env) :
  Set_ c key data md e = (Returned None, c', e') ->
  exists mb,
    json_Marshal_Metadata (with_Size md (Z.of_nat (length data))) = Some mb
    /\ locked e (filepath_Join (dir c) key) = false
    /\ locked e (filepath_Join (dir c) (key ++ ".meta")) = false
    /\ c' = (evictIfNeeded (Set_inserted c key data md)
               (Set_written c key data mb e)).1
    /\ e' = Set_saved c'
              (evictIfNeeded (Set_inserted c key data md)
                 (Set_written c key data mb e)).2.
Proof.
  rewrite Set_eq. destruct (locked e (filepath_Join (dir c) key)); [done|].
  destruct (json_Marshal_Metadata _) as [mb|]; [|done].
  destruct (locked e (filepath_Join (dir c) (key ++ ".meta"))); [done|].
  destruct (nilIndex c); [done|].
  cbn zeta. intros [= <- <-]. by exists mb.
Qed.

(** A [Set] that returns no error ran on a map that is not [nil]. *)
Lemma Set_success_nilIndex (c : Cache) (key : string) (data : list byte)
    (md : Metadata) (e : Env) (c' : Cache) (e' : Env) :
  Set_ c key data md e = (Returned None, c', e') -> nilIndex c = false.
Proof.
  rewrite Set_eq. destruct (locked e (filepath_Join (dir c) key)); [done|].
  destruct (json_Marshal_Metadata _) as [mb|]; [|done].
  destruct (locked e (filepath_Join (dir c) (key ++ ".meta"))); [done|].
  by destruct (nilIndex c).
Qed.

(** A [Set] that returns an error leaves the store as it was. *)
Lemma Set_failure (c : Cache) (key : string) (data : list byte)
    (md : Metadata) (e : Env) (msg : string) (c' : Cache) (e' : Env) :
  Set_ c key data md e = (Returned (Some msg), c', e') -> c' = c.
Proof.
  rewrite Set_eq. destruct (locked e (filepath_Join (dir c) key));
    [by intros [= _ <- _]|].
  destruct (json_Marshal_Metadata _) as [mb|]; [|by intros [= _ <- _]].
  destruct (locked e (filepath_Join (dir c) (key ++ ".meta")));
    [by intros [= _ <- _]|]. by destruct (nilIndex c).
Qed.

(** A [Set] that panics leaves the store as it was. *)
Lemma Set_panic (c : Cache) (key : string) (data : list byte)
    (md : Metadata) (e : Env) (c' : Cache) (e' : Env) :
  Set_ c key data md e = (Panicked, c', e') -> c' = c /\ nilIndex c = true.
Proof.
  rewrite Set_eq. destruct (locked e (filepath_Join (dir c) key)); [done|].
  destruct (json_Marshal_Metadata _) as [mb|]; [|done].
  destruct (locked e (filepath_Join (dir c) (key ++ ".meta"))); [done|].
  destruct (nilIndex c); [|done]. by intros [= <- _].
Qed.

Lemma in_int64_total (c : Cache) : store_ok c -> in_int64 (currentBytes c).
Proof.
  intros [Ht Hs Hr _ _]. rewrite Ht.
  pose proof (total_size_nonneg _ Hs). unfold in_int64, min_int64. lia.
Qed.

(** After a [Set] on a consistent store the store is consistent, and under
    a ceiling that is not negative the total is at most the ceiling. *)
Lemma Set_store_ok (c : Cache) (key : string) (data : list byte)
    (md : Metadata) (e : Env) (c' : Cache) (e' : Env) :
  store_ok c ->
  total_size (index c) + Z.of_nat (length data) <= max_int64 ->
  Set_ c key data md e = (Returned None, c', e') ->
  store_ok c' /\ (0 <= maxBytes c -> currentBytes c' <= maxBytes c').
Proof.
  intros Hok Hfit Hset.
  destruct (Set_success _ _ _ _ _ _ _ Hset) as (mb & _ & _ & _ & -> & _).
  pose proof (Set_inserted_store_ok c key data md Hok Hfit) as Hok2.
  destruct (evictLoop_evicted _ (Set_inserted c key data md)
              (Set_written c key data mb e) eq_refl (in_int64_total _ Hok2))
    as [victims Hev].
  fold (evictIfNeeded (Set_inserted c key data md)) in Hev.
  pose proof (evicted_store_ok _ _ _ _ _ Hok2 Hev) as Hok3.
  split; [done|]. intros Hmax.
  destruct (ev_conf _ _ _ _ _ Hev) as (_ & _ & Hm). rewrite Hm.
  destruct (Set_inserted_fields c key data md) as (_ & _ & _ & _ & _ & Hm2).
  destruct (ev_stop _ _ _ _ _ Hev) as [Hle|Hnil]; [done|].
  rewrite Hm2. destruct Hok3 as [Ht _ _ Hl _]. rewrite Ht.
  replace (index _) with (∅ : gmap string CacheEntry).
  - by rewrite total_size_empty.
  - symmetry. apply map_empty. intros k.
    destruct (index _ !! k) eqn:Hk; [|done].
    assert (Hin : k ∈ accessList
              (evictIfNeeded (Set_inserted c key data md)
                 (Set_written c key data mb e)).1) by (apply Hl; eauto).
    rewrite Hnil in Hin. by apply elem_of_nil in Hin.
Qed.

End SetResults.

Lemma app_last_unique (key : string) (l1 v1 r : list string) :
  (l1 ++ [key])%list = (v1 ++ key :: r)%list -> key ∉ l1 ->
  v1 = l1 /\ r = [].
Proof.
  revert v1. induction l1 as [|a l1 IH]; intros v1 Heq Hn.
  - destruct v1 as [|b v1]; simpl in Heq.
    + by injection Heq as <-.
    + injection Heq as _ Heq. by destruct v1.
  - apply not_elem_of_cons in Hn as [Hne Hn].
    destruct v1 as [|b v1]; simpl in Heq.
    + injection Heq as Ha _. congruence.
    + injection Heq as -> Heq. destruct (IH v1 Heq Hn) as [-> ->]. done.
Qed.

Section SetKeeps.
Context `{GoLib}.

(** A payload that fits under the ceiling is not evicted by its own
    [Set]. *)
Lemma Set_keeps_key (c : Cache) (key : string) (data : list byte)
    (md : Metadata) (victims : list string) (e2 : Env) (c' : Cache)
    (e3 : Env) :
  store_ok c ->
  Z.of_nat (length data) <= maxBytes c ->
  total_size (index c) + Z.of_nat (length data) <= max_int64 ->
  evicted victims (Set_inserted c key data md) e2 c' e3 ->
  key ∉ victims.
Proof.
  intros Hok Hle Hfit Hev Hin.
  pose proof (Set_inserted_store_ok c key data md Hok Hfit) as Hok2.
  destruct (Set_inserted_fields c key data md) as (Hi & Ha & _ & _ & _ & Hm).
  destruct (remove_first_NoDup key _ (ok_nodup _ Hok)) as [_ Hnot].
  set (l1 := remove_first key (accessList c)) in *.
  apply list_elem_of_split in Hin as (v1 & v2 & Hv).
  pose proof (ev_order _ _ _ _ _ Hev) as Ho.
  rewrite Ha, Hv, <- app_assoc in Ho. simpl in Ho.
  apply app_last_unique in Ho as [-> Hnil]; [|done].
  pose proof (ev_needed _ _ _ _ _ Hev l1 key v2 Hv) as Hgt.
  rewrite Hm, (ok_total _ Hok2) in Hgt.
  pose proof (total_size_split l1 (index (Set_inserted c key data md)))
    as Hsplit.
  assert (Hout : entries_out l1 (index (Set_inserted c key data md))
                 = <[key := Set_entry c key data md]> ∅).
  { apply map_eq. intros k. rewrite entries_out_lookup, Hi.
    destruct (decide (k = key)) as [->|Hne].
    - rewrite !lookup_insert_eq. by destruct (decide _).
    - rewrite !lookup_insert_ne, lookup_empty by done.
      destruct (decide (k ∈ l1)) as [|Hk]; [done|].
      destruct (index c !! k) eqn:Hc; [|done]. destruct Hk.
      apply elem_of_remove_first_ne; [done|].
      apply (ok_listed _ Hok). eauto. }
  rewrite Hout, total_size_insert_fresh, total_size_empty in Hsplit
    by apply lookup_empty.
  cbn [Set_entry EntryMetadata with_Size Size] in Hsplit.
  replace (total_size (index (Set_inserted c key data md))
           - total_size (entries_in l1 (index (Set_inserted c key data md))))
    with (Z.of_nat (length data)) in Hgt by lia.
  rewrite wrap64_id in Hgt; [lia|].
  pose proof (ok_range _ Hok). pose proof (total_size_nonneg _ (ok_sizes _ Hok)).
  unfold in_int64, min_int64, max_int64 in *. lia.
Qed.

End SetKeeps.

(** ** The sample store *)

Lemma sample_store_lookup (k : string) (entry : CacheEntry) :
  index sample_store !! k = Some entry ->
  (k = "key1" /\ entry = sample_entry "key1" 40)
  \/ (k = "key2" /\ entry = sample_entry "key2" 40).
Proof.
  unfold sample_store. cbn [index]. intros Hk.
  apply lookup_insert_Some in Hk as [[<- <-]|[_ Hk]]; [by left|].
  apply lookup_insert_Some in Hk as [[<- <-]|[_ Hk]]; [by right|].
  by rewrite lookup_empty in Hk.
Qed.

Lemma sample_store_ok : store_ok sample_store.
Proof.
  split.
  - vm_compute. reflexivity.
  - intros k entry [[_ ->]|[_ ->]]%sample_store_lookup; vm_compute;
      discriminate.
  - vm_compute. discriminate.
  - intros k [entry [[-> _]|[-> _]]%sample_store_lookup]; cbn [accessList sample_store].
    + apply list_elem_of_here.
    + apply list_elem_of_further, list_elem_of_here.
  - cbn [accessList sample_store]. apply NoDup_cons. split.
    + rewrite list_elem_of_singleton. discriminate.
    + apply NoDup_singleton.
Qed.

(** ** Eviction *)

(** The eviction test of the package: three payloads of 40 bytes under a
    ceiling of 100, set in the order [key1], [key2], [key3]; the first key
    is evicted, with its two files, and the other two stay. *)
Example eviction_of_the_first_key :
  let set key (s : Cache * Env) :=
    let r := Set_ (H := sample_lib) s.1 key sample_data sample_metadata s.2 in
    (r.1.2, r.2) in
  let s := set "key3" (set "key2" (set "key1"
             (empty_cache 3600 100, sample_env 5 ∅ None))) in
  index s.1 !! "key1" = None
  /\ is_Some (index s.1 !! "key2") /\ is_Some (index s.1 !! "key3")
  /\ accessList s.1 = ["key2"; "key3"]
  /\ currentBytes s.1 = 80
  /\ files s.2 !! "/c/key1" = None /\ files s.2 !! "/c/key1.meta" = None
  /\ files s.2 !! "/c/key3" = Some sample_data.
Proof. vm_compute. repeat split; eauto. Qed.

(** ** [Get] and [ReadData] *)

Lemma time_Now_eq (e : Env) : time_Now e = (clock e (ticks e), tick e).
Proof. reflexivity. Qed.

Lemma time_Since_eq (t : Z) (e : Env) :
  time_Since t e = (time_Sub (clock e (ticks e)) t, tick e).
Proof. reflexivity. Qed.

Lemma Get_eq (c : Cache) (key : string) (e : Env) :
  Get c key e
  = match index c !! key with
    | None => (None, false, c, e)
    | Some entry =>
        (Some entry,
         negb (time_Sub (clock e (ticks e)) (CreatedAt (EntryMetadata entry))
               >? ttl c),
         c, tick e)
    end.
Proof.
  unfold Get. destruct (index c !! key) as [entry|]; [|done].
  unfold bind. rewrite time_Since_eq. by destruct (_ >? _).
Qed.

Section ReadLemmas.
Context `{GoLib}.

Lemma saveMetadata_frame (c : Cache) (key : string) (md : Metadata) (e : Env) :
  (forall p, p <> filepath_Join (dir c) (key ++ ".meta") ->
     files (saveMetadata c key md e).2 !! p = files e !! p)
  /\ locked (saveMetadata c key md e).2 = locked e
  /\ clock (saveMetadata c key md e).2 = clock e
  /\ ticks (saveMetadata c key md e).2 = ticks e
  /\ upstream (saveMetadata c key md e).2 = upstream e
  /\ (forall mb, json_Marshal_Metadata md = Some mb ->
        locked e (filepath_Join (dir c) (key ++ ".meta")) = false ->
        (saveMetadata c key md e).1 = None
        /\ files (saveMetadata c key md e).2
             !! filepath_Join (dir c) (key ++ ".meta") = Some mb).
Proof.
  unfold saveMetadata, bind, ret.
  destruct (json_Marshal_Metadata md) as [mb|]; cbn [fst snd].
  - rewrite os_WriteFile_eq. cbn [fst snd files locked clock ticks upstream].
    split; [|split; [done|split; [done|split; [done|split; [done|]]]]].
    + intros p Hp. destruct (locked e _);
        [by rewrite lookup_partial_alter_ne|by rewrite lookup_insert_ne].
    + intros mb' [= <-] Hl. rewrite Hl. split; [done|]. apply lookup_insert_eq.
  - split; [done|]. do 4 (split; [done|]). intros mb' Hm. discriminate.
Qed.

(** [ReadData] of a key that has an entry whose artifact is on the disk. *)
Lemma ReadData_found (c : Cache) (key : string) (entry : CacheEntry)
    (data : list byte) (e : Env) :
  index c !! key = Some entry ->
  locked e (FilePath entry) = false ->
  FilePath entry <> filepath_Join (dir c) (key ++ ".meta") ->
  files e !! FilePath entry = Some data ->
  (ReadData c key e).1
  = (inl data, ReadData_store c key entry (clock e (ticks e))).
Proof.
  intros Hk Hl Hne Hf. unfold ReadData. rewrite Hk. unfold bind.
  rewrite time_Now_eq.
  fold (ReadData_store c key entry (clock e (ticks e))).
  set (c2 := ReadData_store c key entry (clock e (ticks e))).
  set (md := EntryMetadata (with_Metadata entry _)).
  destruct (saveMetadata_frame c2 key md (tick e))
    as (Hfr & Hlk & _ & _ & _ & _).
  destruct (saveMetadata c2 key md (tick e)) as [err e2]. cbn [fst snd] in *.
  assert (Hread : forall e3, files e3 = files e2 -> locked e3 = locked e2 ->
            (os_ReadFile (FilePath entry) e3).1 = ReadOk data).
  { intros e3 H3 H4. rewrite os_ReadFile_eq. cbn [fst].
    rewrite H4, Hlk. cbn [tick locked]. rewrite Hl, H3, Hfr by done.
    cbn [tick files]. by rewrite Hf. }
  destruct err as [msg|]; unfold log_Warn, ret; rewrite ?emit_eq;
    cbn [with_Metadata FilePath].
  - specialize (Hread
                  (mkEnv (clock e2) (ticks e2) (files e2) (locked e2)
                     (residue e2) (upstream e2)
                     (trace e2 ++ [EvLog "WARN" "failed to update metadata"]))
                  eq_refl eq_refl).
    destruct (os_ReadFile _ _) as [r e4]. cbn [fst] in Hread. by subst r.
  - specialize (Hread e2 eq_refl eq_refl).
    destruct (os_ReadFile _ _) as [r e4]. cbn [fst] in Hread. by subst r.
Qed.

End ReadLemmas.

(** ** [Set] followed by [Get] and [ReadData] *)

(** C9, as stated, fails.  A payload larger than the ceiling is evicted by
    the [Set] that stores it: the [Set] returns no error, and then [Get]
    finds nothing and [ReadData] fails.  And a metadata record whose
    [CreatedAt] is older than the TTL is stale at once: [Get] returns the
    entry with [false]. *)
Lemma Set_then_Get_not_fresh :
  (let r := Set_ (H := sample_lib) (empty_cache 3600 10) "k" sample_data
              sample_metadata (sample_env 5 ∅ None) in
   r.1.1 = Returned None
   /\ (Get r.1.2 "k" r.2).1.1 = (None, false)
   /\ (ReadData (H := sample_lib) r.1.2 "k" r.2).1.1
      = inr "cache entry not found")
  /\ (let r := Set_ (H := sample_lib) (empty_cache 3600 100) "k" sample_data
                 sample_metadata (sample_env 1000000 ∅ None) in
      r.1.1 = Returned None
      /\ (Get r.1.2 "k" r.2).1.1
         = (Some (mkCacheEntry "k" "/c/k" (mkMetadata 5 5 ∅ 200 40)), false)).
Proof. vm_compute. repeat split; reflexivity. Qed.

(** C9, amended.  On a consistent store, when the payload is not larger
    than the ceiling and the path of the artifact of the key is the path
    of no other file of the store, after a [Set] that returns no error
    [Get] returns the entry that [Set] built, whose [Size] is the length
    of the payload, with [is_fresh] true exactly when the [CreatedAt] of
    the metadata passed to [Set] is within the TTL of the time of the
    [Get]; and [ReadData] returns the payload. *)
Theorem Set_then_Get_ReadData `{GoLib} (c : Cache) (key : string)
    (data : list byte) (md : Metadata) (e : Env) (c' : Cache) (e' : Env) :
  store_ok c ->
  Z.of_nat (length data) <= maxBytes c ->
  total_size (index c) + Z.of_nat (length data) <= max_int64 ->
  paths_apart c key ->
  Set_ c key data md e = (Returned None, c', e') ->
  (Get c' key e').1.1
  = (Some (Set_entry c key data md),
     bool_decide (time_Sub (clock e' (ticks e')) (CreatedAt md) <= ttl c))
  /\ Size (EntryMetadata (Set_entry c key data md)) = Z.of_nat (length data)
  /\ (ReadData c' key e').1.1 = inl data.
Proof.
  intros Hok Hle Hfit (Hp1 & Hp2 & Hp3) Hset.
  destruct (Set_success _ _ _ _ _ _ _ Hset) as (mb & Hmb & Hl1 & Hl2 & Hc & He).
  pose proof (Set_inserted_store_ok c key data md Hok Hfit) as Hok2.
  destruct (evictLoop_evicted _ (Set_inserted c key data md)
              (Set_written c key data mb e) eq_refl (in_int64_total _ Hok2))
    as [victims Hev].
  fold (evictIfNeeded (Set_inserted c key data md)) in Hev.
  rewrite <- Hc in Hev.
  set (e3 := (evictIfNeeded (Set_inserted c key data md)
                (Set_written c key data mb e)).2) in *.
  pose proof (Set_keeps_key _ _ _ _ _ _ _ _ Hok Hle Hfit Hev) as Hkeep.
  destruct (Set_inserted_fields c key data md) as (Hi & _ & _ & Hd & Httl & _).
  destruct (ev_conf _ _ _ _ _ Hev) as (Hd' & Httl' & _).
  rewrite Hd in Hd'. rewrite Httl in Httl'.
  assert (Hidx : index c' !! key = Some (Set_entry c key data md)).
  { rewrite (ev_index _ _ _ _ _ Hev), decide_False by done.
    rewrite Hi. apply lookup_insert_eq. }
  split; [|split; [done|]].
  - rewrite Get_eq, Hidx. cbn [fst snd]. f_equal. rewrite Httl'.
    cbn [Set_entry EntryMetadata with_Size CreatedAt].
    rewrite Z.gtb_ltb. case_bool_decide as Hd0.
    + apply negb_true_iff, Z.ltb_ge. exact Hd0.
    + apply negb_false_iff, Z.ltb_lt. lia.
  - destruct (Set_saved_frame c' e3) as (Hsf & Hsl & _).
    destruct (Set_written_world c key data mb e) as (Hwl & _).
    destruct (ev_world _ _ _ _ _ Hev) as (_ & _ & Hel & _).
    rewrite (ReadData_found c' key (Set_entry c key data md) data e').
    + done.
    + done.
    + rewrite He, Hsl, Hel, Hwl. exact Hl1.
    + rewrite Hd'. exact Hp1.
    + rewrite He, Hsf by (by rewrite Hd').
      rewrite (ev_frame _ _ _ _ _ Hev).
      * rewrite Set_written_files by done.
        rewrite lookup_insert_ne by done. apply lookup_insert_eq.
      * intros k entry Hin Hk. rewrite Hi in Hk.
        assert (k <> key) as Hne by (intros ->; done).
        rewrite lookup_insert_ne in Hk by done.
        destruct (Hp3 k entry Hne Hk) as [H1 H2].
        cbn [Set_entry FilePath]. split; congruence.
Qed.

Lemma sample_paths_apart : paths_apart (H := sample_lib) sample_store "key3".
Proof.
  split; [vm_compute; discriminate|]. split; [vm_compute; discriminate|].
  intros k entry _ [[_ ->]|[_ ->]]%sample_store_lookup;
    split; vm_compute; discriminate.
Qed.

Lemma Set_then_Get_ReadData_witness :
  let r := Set_ (H := sample_lib) sample_store "key3" sample_data
             sample_metadata sample_world in
  (Get r.1.2 "key3" r.2).1.1
  = (Some (Set_entry (H := sample_lib) sample_store "key3" sample_data
             sample_metadata),
     bool_decide (time_Sub (clock r.2 (ticks r.2)) (CreatedAt sample_metadata)
                  <= ttl sample_store))
  /\ Size (EntryMetadata (Set_entry (H := sample_lib) sample_store "key3"
                            sample_data sample_metadata))
     = Z.of_nat (length sample_data)
  /\ (ReadData (H := sample_lib) r.1.2 "key3" r.2).1.1 = inl sample_data.
Proof.
  intros r.
  apply (Set_then_Get_ReadData (H := sample_lib) sample_store "key3"
           sample_data sample_metadata sample_world r.1.2 r.2).
  - exact sample_store_ok.
  - vm_compute. discriminate.
  - vm_compute. discriminate.
  - exact sample_paths_apart.
  - vm_compute. reflexivity.
Defined.

(** ** Freshness *)

(** C2. [Get] returns "not found" exactly when the key is not in the
    index.  When the key has an entry, [Get] returns it, with [is_fresh]
    true exactly when the time elapsed since [CreatedAt] (the [Duration]
    of [time.Since]) is at most the TTL; a stale entry is returned too,
    with [false].  For a TTL below the greatest [Duration] the elapsed
    time can be read as the exact difference of the two times. *)
Theorem Get_fresh_iff (c : Cache) (key : string) (e : Env) :
  ((Get c key e).1.1.1 = None <-> index c !! key = None)
  /\ ((Get c key e).1.1.1 = None -> (Get c key e).1.1.2 = false)
  /\ forall entry, index c !! key = Some entry ->
       let now := clock e (ticks e) in
       let created := CreatedAt (EntryMetadata entry) in
       (Get c key e).1.1.1 = Some entry
       /\ ((Get c key e).1.1.2 = true <-> time_Sub now created <= ttl c)
       /\ (ttl c < time_Sub now created ->
           (Get c key e).1.1 = (Some entry, false))
       /\ (min_int64 <= ttl c < max_int64 ->
           ((Get c key e).1.1.2 = true <-> now - created <= ttl c)).
Proof.
  rewrite Get_eq. destruct (index c !! key) as [entry|] eqn:Hk;
    cbn [fst snd].
  - split; [done|]. split; [done|]. intros ? [= <-].
    set (now := clock e (ticks e)).
    set (created := CreatedAt (EntryMetadata entry)).
    rewrite Z.gtb_ltb, negb_true_iff, Z.ltb_ge.
    split; [done|]. split; [done|]. split.
    + intros Hlt. f_equal. apply negb_false_iff, Z.ltb_lt. exact Hlt.
    + intros Httl. unfold time_Sub, min_int64, max_int64 in *.
      destruct (now - created <? - 2 ^ 63) eqn:H1;
        [apply Z.ltb_lt in H1; lia|apply Z.ltb_ge in H1].
      destruct (2 ^ 63 - 1 <? now - created) eqn:H2;
        [apply Z.ltb_lt in H2; lia|apply Z.ltb_ge in H2]. done.
  - split; [done|]. split; [done|]. intros ? [=].
Qed.

Lemma Get_fresh_iff_witness :
  let c := sample_avatars 3600 in
  let e := sample_env 5 ∅ None in
  let now := clock e (ticks e) in
  let created := CreatedAt (EntryMetadata sample_cached) in
  (Get c sample_key e).1.1.1 = Some sample_cached
  /\ ((Get c sample_key e).1.1.2 = true <-> time_Sub now created <= ttl c)
  /\ (ttl c < time_Sub now created ->
      (Get c sample_key e).1.1 = (Some sample_cached, false))
  /\ (min_int64 <= ttl c < max_int64 ->
      ((Get c sample_key e).1.1.2 = true <-> now - created <= ttl c)).
Proof.
  intros c e.
  apply (proj2 (proj2 (Get_fresh_iff c sample_key e)) sample_cached).
  vm_compute. reflexivity.
Defined.

(** The TTL boundary of the package tests: an entry created at [T] under
    a TTL [D] is fresh at [T + D / 2] and stale, though returned, at
    [T + 2 D]. *)
Example Get_ttl_boundary :
  let c :=
    mkCache "/c" 100 1000 (<["k" := sample_entry "k" 9]> ∅) ["k"] 9 false in
  (Get c "k" (sample_env 50 ∅ None)).1.1 = (Some (sample_entry "k" 9), true)
  /\ (Get c "k" (sample_env 200 ∅ None)).1.1
     = (Some (sample_entry "k" 9), false).
Proof. vm_compute. split; reflexivity. Qed.

Section Frames.
Context `{GoLib}.

Lemma ReadData_store_eq (c : Cache) (key : string) (entry : CacheEntry)
    (e : Env) :
  index c !! key = Some entry ->
  (ReadData c key e).1.2 = ReadData_store c key entry (clock e (ticks e)).
Proof.
  intros Hk. unfold ReadData. rewrite Hk. unfold bind. rewrite time_Now_eq.
  fold (ReadData_store c key entry (clock e (ticks e))).
  destruct (saveMetadata _ _ _ _) as [err e2].
  destruct err; unfold log_Warn, ret; rewrite ?emit_eq;
    destruct (os_ReadFile _ _) as [[] e3]; done.
Qed.

Lemma CheckConditional_store (c : Cache) (key : string) (req : Request)
    (e : Env) :
  (CheckConditional c key req e).1.2 = c
  /\ files (CheckConditional c key req e).2 = files e
  /\ trace (CheckConditional c key req e).2 = trace e.
Proof.
  unfold CheckConditional. destruct (index c !! key) as [entry|]; [|done].
  unfold bind. rewrite time_Since_eq.
  repeat (match goal with
          | |- context [if ?b then _ else _] => destruct b
          | |- context [match ?o with Some _ => _ | None => _ end] =>
              destruct o
          end; try done).
Qed.

(** C10. [Get] leaves the store as it was: the index, the recency list,
    the timestamps of the entries and the running total; it does not
    touch the disk and logs nothing; so the eviction that follows a [Get]
    is the eviction that would have run without it.  [CheckConditional]
    and [GetMetadata] leave the store as it was too.  [ReadData] of a
    key that has an entry moves the key to the tail of the recency list
    and sets the entry's [LastAccessedAt] to the time of the call, and
    changes nothing else in the index or in the total. *)
Theorem Get_frame (c : Cache) (key : string) (e : Env) :
  (Get c key e).1.2 = c
  /\ files (Get c key e).2 = files e
  /\ trace (Get c key e).2 = trace e
  /\ (forall e', evictIfNeeded (Get c key e).1.2 e' = evictIfNeeded c e')
  /\ (forall req, (CheckConditional c key req e).1.2 = c)
  /\ (GetMetadata c key e).1.2 = c
  /\ forall entry, index c !! key = Some entry ->
       let c' := (ReadData c key e).1.2 in
       accessList c' = (remove_first key (accessList c) ++ [key])%list
       /\ index c' !! key
          = Some (with_Metadata entry
                    (with_LastAccessedAt (EntryMetadata entry)
                       (clock e (ticks e))))
       /\ (forall k, k <> key -> index c' !! k = index c !! k)
       /\ currentBytes c' = currentBytes c.
Proof.
  assert (Hget : (Get c key e).1.2 = c
                 /\ files (Get c key e).2 = files e
                 /\ trace (Get c key e).2 = trace e).
  { rewrite Get_eq. by destruct (index c !! key). }
  destruct Hget as (Hc & Hf & Ht). rewrite Hc.
  split; [done|]. split; [done|]. split; [done|]. split; [done|].
  split; [intros req; apply CheckConditional_store|].
  split; [unfold GetMetadata; by destruct (index c !! key)|].
  intros entry Hk c'. unfold c'. rewrite (ReadData_store_eq _ _ _ _ Hk).
  unfold ReadData_store. cbn [updateAccessList with_index with_accessList
    accessList index currentBytes].
  split; [done|]. split; [apply lookup_insert_eq|]. split; [|done].
  intros k Hne. by rewrite lookup_insert_ne.
Qed.

End Frames.

Lemma Get_frame_witness :
  let c := sample_avatars 3600 in
  let e := sample_env 5 (<["/c/" ++ sample_key := sample_bytes]> ∅) None in
  let c' := (ReadData (H := sample_lib) c sample_key e).1.2 in
  accessList c' = (remove_first sample_key (accessList c) ++ [sample_key])%list
  /\ index c' !! sample_key
     = Some (with_Metadata sample_cached
               (with_LastAccessedAt (EntryMetadata sample_cached)
                  (clock e (ticks e))))
  /\ (forall k, k <> sample_key -> index c' !! k = index c !! k)
  /\ currentBytes c' = currentBytes c.
Proof.
  intros c e.
  apply (proj2 (proj2 (proj2 (proj2 (proj2 (proj2
           (Get_frame (H := sample_lib) c sample_key e)))))) sample_cached).
  vm_compute. reflexivity.
Defined.

(** ** The running total *)

Lemma total_size_insert_same (idx : gmap string CacheEntry) k old new :
  idx !! k = Some old ->
  Size (EntryMetadata new) = Size (EntryMetadata old) ->
  total_size (<[k := new]> idx) = total_size idx.
Proof. intros Hk Hs. rewrite total_size_insert, Hk. lia. Qed.

Lemma total_ok_in_int64 (c : Cache) : total_ok c -> in_int64 (currentBytes c).
Proof. unfold total_ok. intros ->. apply wrap64_range. Qed.

Section TotalPreserved.
Context `{GoLib}.

Lemma evictIfNeeded_total_ok (c : Cache) (e : Env) :
  total_ok c -> total_ok (evictIfNeeded c e).1.
Proof.
  intros Hc.
  destruct (evictLoop_evicted _ c e eq_refl (total_ok_in_int64 _ Hc))
    as [victims Hev].
  by apply (evicted_total_ok _ _ _ _ _ Hc Hev).
Qed.

(** [Set] keeps the total equal to the sum, whether it fails or not. *)
Lemma Set_total_ok (c : Cache) (key : string) (data : list byte)
    (md : Metadata) (e : Env) :
  total_ok c -> total_ok (Set_ c key data md e).1.2.
Proof.
  intros Hc. rewrite Set_eq.
  destruct (locked e (filepath_Join (dir c) key)); [done|].
  destruct (json_Marshal_Metadata _) as [mb|]; [|done].
  destruct (locked e (filepath_Join (dir c) (key ++ ".meta"))); [done|].
  destruct (nilIndex c); [done|].
  cbn [fst snd]. apply evictIfNeeded_total_ok.
  by apply Set_inserted_total_ok.
Qed.

Lemma ReadData_total_ok (c : Cache) (key : string) (e : Env) :
  total_ok c -> total_ok (ReadData c key e).1.2.
Proof.
  intros Hc. destruct (index c !! key) as [entry|] eqn:Hk.
  - rewrite (ReadData_store_eq _ _ _ _ Hk). unfold total_ok, ReadData_store.
    cbn [updateAccessList with_index with_accessList index currentBytes].
    by rewrite (total_size_insert_same _ _ entry).
  - unfold ReadData. by rewrite Hk.
Qed.

Lemma UpdateMetadata_store (c : Cache) (key : string) (md : Metadata)
    (e : Env) :
  (UpdateMetadata c key md e).1.2
  = match index c !! key with
    | Some entry => with_index c (<[key := with_Metadata entry md]> (index c))
    | None => c
    end.
Proof.
  unfold UpdateMetadata. destruct (index c !! key) as [entry|]; [|done].
  unfold bind. by destruct (saveMetadata _ _ _ _).
Qed.

(** [UpdateMetadata] keeps the total equal to the sum when the record it
    is given carries the [Size] of the stored one. *)
Lemma UpdateMetadata_total_ok (c : Cache) (key : string) (md : Metadata)
    (e : Env) :
  total_ok c ->
  (forall entry, index c !! key = Some entry ->
     Size md = Size (EntryMetadata entry)) ->
  total_ok (UpdateMetadata c key md e).1.2.
Proof.
  intros Hc Hsz. rewrite UpdateMetadata_store.
  destruct (index c !! key) as [entry|] eqn:Hk; [|done].
  unfold total_ok. cbn [with_index index currentBytes].
  rewrite (total_size_insert_same _ _ entry); [done..|]. by apply Hsz.
Qed.

(** The consistent states are closed under the methods: the empty store
    is consistent, [Set] keeps a store consistent ([Set_store_ok]), and so
    do [ReadData] and an [UpdateMetadata] that keeps the [Size]. *)
Lemma empty_store_ok (d : string) (t m : Z) (b : bool) :
  store_ok (mkCache d t m ∅ [] 0 b).
Proof.
  split; cbn [index accessList currentBytes].
  - by rewrite total_size_empty.
  - intros k entry Hk. by rewrite lookup_empty in Hk.
  - rewrite total_size_empty. vm_compute. discriminate.
  - intros k [entry Hk]. by rewrite lookup_empty in Hk.
  - constructor.
Qed.

Lemma replace_store_ok (c : Cache) (key : string) (old new : CacheEntry) :
  store_ok c -> index c !! key = Some old ->
  Size (EntryMetadata new) = Size (EntryMetadata old) ->
  store_ok (with_index c (<[key := new]> (index c))).
Proof.
  intros [Ht Hs Hr Hl Hn] Hk Hsz. split; cbn [with_index index accessList
    currentBytes]; rewrite ?(total_size_insert_same _ _ old) by done;
    try done.
  - intros k entry. rewrite lookup_insert.
    destruct (decide (key = k)) as [->|Hne]; [|apply Hs].
    intros [= <-]. rewrite Hsz. by apply (Hs k).
  - intros k. rewrite lookup_insert.
    destruct (decide (key = k)) as [->|Hne]; [|apply Hl].
    intros _. apply Hl. eauto.
Qed.

Lemma ReadData_store_ok (c : Cache) (key : string) (e : Env) :
  store_ok c -> store_ok (ReadData c key e).1.2.
Proof.
  intros Hc. destruct (index c !! key) as [entry|] eqn:Hk.
  - rewrite (ReadData_store_eq _ _ _ _ Hk). unfold ReadData_store.
    set (entry' := with_Metadata entry _).
    pose proof (replace_store_ok c key entry entry' Hc Hk eq_refl)
      as [Ht Hs Hr Hl Hn].
    split; try done.
    + intros k Hin. apply updateAccessList_elem. right. by apply Hl.
    + by apply updateAccessList_NoDup.
  - unfold ReadData. by rewrite Hk.
Qed.

Lemma UpdateMetadata_store_ok (c : Cache) (key : string) (md : Metadata)
    (e : Env) :
  store_ok c ->
  (forall entry, index c !! key = Some entry ->
     Size md = Size (EntryMetadata entry)) ->
  store_ok (UpdateMetadata c key md e).1.2.
Proof.
  intros Hc Hsz. rewrite UpdateMetadata_store.
  destruct (index c !! key) as [entry|] eqn:Hk; [|done].
  apply (replace_store_ok c key entry); [done..|]. by apply Hsz.
Qed.

End TotalPreserved.

(** C1.  [UpdateMetadata] does not keep the running total equal to the sum
    of the sizes.  On a store holding one entry of 40 bytes, put there by
    [Set], an [UpdateMetadata] with a record whose [Size] is 0 succeeds
    and leaves the total at 40 over an index whose sizes sum to 0. *)
Theorem UpdateMetadata_breaks_total :
  let r := Set_ (H := sample_lib) (empty_cache 3600 100) "k" sample_data
             sample_metadata (sample_env 5 ∅ None) in
  let u := UpdateMetadata (H := sample_lib) r.1.2 "k" sample_metadata r.2 in
  r.1.1 = Returned None /\ total_ok r.1.2
  /\ u.1.1 = None
  /\ currentBytes u.1.2 = 40 /\ total_size (index u.1.2) = 0
  /\ ~ total_ok u.1.2.
Proof.
  vm_compute. repeat split; try reflexivity. intros Heq. discriminate Heq.
Qed.

(** ** Eviction in the order of use *)

Lemma filter_ne_id (key : string) (l : list string) :
  key ∉ l -> filter (fun k => k <> key) l = l.
Proof.
  induction l as [|a l IH]; [done|]. intros [Hne Hn]%not_elem_of_cons.
  rewrite filter_cons, decide_True by congruence. by rewrite IH.
Qed.

(** On a list without duplicates the loop of [updateAccessList] removes
    the key. *)
Lemma remove_first_filter (key : string) (l : list string) :
  NoDup l -> remove_first key l = filter (fun k => k <> key) l.
Proof.
  induction 1 as [|a l Ha Hl IH]; [done|]. cbn [remove_first].
  rewrite filter_cons. destruct (String.eqb_spec a key) as [->|Hne].
  - rewrite decide_False by (by intros ?). by rewrite filter_ne_id.
  - rewrite decide_True by done. by rewrite IH.
Qed.

(** C5, as stated, fails: the ceiling can be negative (it is any [int64]
    that [MAX_CACHE_BYTES] parses to).  On an empty store with ceiling
    [-1], a [Set] of an empty payload evicts the entry it stored and
    returns with a total of 0, one byte over the ceiling, more than the
    size, 0, of the entry just stored. *)
Lemma eviction_negative_ceiling :
  let r := Set_ (H := sample_lib) (empty_cache 3600 (-1)) "k" []
             sample_metadata (sample_env 5 ∅ None) in
  store_ok (empty_cache 3600 (-1))
  /\ r.1.1 = Returned None
  /\ index r.1.2 = ∅
  /\ currentBytes r.1.2 - maxBytes r.1.2 = 1
  /\ Z.of_nat (length (@nil byte)) = 0.
Proof.
  split; [apply empty_store_ok|]. vm_compute. repeat split; reflexivity.
Qed.

(** C5, amended.  Eviction takes its victims from the head of the recency
    list, in the order of the list ([ev_order]); each victim that has an
    entry loses its artifact and its metadata file ([ev_removed]), its
    size is subtracted from the running total ([ev_total]) and it leaves
    the index ([ev_index]); the loop stops when the total is at or under
    the ceiling or the list is empty ([ev_stop]); before each victim was
    taken the total was over the ceiling ([ev_needed]), so that a store
    at or under its ceiling is left as it is.  The list is in the order
    of use: on a consistent store a [ReadData] and a [Set] put their key
    last and leave the other keys in their order, so the victims of the
    eviction of a [Set] are the keys used longest ago, and the store is
    consistent again.  After a [Set] on a consistent store with a ceiling
    that is not negative, the total exceeds the ceiling by at most the
    size of the entry just stored. *)
Theorem eviction_lru `{GoLib} (c : Cache) (e : Env) :
  in_int64 (currentBytes c) ->
  (exists victims,
      evicted victims c e (evictIfNeeded c e).1 (evictIfNeeded c e).2)
  /\ (currentBytes c <= maxBytes c -> evictIfNeeded c e = (c, e))
  /\ (store_ok c ->
      (forall key, is_Some (index c !! key) ->
         accessList (ReadData c key e).1.2
         = (filter (fun k => k <> key) (accessList c) ++ [key])%list
         /\ store_ok (ReadData c key e).1.2)
      /\ forall key data md c' e',
           total_size (index c) + Z.of_nat (length data) <= max_int64 ->
           Set_ c key data md e = (Returned None, c', e') ->
           store_ok c'
           /\ (exists victims,
                 (victims ++ accessList c')%list
                 = (filter (fun k => k <> key) (accessList c) ++ [key])%list
                 /\ (forall k,
                       index c' !! k
                       = if decide (k ∈ victims) then None
                         else <[key := Set_entry c key data md]> (index c) !! k)
                 /\ (Z.of_nat (length data) <= maxBytes c -> key ∉ victims))
           /\ (0 <= maxBytes c ->
               currentBytes c' - maxBytes c' <= Z.of_nat (length data))).
Proof.
  intros Hr. split; [|split].
  - by apply evictLoop_evicted.
  - intros Hle. unfold evictIfNeeded.
    assert (Hgt : (currentBytes c >? maxBytes c) = false)
      by (rewrite Z.gtb_ltb; by apply Z.ltb_ge).
    destruct (accessList c); simpl; by rewrite Hgt.
  - intros Hok. split.
    + intros key [entry Hk]. split; [|by apply ReadData_store_ok].
      rewrite (ReadData_store_eq _ _ _ _ Hk). unfold ReadData_store.
      cbn [updateAccessList with_index with_accessList accessList].
      by rewrite (remove_first_filter _ _ (ok_nodup _ Hok)).
    + intros key data md c' e' Hfit Hset.
      destruct (Set_store_ok _ _ _ _ _ _ _ Hok Hfit Hset) as [Hok' Hle].
      split; [done|]. split; [|intros Hmax; specialize (Hle Hmax); lia].
      destruct (Set_success _ _ _ _ _ _ _ Hset) as (mb & _ & _ & _ & Hc & _).
      pose proof (Set_inserted_store_ok c key data md Hok Hfit) as Hok2.
      destruct (evictLoop_evicted _ (Set_inserted c key data md)
                  (Set_written c key data mb e) eq_refl
                  (in_int64_total _ Hok2)) as [victims Hev].
      fold (evictIfNeeded (Set_inserted c key data md)) in Hev.
      rewrite <- Hc in Hev.
      destruct (Set_inserted_fields c key data md) as (Hi & Ha & _).
      exists victims. split; [|split].
      * rewrite <- (ev_order _ _ _ _ _ Hev), Ha.
        by rewrite (remove_first_filter _ _ (ok_nodup _ Hok)).
      * intros k. by rewrite (ev_index _ _ _ _ _ Hev), Hi.
      * intros Hsize.
        exact (Set_keeps_key _ _ _ _ _ _ _ _ Hok Hsize Hfit Hev).
Qed.

Lemma eviction_lru_witness :
  let r := Set_ (H := sample_lib) sample_store "key3" sample_data
             sample_metadata sample_world in
  in_int64 (currentBytes sample_store)
  /\ (exists victims,
        evicted victims sample_store sample_world
          (evictIfNeeded sample_store sample_world).1
          (evictIfNeeded sample_store sample_world).2)
  /\ store_ok r.1.2
  /\ (exists victims,
        (victims ++ accessList r.1.2)%list
        = (filter (fun k => k <> "key3") (accessList sample_store)
           ++ ["key3"])%list
        /\ (forall k,
              index r.1.2 !! k
              = if decide (k ∈ victims) then None
                else <["key3" := Set_entry (H := sample_lib) sample_store
                                   "key3" sample_data sample_metadata]>
                       (index sample_store) !! k)
        /\ (Z.of_nat (length sample_data) <= maxBytes sample_store ->
            "key3" ∉ victims))
  /\ (0 <= maxBytes sample_store ->
      currentBytes r.1.2 - maxBytes r.1.2 <= Z.of_nat (length sample_data)).
Proof.
  intros r.
  assert (Hr : in_int64 (currentBytes sample_store))
    by (vm_compute; split; discriminate).
  destruct (eviction_lru (H := sample_lib) sample_store sample_world Hr)
    as (Hev & _ & Hset).
  split; [exact Hr|]. split; [exact Hev|].
  apply (proj2 (Hset sample_store_ok) "key3" sample_data sample_metadata
           r.1.2 r.2).
  - vm_compute. discriminate.
  - vm_compute. reflexivity.
Defined.

(** ** Construction *)

(** The entries of a decoded map are all there exactly when the map is
    the image of a map of entries. *)
Lemma nonnil_entries_fmap (idx : gmap string CacheEntry) :
  nonnil_entries (Some <$> idx) = Some idx.
Proof.
  unfold nonnil_entries. rewrite decide_True.
  - f_equal. apply map_eq. intros k. rewrite lookup_omap, lookup_fmap.
    by destruct (idx !! k).
  - apply map_Forall_lookup. intros k v. rewrite lookup_fmap.
    destruct (idx !! k); intros [= <-]. eauto.
Qed.

Lemma nonnil_entries_Some (entries : gmap string (option CacheEntry))
    (idx : gmap string CacheEntry) :
  nonnil_entries entries = Some idx <-> entries = Some <$> idx.
Proof.
  split; [|intros ->; apply nonnil_entries_fmap].
  unfold nonnil_entries. destruct (decide _) as [Hall|]; [|done].
  intros [= <-]. apply map_eq. intros k. rewrite lookup_fmap, lookup_omap.
  destruct (entries !! k) as [v|] eqn:Hk; [|done].
  destruct (proj1 (map_Forall_lookup _ _) Hall k v Hk) as [entry ->]. done.
Qed.


(** [New], by cases on the directory and on the index document. *)
Lemma New_eq `{GoLib} (d : string) (t m : Z) (e : Env) :
  let ip := filepath_Join d "index.json" in
  let warning := EvLog "WARN" "failed to load cache index, starting fresh" in
  let empty := mkCache d t m ∅ [] 0 false in
  New d t m e
  = if locked e d then (Returned None, traced e [EvMkdirAll d])
    else if locked e ip
    then (Returned (Some empty),
          traced e [EvMkdirAll d; EvReadFile ip; warning])
    else match files e !! ip with
         | None =>
             (Returned (Some empty), traced e [EvMkdirAll d; EvReadFile ip])
         | Some data =>
             match json_Unmarshal_Index data with
             | None =>
                 (Returned (Some empty),
                  traced e [EvMkdirAll d; EvReadFile ip; warning])
             | Some doc =>
                 (match Entries doc with
                  | None =>
                      Returned
                        (Some (mkCache d t m ∅ (AccessList doc) 0 true))
                  | Some entries =>
                      match nonnil_entries entries with
                      | None => Panicked
                      | Some idx =>
                          Returned
                            (Some (mkCache d t m idx (AccessList doc)
                                     (sum_sizes 0 idx) false))
                      end
                  end,
                  traced e [EvMkdirAll d; EvReadFile ip])
             end
         end.
Proof.
  intros ip warning empty.
  unfold New, bind, os_MkdirAll, loadIndex, bind, log_Warn, ret, traced.
  rewrite emit_eq. cbn [fst snd locked].
  destruct (locked e d); cbn [negb]; [done|].
  cbn [dir]. fold ip. rewrite os_ReadFile_eq.
  cbn [fst snd locked files trace clock ticks upstream residue].
  destruct (locked e ip);
    [rewrite ?emit_eq; cbn; by rewrite <- ?app_assoc|].
  destruct (files e !! ip) as [data|];
    [|rewrite ?emit_eq; cbn; by rewrite <- ?app_assoc].
  destruct (json_Unmarshal_Index data) as [doc|];
    [|rewrite ?emit_eq; cbn; by rewrite <- ?app_assoc].
  destruct (Entries doc) as [entries|];
    [|rewrite ?emit_eq; cbn; by rewrite <- ?app_assoc].
  destruct (nonnil_entries entries) as [idx|];
    rewrite ?emit_eq; cbn; by rewrite <- ?app_assoc.
Qed.



Lemma GenerateKey_injective_witness :
  let q1 : gmap string string := <["s" := "80"]> ∅ in
  let q2 : gmap string string := <["s" := "100"]> ∅ in
  canonical_range ["s"] "/avatar/test" q1 <> canonical_range ["s"] "/avatar/test" q2
  /\ (GenerateKey_range (H := sample_lib) ["s"] "/avatar/test" q1
      = GenerateKey_range (H := sample_lib) ["s"] "/avatar/test" q2 ->
      digest_collision (H := sample_lib)
        (canonical_range ["s"] "/avatar/test" q1)
        (canonical_range ["s"] "/avatar/test" q2)).
Proof.
  intros q1 q2.
  assert (Hfree : forall v, has_char "?"%char v = false ->
            separator_free (<["s" := v]> ∅)).
  { intros v Hv k w Hk.
    apply lookup_insert_Some in Hk as [[<- <-]|[_ Hk]]; [done|].
    by rewrite lookup_empty in Hk. }
  apply (GenerateKey_injective (H := sample_lib) ["s"] ["s"]
           "/avatar/test" "/avatar/test" q1 q2).
  - vm_compute. reflexivity.
  - vm_compute. reflexivity.
  - reflexivity.
  - reflexivity.
  - by apply Hfree.
  - by apply Hfree.
  - intros Heq. apply (f_equal snd) in Heq. cbn [snd] in Heq.
    apply (f_equal (fun q : gmap string string => q !! "s")) in Heq.
    unfold q1, q2 in Heq. rewrite !lookup_insert_eq in Heq. discriminate.
Defined.

(** ** The client's conditional request *)

Section Conditional.
Context `{GoLib}.

Lemma CheckConditional_true_iff (c : Cache) (key : string) (req : Request)
    (e : Env) :
  http_ParseTime "" = None ->
  (CheckConditional c key req e).1.1 = true
  <-> exists entry,
        index c !! key = Some entry
        /\ time_Sub (clock e (ticks e)) (CreatedAt (EntryMetadata entry))
           <= ttl c
        /\ validators_match entry req.
Proof.
  intros Hparse. destruct (index c !! key) as [entry|] eqn:Hk.
  2: { unfold CheckConditional. rewrite Hk. split; [done|].
       intros (? & [=] & _). }
  transitivity
    (time_Sub (clock e (ticks e)) (CreatedAt (EntryMetadata entry)) <= ttl c
     /\ validators_match entry req).
  2: { split.
       - intros [? ?]. by exists entry.
       - by intros (? & [= <-] & ? & ?). }
  unfold CheckConditional, validators_match. rewrite Hk.
  unfold bind, ret. rewrite time_Since_eq.
  set (since := time_Sub _ _).
  set (inm := Header_Get (ReqHeader req) "If-None-Match").
  set (ims := Header_Get (ReqHeader req) "If-Modified-Since").
  set (etag := map_get (Headers (EntryMetadata entry)) "ETag").
  set (lm := map_get (Headers (EntryMetadata entry)) "Last-Modified").
  rewrite Z.gtb_ltb.
  destruct (ttl c <? since) eqn:Hs.
  { apply Z.ltb_lt in Hs. split; [done|]. intros [Hle _]. lia. }
  apply Z.ltb_ge in Hs.
  assert (Hetag : negb (inm =? "")%string && (etag =? inm)%string = true
                  <-> inm <> "" /\ etag = inm).
  { rewrite andb_true_iff, negb_true_iff, String.eqb_neq, String.eqb_eq.
    done. }
  destruct (negb (inm =? "")%string && (etag =? inm)%string) eqn:He.
  { split; [|done]. intros _. split; [done|]. left. by apply Hetag. }
  assert (Hno : ~ (inm <> "" /\ etag = inm)) by (rewrite <- Hetag; done).
  assert (Hlm : forall b : bool,
    (b = true <-> exists t lmt, http_ParseTime ims = Some t
                    /\ http_ParseTime lm = Some lmt /\ lmt <= t) ->
    b = true
    <-> since <= ttl c
        /\ ((inm <> "" /\ etag = inm)
            \/ exists t lmt, http_ParseTime ims = Some t
                  /\ http_ParseTime lm = Some lmt /\ lmt <= t)).
  { intros b Hb. rewrite Hb. split.
    - intros Hm. split; [done|]. by right.
    - intros (_ & [Hm|Hm]); [by destruct Hno|done]. }
  destruct (String.eqb_spec ims "") as [Hims|Hims]; cbn [negb fst].
  { apply Hlm. split; [done|]. intros (t & _ & Ht & _).
    rewrite Hims, Hparse in Ht. done. }
  destruct (http_ParseTime ims) as [t|] eqn:Ht.
  2: { apply Hlm. split; [done|]. by intros (? & ? & [=] & _). }
  destruct (String.eqb_spec lm "") as [Hlm0|Hlm0]; cbn [negb fst].
  { apply Hlm. split; [done|]. intros (? & lmt & _ & Hl & _).
    rewrite Hlm0, Hparse in Hl. done. }
  destruct (http_ParseTime lm) as [lmt|] eqn:Hl.
  2: { apply Hlm. split; [done|]. by intros (? & ? & _ & [=] & _). }
  rewrite Z.gtb_ltb. destruct (t <? lmt) eqn:Hcmp; cbn [negb fst].
  - apply Z.ltb_lt in Hcmp. apply Hlm. split; [done|].
    intros (? & ? & [= <-] & [= <-] & Hle). lia.
  - apply Z.ltb_ge in Hcmp. apply Hlm. split; [|done]. intros _.
    by exists t, lmt.
Qed.

End Conditional.

Section ClientConditional.
Context `{GoLib}.

Lemma checkAccessControl_writer (h : Handler) (w : ResponseWriter)
    (r : Request) :
  Code (checkAccessControl h w r).2 = Code w
  /\ Body (checkAccessControl h w r).2 = Body w.
Proof.
  unfold checkAccessControl.
  repeat (match goal with
          | |- context [if ?b then _ else _] => destruct b
          end; try done).
Qed.

(** C3. [CheckConditional] returns true exactly when the key has an
    entry, the entry's age is within the TTL and the validators match:
    the request's [If-None-Match] value is the stored [ETag], byte for
    byte, or its [If-Modified-Since] parses as a time and the stored
    [Last-Modified] parses as a time not after it.  When it returns true
    for an admitted request, the handler answers 304 with no body, leaves
    the store and the disk as they were, and the only thing it does to
    the world is to log the request: no upstream request is sent and no
    file is read. *)
Theorem CheckConditional_304 (h : Handler) (c : Cache) (r : Request)
    (e : Env) :
  http_ParseTime "" = None ->
  (forall key e1,
     (CheckConditional c key r e1).1.1 = true
     <-> exists entry,
           index c !! key = Some entry
           /\ time_Sub (clock e1 (ticks e1)) (CreatedAt (EntryMetadata entry))
              <= ttl c
           /\ validators_match entry r)
  /\ (admitted h r ->
      (CheckConditional c (request_key r) r (tick (tick e))).1.1 = true ->
      let res := ServeHTTP h c new_ResponseWriter r e in
      (exists w, res.1.1 = Returned w /\ Code w = Some 304 /\ Body w = [])
      /\ res.1.2 = c
      /\ files res.2 = files e
      /\ exists d id,
           trace res.2
           = (trace e ++ [EvRequest (Method r) (URLPath r) 304 d id])%list).
Proof.
  intros Hparse. split.
  { intros key e1. by apply CheckConditional_true_iff. }
  intros (Hm & Hac & Hh) Hcond res. unfold res, ServeHTTP, bind.
  rewrite time_Now_eq. rewrite time_Now_eq.
  apply String.eqb_neq in Hm. rewrite Hm.
  destruct (checkAccessControl_writer h new_ResponseWriter r) as [Hcode Hbody].
  destruct (checkAccessControl h new_ResponseWriter r) as [ok w1].
  cbn [fst snd] in Hac, Hcode, Hbody. subst ok. cbn [negb].
  fold (request_hash r). apply String.eqb_neq in Hh. rewrite Hh.
  fold (request_key r).
  destruct (CheckConditional_store c (request_key r) r (tick (tick e)))
    as (Hc & Hf & Ht).
  destruct (CheckConditional c (request_key r) r (tick (tick e)))
    as [[cond c1] e1].
  cbn [fst snd] in *. subst cond c1.
  unfold LogRequest, bind. rewrite time_Since_eq, emit_eq. cbn.
  unfold w_WriteHeader. rewrite Hcode. cbn. rewrite Hf, Ht. cbn.
  split; [eexists; split; [reflexivity|]; cbn; by rewrite Hbody|].
  repeat split; try done. eauto.
Qed.

End ClientConditional.

Lemma CheckConditional_304_witness :
  let res := ServeHTTP (H := sample_lib) sample_handler (sample_avatars 3600)
               new_ResponseWriter sample_request (sample_env 5 ∅ None) in
  (exists w, res.1.1 = Returned w /\ Code w = Some 304 /\ Body w = [])
  /\ res.1.2 = sample_avatars 3600
  /\ files res.2 = files (sample_env 5 ∅ None)
  /\ exists d id,
       trace res.2
       = (trace (sample_env 5 ∅ None)
          ++ [EvRequest (Method sample_request) (URLPath sample_request)
                304 d id])%list.
Proof.
  apply (proj2 (CheckConditional_304 (H := sample_lib) sample_handler
                  (sample_avatars 3600) sample_request (sample_env 5 ∅ None)
                  eq_refl)).
  - vm_compute. repeat split; discriminate.
  - vm_compute. reflexivity.
Defined.

(** The conditional-match test of the package: against a fresh entry with
    the entity tag [abc123], a request with that tag is answered by the
    check, a request with another tag or with the tag in another case is
    not, and a request with an [If-Modified-Since] not before the stored
    [Last-Modified] is. *)
Example CheckConditional_cases :
  let check hdr :=
    (CheckConditional (H := sample_lib) (sample_avatars 3600) sample_key
       (mkRequest "GET" "/avatar/abc" ∅ hdr) (sample_env 5 ∅ None)).1.1 in
  check (<["If-None-Match" := "abc123"]> ∅) = true
  /\ check (<["If-None-Match" := "xyz789"]> ∅) = false
  /\ check (<["If-None-Match" := "ABC123"]> ∅) = false
  /\ check (<["If-Modified-Since" := "100"]> ∅) = true
  /\ check (<["If-Modified-Since" := "99"]> ∅) = false
  /\ check ∅ = false.
Proof. vm_compute. repeat split; reflexivity. Qed.

(** ** Serving from the store *)

Section Serving.
Context `{GoLib}.

(** The access control answers the same on every writer, and leaves the
    connection of the writer as it is. *)
Lemma checkAccessControl_fst (h : Handler) (w w' : ResponseWriter)
    (r : Request) :
  (checkAccessControl h w r).1 = (checkAccessControl h w' r).1.
Proof.
  unfold checkAccessControl.
  repeat (match goal with
          | |- context [if ?b then _ else _] => destruct b
          end; try done).
Qed.

Lemma checkAccessControl_Refuses (h : Handler) (w : ResponseWriter)
    (r : Request) :
  Refuses (checkAccessControl h w r).2 = Refuses w.
Proof.
  unfold checkAccessControl.
  repeat (match goal with
          | |- context [if ?b then _ else _] => destruct b
          end; try done).
Qed.

(** Replaying the stored headers: the status and the body of the writer
    are not touched, and a stored header whose canonical name is the
    canonical name of no other stored header is in the response. *)
Lemma w_set_all_writer (w : ResponseWriter) (headers : gmap string string) :
  Code (w_set_all w headers) = Code w
  /\ Body (w_set_all w headers) = Body w
  /\ forall k v,
       headers !! k = Some v ->
       (forall k', is_Some (headers !! k') ->
          http_CanonicalHeaderKey k' = http_CanonicalHeaderKey k -> k' = k) ->
       WHeader (w_set_all w headers) !! http_CanonicalHeaderKey k = Some v.
Proof.
  unfold w_set_all.
  apply (map_fold_weak_ind
           (fun (r : ResponseWriter) (m : gmap string string) =>
              Code r = Code w /\ Body r = Body w
              /\ forall k v, m !! k = Some v ->
                   (forall k', is_Some (m !! k') ->
                      http_CanonicalHeaderKey k' = http_CanonicalHeaderKey k ->
                      k' = k) ->
                   WHeader r !! http_CanonicalHeaderKey k = Some v)).
  - split; [done|]. split; [done|]. intros k v Hk. by rewrite lookup_empty in Hk.
  - intros i x m r Hi (Hc & Hb & IH). split; [done|]. split; [done|].
    intros k v Hk Hinj. cbn [w_Header_Set WHeader]. unfold Header_Set.
    destruct (decide (i = k)) as [->|Hne].
    + rewrite lookup_insert_eq in Hk. injection Hk as ->.
      apply lookup_insert_eq.
    + rewrite lookup_insert_ne in Hk by done.
      rewrite lookup_insert_ne.
      * apply IH; [done|]. intros k' Hk' Hcan. apply Hinj; [|done].
        destruct (decide (i = k')) as [->|?].
        -- rewrite lookup_insert_eq. eauto.
        -- by rewrite lookup_insert_ne.
      * intros Hcan. apply Hne, Hinj; [|done]. rewrite lookup_insert_eq. eauto.
Qed.

Lemma w_set_all_Refuses (w : ResponseWriter) (headers : gmap string string) :
  Refuses (w_set_all w headers) = Refuses w.
Proof.
  unfold w_set_all.
  by apply (map_fold_weak_ind
              (fun (r : ResponseWriter) (_ : gmap string string) =>
                 Refuses r = Refuses w)).
Qed.

(** The writer on which [WriteResponse] and the handler write the
    header. *)
Lemma served_writer_fields (w : ResponseWriter)
    (headers : gmap string string) (ttlSeconds : Z) :
  Code (served_writer w headers ttlSeconds) = Code w
  /\ Body (served_writer w headers ttlSeconds) = Body w
  /\ Refuses (served_writer w headers ttlSeconds) = Refuses w
  /\ WHeader (served_writer w headers ttlSeconds)
       !! http_CanonicalHeaderKey "Cache-Control"
     = Some (max_age ttlSeconds)
  /\ forall k v,
       headers !! k = Some v ->
       http_CanonicalHeaderKey k <> http_CanonicalHeaderKey "Cache-Control" ->
       (forall k', is_Some (headers !! k') ->
          http_CanonicalHeaderKey k' = http_CanonicalHeaderKey k -> k' = k) ->
       WHeader (served_writer w headers ttlSeconds)
         !! http_CanonicalHeaderKey k = Some v.
Proof.
  destruct (w_set_all_writer w headers) as (Hc & Hb & Hh).
  unfold served_writer. cbn [w_Header_Set Code Body Refuses WHeader].
  split; [done|]. split; [done|]. split; [apply w_set_all_Refuses|].
  unfold Header_Set. split; [apply lookup_insert_eq|].
  intros k v Hk Hne Hinj. rewrite lookup_insert_ne by done. by apply Hh.
Qed.

(** A header and a body that the writer takes. *)
Lemma w_Write_taken (w : ResponseWriter) (status : Z) (data : list byte) :
  Code w = None ->
  200 <= status <= 999 ->
  takes_body status data = true ->
  Refuses w (WHeader w) (Body w) data = false ->
  exists w1,
    w_WriteHeader w status = Returned w1
    /\ w_Write w1 data = (true, written_writer w status data).
Proof.
  intros Hc Hs Ht Hr. unfold w_WriteHeader. rewrite Hc.
  assert (H1 : (status <? 100) || (999 <? status) = false).
  { apply orb_false_iff. split; [apply Z.ltb_ge|apply Z.ltb_ge]; lia. }
  assert (H2 : (status <=? 199) && negb (status =? 101) = false).
  { apply andb_false_iff. left. apply Z.leb_gt. lia. }
  rewrite H1, H2. eexists. split; [reflexivity|].
  unfold w_Write, written_writer. cbn -[bodyAllowedForStatus Nat.eqb].
  unfold takes_body in Ht.
  destruct (length data =? 0)%nat eqn:Hlen.
  - apply Nat.eqb_eq in Hlen. destruct data; [|done]. by rewrite app_nil_r.
  - cbn [orb] in Ht. by rewrite Ht, Hr.
Qed.

(** [http.Error] with a status of three digits returns. *)
Lemma http_Error_returns (w : ResponseWriter) (msg : string) (code : Z) :
  100 <= code <= 999 ->
  exists w', http_Error w msg code = Returned w'.
Proof.
  intros Hc. unfold http_Error, w_WriteHeader.
  cbn [w_Header_Set Code].
  destruct (Code w); [by eexists|].
  assert (H1 : (code <? 100) || (999 <? code) = false).
  { apply orb_false_iff. split; [apply Z.ltb_ge|apply Z.ltb_ge]; lia. }
  rewrite H1. destruct (_ && _); by eexists.
Qed.

(** What [ReadData] does to the world when the key has an entry: one
    reading of the clock, and no file touched but the metadata file. *)
Lemma ReadData_world (c : Cache) (key : string) (entry : CacheEntry)
    (e : Env) :
  index c !! key = Some entry ->
  (forall p, p <> filepath_Join (dir c) (key ++ ".meta") ->
     files (ReadData c key e).2 !! p = files e !! p)
  /\ locked (ReadData c key e).2 = locked e
  /\ clock (ReadData c key e).2 = clock e
  /\ ticks (ReadData c key e).2 = S (ticks e)
  /\ upstream (ReadData c key e).2 = upstream e
  /\ exists t, trace (ReadData c key e).2 = (trace e ++ t)%list.
Proof.
  intros Hk. unfold ReadData. rewrite Hk. unfold bind. rewrite time_Now_eq.
  fold (ReadData_store c key entry (clock e (ticks e))).
  set (c2 := ReadData_store c key entry (clock e (ticks e))).
  set (md := EntryMetadata (with_Metadata entry _)).
  destruct (saveMetadata_frame c2 key md (tick e))
    as (Hfr & Hlk & Hcl & Hti & Hup & _).
  assert (Htr : exists t, trace (saveMetadata c2 key md (tick e)).2
                          = (trace e ++ t)%list).
  { unfold saveMetadata, bind, ret. destruct (json_Marshal_Metadata md).
    - rewrite os_WriteFile_eq. cbn. eauto.
    - exists []. cbn. by rewrite app_nil_r. }
  destruct (saveMetadata c2 key md (tick e)) as [err e2].
  cbn [fst snd] in *. destruct Htr as [t Htr].
  destruct err as [msg|]; unfold log_Warn, ret; rewrite ?emit_eq;
    rewrite os_ReadFile_eq; cbn [fst snd files locked clock ticks upstream
      trace];
    (destruct (if locked _ _ then _ else _);
     cbn [snd files locked clock ticks upstream trace];
     (split; [exact Hfr|]); (split; [exact Hlk|]); (split; [exact Hcl|]);
     (split; [exact Hti|]); (split; [exact Hup|]);
     rewrite Htr, <- ?app_assoc; eauto).
Qed.

(** The world after a [ReadData] that could save the metadata: the
    metadata file holds the record with the new [LastAccessedAt], and the
    trace has the write and the read. *)
Lemma ReadData_saved (c : Cache) (key : string) (entry : CacheEntry)
    (mb : list byte) (e : Env) :
  index c !! key = Some entry ->
  json_Marshal_Metadata
    (with_LastAccessedAt (EntryMetadata entry) (clock e (ticks e))) = Some mb ->
  locked e (filepath_Join (dir c) (key ++ ".meta")) = false ->
  (ReadData c key e).2
  = mkEnv (clock e) (S (ticks e))
      (<[filepath_Join (dir c) (key ++ ".meta") := mb]> (files e))
      (locked e) (residue e) (upstream e)
      (trace e ++ [EvWriteFile (filepath_Join (dir c) (key ++ ".meta"));
                   EvReadFile (FilePath entry)]).
Proof.
  intros Hk Hmb Hl. unfold ReadData. rewrite Hk. unfold bind.
  rewrite time_Now_eq. unfold saveMetadata, bind, ret.
  cbn [EntryMetadata with_Metadata FilePath updateAccessList with_accessList
       with_index dir].
  rewrite Hmb, os_WriteFile_eq.
  cbn [fst snd tick locked clock ticks files residue upstream trace].
  rewrite Hl. cbn [negb fst snd]. rewrite os_ReadFile_eq.
  cbn [fst snd tick locked clock ticks files residue upstream trace].
  rewrite <- app_assoc. cbn [app].
  by destruct (if locked e (FilePath entry) then _ else _).
Qed.

(** [WriteResponse], in terms of [ReadData]. *)
Lemma WriteResponse_eq (c : Cache) (w : ResponseWriter) (key : string)
    (ttlSeconds : Z) (e : Env) :
  WriteResponse c w key ttlSeconds e
  = (match (ReadData c key e).1.1 with
     | inr err => Returned (Some err, w)
     | inl data =>
         match index (ReadData c key e).1.2 !! key with
         | None => Returned (Some "cache entry not found", w)
         | Some entry =>
             match w_WriteHeader
                     (served_writer w (Headers (EntryMetadata entry))
                        ttlSeconds)
                     (StatusCode (EntryMetadata entry)) with
             | Panicked => Panicked
             | Returned w1 =>
                 Returned (if (w_Write w1 data).1 then None
                           else Some "write failed",
                           (w_Write w1 data).2)
             end
         end
     end, (ReadData c key e).1.2, (ReadData c key e).2).
Proof.
  unfold WriteResponse, GetMetadata, bind, ret, served_writer.
  destruct (ReadData c key e) as [[[data|err] c1] e1]; [|done].
  cbn [fst snd]. destruct (index c1 !! key) as [entry|]; [|done].
  cbv zeta. cbn [fst snd].
  destruct (w_WriteHeader _ _) as [w1|]; [|done].
  by destruct (w_Write w1 data) as [[] w2].
Qed.

(** [WriteResponse] for a key that has an entry whose artifact is on the
    disk, on a writer that takes the stored status and the stored bytes. *)
Lemma WriteResponse_served (c : Cache) (w : ResponseWriter) (key : string)
    (ttlSeconds : Z) (entry : CacheEntry) (data : list byte) (e : Env) :
  index c !! key = Some entry ->
  locked e (FilePath entry) = false ->
  FilePath entry <> filepath_Join (dir c) (key ++ ".meta") ->
  files e !! FilePath entry = Some data ->
  Code w = None ->
  200 <= StatusCode (EntryMetadata entry) <= 999 ->
  takes_body (StatusCode (EntryMetadata entry)) data = true ->
  Refuses w
    (WHeader (served_writer w (Headers (EntryMetadata entry)) ttlSeconds))
    (Body w) data = false ->
  WriteResponse c w key ttlSeconds e
  = (Returned (None,
               written_writer
                 (served_writer w (Headers (EntryMetadata entry)) ttlSeconds)
                 (StatusCode (EntryMetadata entry)) data),
     ReadData_store c key entry (clock e (ticks e)),
     (ReadData c key e).2).
Proof.
  intros Hk Hl Hne Hf Hcode Hst Htb Hrf. rewrite WriteResponse_eq.
  rewrite (ReadData_found c key entry data e Hk Hl Hne Hf). cbn [fst snd].
  unfold ReadData_store at 1.
  cbn [updateAccessList with_index with_accessList index].
  rewrite lookup_insert_eq.
  cbn [EntryMetadata with_Metadata with_LastAccessedAt Headers StatusCode].
  set (w1 := served_writer w (Headers (EntryMetadata entry)) ttlSeconds) in *.
  destruct (served_writer_fields w (Headers (EntryMetadata entry)) ttlSeconds)
    as (Hc1 & Hb1 & Hr1 & _).
  fold w1 in Hc1, Hb1, Hr1.
  destruct (w_Write_taken w1 (StatusCode (EntryMetadata entry)) data)
    as (w2 & Hwh & Hww); try done.
  { by rewrite Hc1. }
  { by rewrite Hr1, Hb1. }
  by rewrite Hwh, Hww.
Qed.

(** [CheckConditional] of a key that has an entry reads the clock once. *)
Lemma CheckConditional_found (c : Cache) (key : string) (req : Request)
    (e : Env) (entry : CacheEntry) :
  index c !! key = Some entry ->
  CheckConditional c key req e = ((CheckConditional c key req e).1.1, c, tick e).
Proof.
  intros Hk. unfold CheckConditional. rewrite Hk.
  unfold bind. rewrite time_Since_eq.
  repeat (match goal with
          | |- context [if ?b then _ else _] => destruct b
          | |- context [match ?o with Some _ => _ | None => _ end] =>
              destruct o
          end; try done).
Qed.

End Serving.

(** ** Revalidation *)

Section Revalidation.
Context `{GoLib}.

Lemma UpdateMetadata_found (c : Cache) (key : string) (md : Metadata)
    (entry : CacheEntry) (e : Env) :
  index c !! key = Some entry ->
  let c1 := with_index c (<[key := with_Metadata entry md]> (index c)) in
  UpdateMetadata c key md e
  = ((saveMetadata c1 key md e).1, c1, (saveMetadata c1 key md e).2).
Proof.
  intros Hk c1. unfold UpdateMetadata. rewrite Hk. unfold bind, ret.
  fold c1. by destruct (saveMetadata c1 key md e).
Qed.

(** The run of the handler on an upstream 304 for an entry that [Get]
    finds stale: the call of [UpdateMetadata], then [WriteResponse] on
    the store it returns, then the log line of the request. *)
Lemma ServeHTTP_304_eq (h : Handler) (c : Cache) (w : ResponseWriter)
    (r : Request) (e : Env) (entry : CacheEntry) (resp : UpstreamResponse)
    (w2 : ResponseWriter) :
  admitted h r ->
  index c !! request_key r = Some entry ->
  (CheckConditional c (request_key r) r (tick (tick e))).1.1 = false ->
  ttl c < time_Sub (clock e (3 + ticks e)) (CreatedAt (EntryMetadata entry)) ->
  url_Hostname (upstreamBase h) <> None ->
  http_NewRequest_ok (request_url h r) = true ->
  upstream e (request_url h r) (upstream_headers (Some entry)) = Some resp ->
  RespStatus resp = 304 ->
  let u := UpdateMetadata c (request_key r) (refreshed_metadata entry e)
             (refresh_world h r entry e) in
  let wr := WriteResponse u.1.2 (access_writer h w r) (request_key r)
              (duration_Seconds (h_ttl h)) (refresh_logged u.1.1 u.2) in
  wr.1.1 = Returned (None, w2) ->
  ServeHTTP h c w r e
  = (Returned w2, wr.1.2,
     (LogRequest r 200 (clock e (ticks e)) (clock e (S (ticks e))) wr.2).2).
Proof.
  intros (Hm & Hac & Hh) Hk Hcond Hstale Hbase Hurl Hup H304 u wr Hwr.
  unfold ServeHTTP, generateRequestID, bind.
  rewrite time_Now_eq. rewrite time_Now_eq.
  apply String.eqb_neq in Hm. rewrite Hm.
  unfold access_writer in wr.
  rewrite (checkAccessControl_fst h _ w r) in Hac.
  destruct (checkAccessControl h w r) as [ok w1].
  cbn [fst snd] in Hac, wr. subst ok. cbn [negb].
  fold (request_hash r). apply String.eqb_neq in Hh. rewrite Hh.
  fold (request_key r).
  rewrite (CheckConditional_found c (request_key r) r _ entry Hk), Hcond.
  rewrite Get_eq, Hk. cbn [tick clock ticks].
  assert (Hgt : (time_Sub (clock e (S (S (S (ticks e)))))
                   (CreatedAt (EntryMetadata entry)) >? ttl c) = true).
  { rewrite Z.gtb_ltb. apply Z.ltb_lt, Hstale. }
  rewrite Hgt. cbn [negb].
  unfold buildUpstreamURL.
  destruct (url_Hostname (upstreamBase h)) as [host|]; [|done].
  fold (request_url h r). rewrite Hurl. cbn [negb].
  unfold log_Info at 1. rewrite emit_eq.
  unfold client_Do, bind. rewrite emit_eq. cbn [upstream tick]. rewrite Hup.
  rewrite H304. cbn [Z.eqb Pos.eqb].
  unfold log_Info at 1. rewrite emit_eq. rewrite !time_Now_eq.
  cbn [tick clock ticks files locked residue upstream trace].
  rewrite <- !app_assoc. cbn [app].
  change (UpdateMetadata c (request_key r) _ _) with u.
  unfold wr in *. clear wr. destruct u as [[err c1] e1].
  cbn [fst snd] in *. unfold refresh_logged in *.
  destruct (match err with
            | Some _ => log_Warn "failed to update metadata"
            | None => ret tt
            end e1) as [[] e2].
  cbn [snd] in *.
  destruct (WriteResponse c1 w1 (request_key r) (duration_Seconds (h_ttl h))
              e2) as [[res c2] e3].
  cbn [fst snd] in *. subst res.
  by destruct (LogRequest r 200 _ _ e3).
Qed.

End Revalidation.

Section Refresh.
Context `{GoLib}.

Lemma refresh_logged_world (err : option string) (e : Env) :
  files (refresh_logged err e) = files e
  /\ locked (refresh_logged err e) = locked e
  /\ clock (refresh_logged err e) = clock e
  /\ ticks (refresh_logged err e) = ticks e.
Proof. unfold refresh_logged. by destruct err. Qed.

Lemma LogRequest_files (r : Request) (status t0 id : Z) (e : Env) :
  files (LogRequest r status t0 id e).2 = files e.
Proof. reflexivity. Qed.

(** C4, amended.  An entry that the conditional check does not answer
    and that [Get], at the next reading of the clock, finds stale; its
    artifact can be read; the upstream answers 304; the stored status is
    one that [WriteHeader] takes as the status of a response and with
    which the stored bytes are taken as a body, and the connection does
    not refuse them.  The handler calls [UpdateMetadata] with the stored
    record in which [CreatedAt] and [LastAccessedAt] are the readings of
    the clock at the two assignments and the other fields are as stored;
    the store that [UpdateMetadata] returns holds that record and the
    metadata file holds it when it can be written.  The handler returns
    what [WriteResponse] writes from that store, in the world that
    [ReadData] and the log line of the request leave: the stored status
    code, the stored bytes as the body, every stored header other than
    [Cache-Control] (under its canonical name, when no other stored
    header has that canonical name) and the [Cache-Control] of the
    handler.  At the return the entry has the new [CreatedAt] and the
    [LastAccessedAt] that [ReadData] stamped, the other entries and the
    running total are as before, and the key is the last of the recency
    list; on the disk the artifact is the stored one, the metadata file
    holds the record of the entry when it can be written, and no other
    file has changed; and when both records can be written the trace of
    the request is the upstream request, the two writes of the metadata
    file, the read of the artifact and the log line with status 200. *)
Theorem upstream_304_refresh (h : Handler) (c : Cache) (w : ResponseWriter)
    (r : Request) (e : Env) (entry : CacheEntry) (resp : UpstreamResponse)
    (data : list byte) :
  admitted h r ->
  Code w = None ->
  index c !! request_key r = Some entry ->
  (CheckConditional c (request_key r) r (tick (tick e))).1.1 = false ->
  ttl c < time_Sub (clock e (3 + ticks e)) (CreatedAt (EntryMetadata entry)) ->
  url_Hostname (upstreamBase h) <> None ->
  http_NewRequest_ok (request_url h r) = true ->
  upstream e (request_url h r) (upstream_headers (Some entry)) = Some resp ->
  RespStatus resp = 304 ->
  locked e (FilePath entry) = false ->
  files e !! FilePath entry = Some data ->
  FilePath entry <> filepath_Join (dir c) (request_key r ++ ".meta") ->
  200 <= StatusCode (EntryMetadata entry) <= 999 ->
  takes_body (StatusCode (EntryMetadata entry)) data = true ->
  Refuses w
    (WHeader (served_writer (access_writer h w r)
                (Headers (EntryMetadata entry)) (duration_Seconds (h_ttl h))))
    (Body w) data = false ->
  let key := request_key r in
  let md := EntryMetadata entry in
  let md1 := refreshed_metadata entry e in
  let md2 := with_LastAccessedAt md1 (clock e (6 + ticks e)) in
  let metaPath := filepath_Join (dir c) (key ++ ".meta") in
  let u := UpdateMetadata c key md1 (refresh_world h r entry e) in
  let rd := ReadData u.1.2 key (refresh_logged u.1.1 u.2) in
  let res := ServeHTTP h c w r e in
  (CreatedAt md1 = clock e (4 + ticks e)
   /\ LastAccessedAt md1 = clock e (5 + ticks e)
   /\ Headers md1 = Headers md /\ StatusCode md1 = StatusCode md
   /\ Size md1 = Size md)
  /\ (index u.1.2 !! key = Some (with_Metadata entry md1)
      /\ (forall mb, json_Marshal_Metadata md1 = Some mb ->
            locked e metaPath = false ->
            u.1.1 = None /\ files u.2 !! metaPath = Some mb)
      /\ files u.2 !! FilePath entry = Some data)
  /\ res
     = (Returned
          (written_writer
             (served_writer (access_writer h w r) (Headers md)
                (duration_Seconds (h_ttl h)))
             (StatusCode md) data),
        rd.1.2,
        (LogRequest r 200 (clock e (ticks e)) (clock e (S (ticks e))) rd.2).2)
  /\ (exists w', res.1.1 = Returned w'
      /\ Code w' = Some (StatusCode md)
      /\ Body w' = (Body w ++ data)%list
      /\ (forall k v,
            Headers md !! k = Some v ->
            http_CanonicalHeaderKey k
              <> http_CanonicalHeaderKey "Cache-Control" ->
            (forall k', is_Some (Headers md !! k') ->
               http_CanonicalHeaderKey k' = http_CanonicalHeaderKey k ->
               k' = k) ->
            WHeader w' !! http_CanonicalHeaderKey k = Some v)
      /\ WHeader w' !! http_CanonicalHeaderKey "Cache-Control"
         = Some (max_age (duration_Seconds (h_ttl h))))
  /\ (index res.1.2 = <[key := with_Metadata entry md2]> (index c)
      /\ currentBytes res.1.2 = currentBytes c
      /\ (NoDup (accessList c) ->
          accessList res.1.2
          = (filter (fun k => k <> key) (accessList c) ++ [key])%list))
  /\ (files res.2 !! FilePath entry = Some data
      /\ (forall mb, json_Marshal_Metadata md2 = Some mb ->
            locked e metaPath = false ->
            files res.2 !! metaPath = Some mb)
      /\ (forall p, p <> metaPath -> files res.2 !! p = files e !! p))
  /\ (forall mb1 mb2,
        json_Marshal_Metadata md1 = Some mb1 ->
        json_Marshal_Metadata md2 = Some mb2 ->
        locked e metaPath = false ->
        trace res.2
        = (trace e
           ++ [EvLog "INFO" "fetching from upstream";
               EvUpstream (request_url h r) (upstream_headers (Some entry));
               EvLog "INFO" "upstream returned 304, refreshing cache";
               EvWriteFile metaPath;
               EvWriteFile metaPath;
               EvReadFile (FilePath entry);
               EvRequest (Method r) (URLPath r) 200
                 (time_Sub (clock e (7 + ticks e)) (clock e (ticks e)))
                 (clock e (S (ticks e)))])%list).
Proof.
  intros Hadm Hcode Hk Hcond Hstale Hbase Hurl Hup H304 Hl Hf Hne Hst Htb Hrf
    key md md1 md2 metaPath u rd res.
  set (c1 := with_index c (<[key := with_Metadata entry md1]> (index c))).
  set (rw := refresh_world h r entry e).
  assert (Hu : u = ((saveMetadata c1 key md1 rw).1, c1,
                    (saveMetadata c1 key md1 rw).2))
    by (by apply UpdateMetadata_found).
  destruct (saveMetadata_frame c1 key md1 rw)
    as (Hsf & Hsl & Hsc & Hst' & _ & Hsp).
  set (e2 := refresh_logged u.1.1 u.2) in *.
  destruct (refresh_logged_world u.1.1 u.2) as (Hrf' & Hrl & Hrc & Hrt).
  fold e2 in Hrf', Hrl, Hrc, Hrt.
  assert (Hu2 : u.2 = (saveMetadata c1 key md1 rw).2) by (by rewrite Hu).
  assert (Hu1 : u.1.2 = c1) by (by rewrite Hu).
  assert (Hfile : files u.2 !! FilePath entry = Some data).
  { rewrite Hu2, Hsf by done. exact Hf. }
  assert (Hk1 : index c1 !! key = Some (with_Metadata entry md1))
    by apply lookup_insert_eq.
  assert (Hclk : clock e2 (ticks e2) = clock e (6 + ticks e))
    by (by rewrite Hrc, Hrt, Hu2, Hsc, Hst').
  assert (Hlk : locked e2 = locked e) by (by rewrite Hrl, Hu2, Hsl).
  destruct (checkAccessControl_writer h w r) as [Hac Hab].
  pose proof (checkAccessControl_Refuses h w r) as Har.
  fold (access_writer h w r) in Hac, Hab, Har.
  set (w1 := served_writer (access_writer h w r) (Headers md)
               (duration_Seconds (h_ttl h))) in *.
  assert (Hwr : WriteResponse u.1.2 (access_writer h w r) key
                  (duration_Seconds (h_ttl h)) e2
                = (Returned (None, written_writer w1 (StatusCode md) data),
                   ReadData_store c1 key (with_Metadata entry md1)
                     (clock e (6 + ticks e)),
                   rd.2)).
  { unfold rd. fold e2. rewrite Hu1.
    rewrite (WriteResponse_served c1 _ key _ (with_Metadata entry md1) data e2).
    - by rewrite Hclk.
    - done.
    - by rewrite Hlk.
    - done.
    - by rewrite Hrf'.
    - by rewrite Hac.
    - done.
    - done.
    - rewrite Har, Hab. exact Hrf. }
  assert (Hrd : rd.1.2 = ReadData_store c1 key (with_Metadata entry md1)
                           (clock e (6 + ticks e))).
  { unfold rd. fold e2. rewrite Hu1.
    rewrite (ReadData_store_eq c1 key _ e2 Hk1). by rewrite Hclk. }
  assert (Hres : res
                 = (Returned (written_writer w1 (StatusCode md) data), rd.1.2,
                    (LogRequest r 200 (clock e (ticks e))
                       (clock e (S (ticks e))) rd.2).2)).
  { unfold res.
    rewrite (ServeHTTP_304_eq h c w r e entry resp
               (written_writer w1 (StatusCode md) data)); try done.
    - fold key md1 u e2. by rewrite Hwr, Hrd.
    - fold key md1 u e2. by rewrite Hwr. }
  destruct (served_writer_fields (access_writer h w r) (Headers md)
              (duration_Seconds (h_ttl h)))
    as (Hwc & Hwb & _ & Hcc & Hwh).
  fold w1 in Hwc, Hwb, Hcc, Hwh.
  destruct (ReadData_world c1 key (with_Metadata entry md1) e2 Hk1)
    as (Hrdf & _).
  fold (ReadData c1 key e2) in Hrdf.
  assert (Hrd2 : rd.2 = (ReadData c1 key e2).2)
    by (unfold rd; fold e2; by rewrite Hu1).
  split; [done|]. split.
  { rewrite Hu1. split; [done|]. split; [|done].
    intros mb Hmb Hlm. rewrite Hu. cbn [fst snd]. by apply Hsp. }
  split; [exact Hres|].
  rewrite Hres. cbn [fst snd]. split; [|split; [|split]].
  - eexists. split; [reflexivity|]. unfold written_writer.
    cbn [Code Body WHeader]. split; [done|]. split; [by rewrite Hwb, Hab|].
    split; [exact Hwh|exact Hcc].
  - rewrite Hrd. unfold ReadData_store.
    cbn [updateAccessList with_index with_accessList index currentBytes
         accessList].
    split; [|split; [done|]].
    + unfold c1. cbn [with_index index]. by rewrite insert_insert_eq.
    + intros Hnd. by rewrite (remove_first_filter _ _ Hnd).
  - rewrite LogRequest_files, Hrd2. split; [|split].
    + rewrite Hrdf by done. by rewrite Hrf'.
    + intros mb Hmb Hlm.
      rewrite (ReadData_saved c1 key (with_Metadata entry md1) mb e2 Hk1).
      * cbn [files]. apply lookup_insert_eq.
      * cbn [EntryMetadata with_Metadata]. by rewrite Hclk.
      * by rewrite Hlk.
    + intros p Hp. rewrite Hrdf by done. rewrite Hrf', Hu2, Hsf by done.
      done.
  - intros mb1 mb2 Hmb1 Hmb2 Hlm.
    destruct (Hsp mb1 Hmb1 Hlm) as [Herr _].
    assert (He2 : e2 = (saveMetadata c1 key md1 rw).2).
    { unfold e2. rewrite Hu. cbn [fst snd]. by rewrite Herr. }
    rewrite Hrd2.
    rewrite (ReadData_saved c1 key (with_Metadata entry md1) mb2 e2 Hk1).
    + rewrite He2. unfold saveMetadata, bind, ret. rewrite Hmb1.
      rewrite os_WriteFile_eq. unfold LogRequest, bind.
      rewrite time_Since_eq, emit_eq.
      cbn [fst snd tick clock ticks files locked residue upstream trace rw
           refresh_world traced ticked].
      rewrite <- !app_assoc. reflexivity.
    + cbn [EntryMetadata with_Metadata]. by rewrite Hclk.
    + by rewrite Hlk.
Qed.

End Refresh.

(** C4, as stated, fails for one of the stored headers: the stored
    [Cache-Control] is not served.  On an upstream 304 for a stale entry
    stored with [Cache-Control: max-age=300] the response has the stored
    status, bytes and entity tag, and the [Cache-Control] of the handler. *)
Lemma upstream_304_cache_control :
  let res := ServeHTTP (H := sample_lib) sample_handler (sample_avatars 1)
               new_ResponseWriter sample_request sample_revalidation in
  Headers (EntryMetadata sample_cached) !! "Cache-Control"
  = Some "max-age=300"
  /\ exists w,
       res.1.1 = Returned w
       /\ Code w = Some 200
       /\ Body w = sample_bytes
       /\ WHeader w !! "ETag" = Some "abc123"
       /\ WHeader w !! "Cache-Control" = Some "public, max-age=3600".
Proof.
  vm_compute. split; [reflexivity|]. eexists. split; [reflexivity|].
  repeat split; reflexivity.
Qed.

Lemma upstream_304_refresh_witness :
  let res := ServeHTTP (H := sample_lib) sample_handler (sample_avatars 1)
               new_ResponseWriter sample_request sample_revalidation in
  (exists w, res.1.1 = Returned w /\ Code w = Some 200
             /\ Body w = ([] ++ sample_bytes)%list)
  /\ index res.1.2
     = <[sample_key :=
           with_Metadata sample_cached
             (mkMetadata 9 11 (Headers (EntryMetadata sample_cached)) 200 9)]>
         (index (sample_avatars 1))
  /\ currentBytes res.1.2 = 9
  /\ files res.2 !! FilePath sample_cached = Some sample_bytes
  /\ files res.2 !! ("/c/" ++ sample_key ++ ".meta")%string
     = Some (list_byte_of_string "9").
Proof.
  intros res.
  destruct (upstream_304_refresh (H := sample_lib) sample_handler
              (sample_avatars 1) new_ResponseWriter sample_request
              sample_revalidation sample_cached
              (mkUpstreamResponse 304 ∅ None) sample_bytes)
    as (_ & _ & _ & (w & Hw & Hcode & Hbody & _) & (Hidx & Htotal & _)
        & (Hfile & Hmeta & _) & _).
  - vm_compute. repeat split; discriminate.
  - reflexivity.
  - vm_compute. reflexivity.
  - vm_compute. reflexivity.
  - vm_compute. reflexivity.
  - discriminate.
  - reflexivity.
  - reflexivity.
  - reflexivity.
  - reflexivity.
  - vm_compute. reflexivity.
  - vm_compute. discriminate.
  - vm_compute. split; discriminate.
  - reflexivity.
  - reflexivity.
  - split; [|split; [|split; [|split]]].
    + exists w. split; [exact Hw|]. split; [exact Hcode|exact Hbody].
    + exact Hidx.
    + exact Htotal.
    + exact Hfile.
    + apply Hmeta; reflexivity.
Defined.

(** * Further properties of the store *)

Section StoreErrors.
Context `{GoLib}.

(** [Set] returns an error exactly when the artifact cannot be written,
    the metadata cannot be encoded or the metadata file cannot be
    written, and it panics exactly when both files are written and the
    map of the index is [nil].  A [Set] that does not return [nil] leaves
    the store as it was and touches no file but its own two.  The
    artifact holds the payload when its write succeeded, with no entry
    for it in the index, and what the failed write left of it otherwise;
    the metadata file is as it was when its write was not reached, holds
    the record when its write succeeded, and what the failed write left
    of it otherwise. *)
Theorem Set_error_frame (c : Cache) (key : string) (data : list byte)
    (md : Metadata) (e : Env) :
  let filePath := filepath_Join (dir c) key in
  let metaPath := filepath_Join (dir c) (key ++ ".meta") in
  let encoded :=
    json_Marshal_Metadata (with_Size md (Z.of_nat (length data))) in
  let r := Set_ c key data md e in
  filePath <> metaPath ->
  ((exists msg, r.1.1 = Returned (Some msg))
   <-> locked e filePath = true \/ encoded = None
       \/ locked e metaPath = true)
  /\ (r.1.1 = Panicked
      <-> locked e filePath = false /\ encoded <> None
          /\ locked e metaPath = false /\ nilIndex c = true)
  /\ (r.1.1 <> Returned None ->
      r.1.2 = c
      /\ (forall p, p <> filePath -> p <> metaPath ->
            files r.2 !! p = files e !! p)
      /\ files r.2 !! filePath
         = (if locked e filePath
            then residue e filePath data (files e !! filePath)
            else Some data)
      /\ files r.2 !! metaPath
         = (if locked e filePath then files e !! metaPath
            else match encoded with
                 | None => files e !! metaPath
                 | Some mb =>
                     if locked e metaPath
                     then residue e metaPath mb (files e !! metaPath)
                     else Some mb
                 end)).
Proof.
  intros filePath metaPath encoded r Hne. unfold r. rewrite Set_eq.
  fold filePath metaPath encoded. unfold Set_written.
  fold filePath metaPath.
  rewrite !os_WriteFile_eq. cbn [fst snd files locked].
  destruct (locked e filePath) eqn:H1; cbn [fst snd files].
  { split; [split; [auto|eauto]|]. split; [split; [done|by intros [? _]]|].
    intros _. split; [done|]. split; [|split].
    - intros p Hp _. by rewrite lookup_partial_alter_ne.
    - by rewrite lookup_partial_alter_eq.
    - by rewrite lookup_partial_alter_ne. }
  destruct encoded as [mb|] eqn:Hm; cbn [fst snd files].
  2: { split; [split; [auto|eauto]|].
       split; [split; [done|by intros (_ & ? & _)]|].
       intros _. split; [done|]. split; [|split].
       - intros p Hp _. by rewrite lookup_insert_ne.
       - apply lookup_insert_eq.
       - by rewrite lookup_insert_ne. }
  rewrite os_WriteFile_eq. cbn [fst snd files locked residue].
  destruct (locked e metaPath) eqn:H2; cbn [fst snd files].
  { split; [split; [auto|eauto]|].
    split; [split; [done|by intros (_ & _ & ? & _)]|].
    intros _. split; [done|]. split; [|split].
    - intros p Hp Hp'.
      by rewrite lookup_partial_alter_ne, lookup_insert_ne.
    - rewrite lookup_partial_alter_ne by done. apply lookup_insert_eq.
    - rewrite lookup_partial_alter_eq. by rewrite lookup_insert_ne. }
  destruct (nilIndex c) eqn:Hnil; cbn [fst snd files].
  { split.
    { split; [by intros [? ?]|]. intros [?|[?|?]]; done. }
    split; [done|].
    intros _. split; [done|]. split; [|split].
    - intros p Hp Hp'. by rewrite !lookup_insert_ne.
    - rewrite lookup_insert_ne by done. apply lookup_insert_eq.
    - apply lookup_insert_eq. }
  split.
  { split; [by intros [? ?]|]. intros [?|[?|?]]; done. }
  split; [|done]. split; [done|]. by intros (_ & _ & _ & ?).
Qed.

End StoreErrors.

Lemma Set_error_frame_witness :
  let e := sample_locked ["/c/k.meta"] (sample_env 5 ∅ None) in
  let r := Set_ (H := sample_lib) sample_store "k" sample_data
             sample_metadata e in
  r.1.2 = sample_store
  /\ files r.2 !! "/c/k" = Some sample_data
  /\ files r.2 !! "/c/k.meta" = None.
Proof.
  intros e r.
  destruct (Set_error_frame (H := sample_lib) sample_store "k"
              sample_data sample_metadata e) as (_ & _ & Hfail).
  - vm_compute. discriminate.
  - destruct Hfail as (Hstore & _ & Hfile & Hmeta).
    + vm_compute. discriminate.
    + split; [exact Hstore|]. split; [exact Hfile|exact Hmeta].
Defined.

Section StoreInvariants.
Context `{GoLib}.

(** Whatever they return, [Set], [ReadData] and the eviction keep the
    running total equal to the [int64] sum of the sizes in the index;
    [UpdateMetadata] keeps it when the record carries the stored [Size],
    and is without effect on the store for a key that has no entry. *)
Theorem running_total_kept (c : Cache) (e : Env) :
  total_ok c ->
  (forall key data md, total_ok (Set_ c key data md e).1.2)
  /\ (forall key, total_ok (ReadData c key e).1.2)
  /\ total_ok (evictIfNeeded c e).1
  /\ (forall key md entry,
        index c !! key = Some entry ->
        Size md = Size (EntryMetadata entry) ->
        total_ok (UpdateMetadata c key md e).1.2)
  /\ (forall key md,
        index c !! key = None -> (UpdateMetadata c key md e).1.2 = c).
Proof.
  intros Hc. split; [|split; [|split; [|split]]].
  - intros key data md. by apply Set_total_ok.
  - intros key. by apply ReadData_total_ok.
  - by apply evictIfNeeded_total_ok.
  - intros key md entry Hk Hs. apply UpdateMetadata_total_ok; [done|].
    intros entry' Hk'. congruence.
  - intros key md Hk. rewrite UpdateMetadata_store. by rewrite Hk.
Qed.

Lemma evicted_recency_ok (victims : list string) (c c' : Cache) (e e' : Env) :
  recency_ok c -> evicted victims c e c' e' -> recency_ok c'.
Proof.
  intros [Hn Hl] Hev. rewrite (ev_order _ _ _ _ _ Hev) in Hn, Hl. split.
  - by apply NoDup_app in Hn as (_ & _ & ?).
  - intros k [entry Hk]. pose proof Hk as Hk'.
    rewrite (ev_index _ _ _ _ _ Hev) in Hk'.
    destruct (decide (k ∈ victims)) as [|Hout]; [done|].
    assert (Hin : k ∈ (victims ++ accessList c')%list) by (apply Hl; eauto).
    apply elem_of_app in Hin as [?|?]; done.
Qed.

Lemma insert_recency_ok (c : Cache) (key : string) (entry : CacheEntry) :
  recency_ok c ->
  recency_ok (updateAccessList (with_index c (<[key := entry]> (index c))) key).
Proof.
  intros [Hn Hl]. split.
  - by apply updateAccessList_NoDup.
  - intros k Hk. apply updateAccessList_elem.
    cbn [updateAccessList with_index with_accessList index accessList] in *.
    destruct (decide (k = key)) as [->|Hne]; [by left|]. right.
    apply Hl. by rewrite lookup_insert_ne in Hk.
Qed.

(** Whatever they return, the methods keep the recency list free of
    duplicates and covering the index: every entry can be reached by the
    eviction, and no key is met twice by it. *)
Theorem recency_list_kept (c : Cache) (e : Env) :
  recency_ok c -> in_int64 (currentBytes c) ->
  (forall key data md, recency_ok (Set_ c key data md e).1.2)
  /\ (forall key, recency_ok (ReadData c key e).1.2)
  /\ (forall key md, recency_ok (UpdateMetadata c key md e).1.2)
  /\ recency_ok (evictIfNeeded c e).1.
Proof.
  intros Hc Hr. split; [|split; [|split]].
  - intros key data md. rewrite Set_eq.
    destruct (locked e (filepath_Join (dir c) key)); [done|].
    destruct (json_Marshal_Metadata _) as [mb|]; [|done].
    destruct (locked e (filepath_Join (dir c) (key ++ ".meta"))); [done|].
    destruct (nilIndex c); [done|].
    cbn [fst snd].
    destruct (evictLoop_evicted _ (Set_inserted c key data md)
                (Set_written c key data mb e) eq_refl) as [victims Hev].
    { destruct (Set_inserted_fields c key data md) as (_ & _ & -> & _).
      apply wrap64_range. }
    unfold evictIfNeeded. eapply evicted_recency_ok; [|exact Hev].
    destruct Hc as [Hn Hl].
    destruct (Set_inserted_fields c key data md) as (Hi & Ha & _).
    split.
    + rewrite Ha. destruct (remove_first_NoDup key _ Hn) as [H1 H2].
      apply NoDup_app. split; [done|]. split; [|apply NoDup_singleton].
      intros k Hk ->%list_elem_of_singleton. done.
    + rewrite Hi, Ha. intros k Hk.
      rewrite elem_of_app, list_elem_of_singleton.
      destruct (decide (k = key)) as [->|Hne]; [tauto|]. left.
      rewrite elem_of_remove_first_ne by done.
      apply Hl. by rewrite lookup_insert_ne in Hk.
  - intros key. destruct (index c !! key) as [entry|] eqn:Hk.
    + rewrite (ReadData_store_eq _ _ _ _ Hk). by apply insert_recency_ok.
    + unfold ReadData. by rewrite Hk.
  - intros key md. rewrite UpdateMetadata_store.
    destruct (index c !! key) as [entry|] eqn:Hk; [|done].
    destruct Hc as [Hn Hl]. split; [done|].
    cbn [with_index index accessList]. intros k Hin. apply Hl.
    destruct (decide (k = key)) as [->|Hne]; [eauto|].
    by rewrite lookup_insert_ne in Hin.
  - destruct (evictLoop_evicted _ c e eq_refl Hr) as [victims Hev].
    by apply (evicted_recency_ok _ _ _ _ _ Hc Hev).
Qed.

End StoreInvariants.

Lemma sample_store_recency_ok : recency_ok sample_store.
Proof.
  split; [exact (ok_nodup _ sample_store_ok)|exact (ok_listed _ sample_store_ok)].
Qed.

Lemma running_total_kept_witness :
  total_ok sample_store
  /\ (forall key data md,
        total_ok (Set_ (H := sample_lib) sample_store key data md
                    sample_world).1.2)
  /\ total_ok (evictIfNeeded sample_store sample_world).1.
Proof.
  assert (Hc : total_ok sample_store) by (vm_compute; reflexivity).
  destruct (running_total_kept (H := sample_lib) sample_store sample_world Hc)
    as (Hset & _ & Hev & _).
  split; [exact Hc|]. split; [exact Hset|exact Hev].
Defined.

Lemma recency_list_kept_witness :
  (forall key data md,
     recency_ok (Set_ (H := sample_lib) sample_store key data md
                   sample_world).1.2)
  /\ (forall key,
        recency_ok (ReadData (H := sample_lib) sample_store key
                      sample_world).1.2).
Proof.
  destruct (recency_list_kept (H := sample_lib) sample_store sample_world)
    as (Hset & Hread & _).
  - exact sample_store_recency_ok.
  - vm_compute. split; discriminate.
  - split; [exact Hset|exact Hread].
Defined.

Section StoreEdges.
Context `{GoLib}.






(** [UpdateMetadata] of a key without an entry fails and changes nothing.
    For a key with an entry it replaces the record of the entry, keeping
    its key and its artifact path, before it persists it, so the
    replacement stands even when persisting fails; its error is that of
    persisting; the other entries, the recency list, the running total,
    every file but the metadata file of the key and the clock are left
    alone. *)
Theorem UpdateMetadata_effect (c : Cache) (key : string) (md : Metadata)
    (e : Env) :
  (index c !! key = None ->
   UpdateMetadata c key md e = (Some "cache entry not found", c, e))
  /\ forall entry, index c !! key = Some entry ->
       let u := UpdateMetadata c key md e in
       let metaPath := filepath_Join (dir c) (key ++ ".meta") in
       index u.1.2 !! key = Some (mkCacheEntry (Key entry) (FilePath entry) md)
       /\ (forall k, k <> key -> index u.1.2 !! k = index c !! k)
       /\ accessList u.1.2 = accessList c
       /\ currentBytes u.1.2 = currentBytes c
       /\ (u.1.1 = None
           <-> (exists mb, json_Marshal_Metadata md = Some mb)
               /\ locked e metaPath = false)
       /\ (forall p, p <> metaPath -> files u.2 !! p = files e !! p)
       /\ ticks u.2 = ticks e.
Proof.
  split.
  { intros Hk. unfold UpdateMetadata. by rewrite Hk. }
  intros entry Hk u metaPath. unfold u.
  rewrite (UpdateMetadata_found c key md entry e Hk). cbn [fst snd].
  set (c1 := with_index c _).
  destruct (saveMetadata_frame c1 key md e) as (Hfr & _ & _ & Hti & _ & Hp).
  split; [apply lookup_insert_eq|].
  split; [intros k Hne; unfold c1; cbn [with_index index];
          by rewrite lookup_insert_ne|].
  split; [done|]. split; [done|]. split; [|split; [exact Hfr|exact Hti]].
  unfold saveMetadata, bind, ret. cbn [c1 with_index dir]. fold metaPath.
  destruct (json_Marshal_Metadata md) as [mb|]; cbn [fst].
  - rewrite os_WriteFile_eq. cbn [fst].
    destruct (locked e metaPath); cbn [negb].
    + split; [done|]. by intros [_ ?].
    + split; [|done]. intros _. split; [eauto|done].
  - split; [done|]. by intros [[? ?] _].
Qed.

(** Running the eviction again right after it has run changes nothing. *)
Theorem evictIfNeeded_idempotent (c : Cache) (e e' : Env) :
  in_int64 (currentBytes c) ->
  evictIfNeeded (evictIfNeeded c e).1 e' = ((evictIfNeeded c e).1, e').
Proof.
  intros Hr. destruct (evictLoop_evicted _ c e eq_refl Hr) as [victims Hev].
  fold (evictIfNeeded c) in Hev.
  destruct (ev_conf _ _ _ _ _ Hev) as (_ & _ & Hm).
  set (c1 := (evictIfNeeded c e).1) in *.
  unfold evictIfNeeded at 1.
  destruct (ev_stop _ _ _ _ _ Hev) as [Hle|Hnil].
  - assert (Hgt : (currentBytes c1 >? maxBytes c1) = false)
      by (rewrite Z.gtb_ltb, Hm; by apply Z.ltb_ge).
    destruct (accessList c1); simpl; by rewrite Hgt.
  - rewrite Hnil. simpl. by destruct (_ >? _).
Qed.

End StoreEdges.


Lemma UpdateMetadata_effect_witness :
  let c := sample_avatars 3600 in
  let e := sample_env 5 ∅ None in
  let u := UpdateMetadata (H := sample_lib) c sample_key sample_metadata e in
  index u.1.2 !! sample_key
  = Some (mkCacheEntry (Key sample_cached) (FilePath sample_cached)
            sample_metadata)
  /\ accessList u.1.2 = accessList c
  /\ currentBytes u.1.2 = currentBytes c.
Proof.
  intros c e u.
  destruct (proj2 (UpdateMetadata_effect (H := sample_lib) c sample_key
                     sample_metadata e) sample_cached)
    as (Hi & _ & Ha & Hb & _).
  - vm_compute. reflexivity.
  - split; [exact Hi|]. split; [exact Ha|exact Hb].
Defined.

Lemma evictIfNeeded_idempotent_witness :
  let c := with_currentBytes (with_index sample_store
             (<["key3" := sample_entry "key3" 40]> (index sample_store))) 120 in
  let c := with_accessList c ["key1"; "key2"; "key3"] in
  in_int64 (currentBytes c)
  /\ accessList (evictIfNeeded c sample_world).1 = ["key2"; "key3"]
  /\ evictIfNeeded (evictIfNeeded c sample_world).1 sample_world
     = ((evictIfNeeded c sample_world).1, sample_world).
Proof.
  intros c0 c.
  assert (Hr : in_int64 (currentBytes c)) by (vm_compute; split; discriminate).
  split; [exact Hr|]. split; [vm_compute; reflexivity|].
  exact (evictIfNeeded_idempotent c sample_world sample_world Hr).
Defined.

(** ** A read protects an entry; a restart restores the store *)



Section StoreComposition.
Context `{GoLib}.


Lemma Set_saved_index (c : Cache) (e : Env) (bs : list byte) :
  json_Marshal_Index (mkIndexDoc (index_value c) (accessList c)) = Some bs ->
  locked e (filepath_Join (dir c) "index.json") = false ->
  files (Set_saved c e) !! filepath_Join (dir c) "index.json" = Some bs.
Proof.
  intros Hm Hl. unfold Set_saved, saveIndex, bind, log_Error.
  rewrite Hm. cbn [fst snd ret]. rewrite os_WriteFile_eq. cbn [fst snd].
  rewrite Hl. cbn. apply lookup_insert_eq.
Qed.

(** The store comes back from the disk.  After a [Set] that succeeded and
    whose index document was written, in a codec that decodes what it
    encoded, [New] on the same directory with the same settings gives a
    store with the index and the recency list of the store that was
    saved, and with a running total that is the sum of the sizes; it is
    the very store that was saved when the running total of that store
    was the sum of the sizes. *)
Theorem Set_then_New (c : Cache) (key : string) (data : list byte)
    (md : Metadata) (e : Env) (c' : Cache) (e' : Env) (bs : list byte) :
  Set_ c key data md e = (Returned None, c', e') ->
  locked e (dir c) = false ->
  locked e (filepath_Join (dir c) "index.json") = false ->
  json_Marshal_Index
    (mkIndexDoc (Some (Some <$> index c')) (accessList c')) = Some bs ->
  json_Unmarshal_Index bs
  = Some (mkIndexDoc (Some (Some <$> index c')) (accessList c')) ->
  exists c2,
    (New (dir c) (ttl c) (maxBytes c) e').1 = Returned (Some c2)
    /\ index c2 = index c' /\ accessList c2 = accessList c'
    /\ dir c2 = dir c' /\ ttl c2 = ttl c' /\ maxBytes c2 = maxBytes c'
    /\ total_ok c2
    /\ (total_ok c -> c2 = c').
Proof.
  intros Hset Hd Hip Hm Hu.
  destruct (Set_success _ _ _ _ _ _ _ Hset) as (mb & _ & _ & _ & Hc' & He').
  pose proof (Set_success_nilIndex _ _ _ _ _ _ _ Hset) as Hnil.
  destruct (Set_inserted_fields c key data md) as (_ & _ & Hb & Hdir & Httl & Hmax).
  assert (Hnil' : nilIndex c' = false).
  { rewrite Hc'. unfold evictIfNeeded.
    by rewrite evictLoop_nilIndex, Set_inserted_nilIndex. }
  assert (Hr : in_int64 (currentBytes (Set_inserted c key data md)))
    by (rewrite Hb; apply wrap64_range).
  destruct (evictLoop_evicted _ (Set_inserted c key data md)
              (Set_written c key data mb e) eq_refl Hr) as [victims Hev].
  fold (evictIfNeeded (Set_inserted c key data md)) in Hev.
  rewrite <- Hc' in Hev.
  destruct (ev_conf _ _ _ _ _ Hev) as (Hd' & Ht' & Hm').
  rewrite Hdir in Hd'. rewrite Httl in Ht'. rewrite Hmax in Hm'.
  destruct (ev_world _ _ _ _ _ Hev) as (_ & _ & Hlk & _).
  destruct (Set_written_world c key data mb e) as (Hlk2 & _).
  destruct (Set_saved_frame c'
              (evictIfNeeded (Set_inserted c key data md)
                 (Set_written c key data mb e)).2) as (_ & Hlk3 & _).
  rewrite <- He' in Hlk3.
  assert (Hl' : locked e' = locked e) by (by rewrite Hlk3, Hlk, Hlk2).
  assert (Hf : files e' !! filepath_Join (dir c) "index.json" = Some bs).
  { rewrite He', <- Hd'. apply Set_saved_index.
    - unfold index_value. by rewrite Hnil'.
    - by rewrite Hlk, Hlk2, Hd'. }
  rewrite New_eq. cbn zeta. rewrite Hl', Hd, Hip, Hf, Hu.
  cbn [Entries AccessList fst]. rewrite nonnil_entries_fmap.
  eexists. split; [reflexivity|]. cbn [index accessList dir ttl maxBytes].
  do 5 (split; [done|]). split.
  - unfold total_ok. cbn [currentBytes index].
    rewrite sum_sizes_total by (unfold in_int64, min_int64, max_int64; lia).
    done.
  - intros Hc. pose proof (Set_total_ok c key data md e Hc) as Ht.
    rewrite Hset in Ht. cbn [fst snd] in Ht. unfold total_ok in Ht.
    rewrite sum_sizes_total by (unfold in_int64, min_int64, max_int64; lia).
    rewrite Z.add_0_l, <- Ht, <- Hd', <- Ht', <- Hm', <- Hnil'.
    by destruct c'.
Qed.

End StoreComposition.


Lemma Set_then_New_witness :
  let c :=
    mkCache "/c" 3600 100 (<["a" := sample_entry "a" 3]> ∅) ["a"] 3 false in
  let md := mkMetadata 0 0 ∅ 200 0 in
  let r := Set_ (H := sample_lib) c "b" (repeat x00 4) md (sample_env 5 ∅ None) in
  r.1.1 = Returned None
  /\ exists c2,
       (New (H := sample_lib) "/c" 3600 100 r.2).1 = Returned (Some c2)
       /\ index c2 = index r.1.2 /\ accessList c2 = accessList r.1.2
       /\ dir c2 = dir r.1.2 /\ ttl c2 = ttl r.1.2
       /\ maxBytes c2 = maxBytes r.1.2
       /\ total_ok c2
       /\ (total_ok c -> c2 = r.1.2).
Proof.
  intros c md r. split; [vm_compute; reflexivity|].
  apply (Set_then_New (H := sample_lib) c "b" (repeat x00 4) md
           (sample_env 5 ∅ None) r.1.2 r.2 [x31]).
  - vm_compute. reflexivity.
  - vm_compute. reflexivity.
  - vm_compute. reflexivity.
  - vm_compute. reflexivity.
  - vm_compute. reflexivity.
Defined.

(** * Further properties of the handler *)

Section HandlerPaths.
Context `{GoLib}.

Lemma Code_w_Write (w : ResponseWriter) (data : list byte) :
  is_Some (Code (w_Write w data).2).
Proof.
  unfold w_Write. destruct (length data =? 0)%nat; [by eexists|].
  destruct (_ || _); by eexists.
Qed.

(** [http.Error] with a status of three digits returns a writer that has
    a status. *)
Lemma http_Error_Code (w : ResponseWriter) (msg : string) (code : Z) :
  100 <= code <= 999 ->
  exists w', http_Error w msg code = Returned w' /\ is_Some (Code w').
Proof.
  intros Hc. unfold http_Error.
  destruct (http_Error_returns w msg code Hc) as [w' Hw'].
  unfold http_Error in Hw'.
  destruct (w_WriteHeader _ code) as [w1|]; [|done].
  eexists. split; [reflexivity|]. apply Code_w_Write.
Qed.

(** [WriteHeader] with a status of three digits returns, and with a
    status that is not informational the writer has a status. *)
Lemma w_WriteHeader_Code (w : ResponseWriter) (code : Z) :
  200 <= code <= 999 ->
  exists w', w_WriteHeader w code = Returned w' /\ is_Some (Code w').
Proof.
  intros Hc. unfold w_WriteHeader. destruct (Code w) eqn:Hw.
  { eexists. split; [reflexivity|]. rewrite Hw. by eexists. }
  assert (H1 : (code <? 100) || (999 <? code) = false).
  { apply orb_false_iff. split; [apply Z.ltb_ge|apply Z.ltb_ge]; lia. }
  assert (H2 : (code <=? 199) && negb (code =? 101) = false).
  { apply andb_false_iff. left. apply Z.leb_gt. lia. }
  rewrite H1, H2. eexists. split; [reflexivity|]. by eexists.
Qed.

(** [WriteHeader] panics only for a status that is not of three digits,
    on a writer that has no status. *)
Lemma w_WriteHeader_panic (w : ResponseWriter) (code : Z) :
  w_WriteHeader w code = Panicked ->
  Code w = None /\ ~ 100 <= code <= 999.
Proof.
  unfold w_WriteHeader. destruct (Code w); [done|].
  destruct (_ || _) eqn:Hr; [|by destruct (_ && _)].
  intros _. split; [done|]. apply orb_true_iff in Hr as [Hr|Hr].
  - apply Z.ltb_lt in Hr. lia.
  - apply Z.ltb_lt in Hr. lia.
Qed.

(** What [WriteResponse] returns: without an error the writer has a
    status, and it panics only on a writer without a status, for an
    entry whose stored status is not of three digits. *)
Lemma WriteResponse_outcome (c : Cache) (w : ResponseWriter) (key : string)
    (ttlSeconds : Z) (e : Env) :
  match (WriteResponse c w key ttlSeconds e).1.1 with
  | Returned (None, w') => is_Some (Code w')
  | Returned (Some _, _) => True
  | Panicked =>
      Code w = None
      /\ exists entry,
           index c !! key = Some entry
           /\ ~ 100 <= StatusCode (EntryMetadata entry) <= 999
  end.
Proof.
  rewrite WriteResponse_eq. cbn [fst snd].
  destruct (index c !! key) as [entry|] eqn:Hk.
  2: { unfold ReadData. by rewrite Hk. }
  rewrite (ReadData_store_eq c key entry e Hk).
  destruct ((ReadData c key e).1.1) as [data|err]; [|done].
  unfold ReadData_store at 1.
  cbn [updateAccessList with_index with_accessList index].
  rewrite lookup_insert_eq.
  cbn [EntryMetadata with_Metadata with_LastAccessedAt Headers StatusCode].
  destruct (served_writer_fields w (Headers (EntryMetadata entry)) ttlSeconds)
    as (Hc1 & _).
  destruct (w_WriteHeader _ _) as [w1|] eqn:Hwh.
  - pose proof (Code_w_Write w1 data). by destruct (w_Write w1 data).1.
  - apply w_WriteHeader_panic in Hwh as [Hn Hs]. rewrite Hc1 in Hn. eauto.
Qed.

(** A run of the handler that returns has written a status: whatever
    the request, the store and the world, the writer has a status code
    at the return.  A run panics only when the upstream base does not
    parse as a URL, when the map of the index is [nil], or when, on a
    writer that has no status yet, the status stored with the entry of
    the request or the status of the upstream answer is not of three
    digits.  And it does panic, with the store as it was, for an
    admitted request without an entry when the upstream base does not
    parse. *)
Theorem ServeHTTP_always_responds (h : Handler) (c : Cache)
    (w : ResponseWriter) (r : Request) (e : Env) :
  let s := ServeHTTP h c w r e in
  let key := request_key r in
  (forall w', s.1.1 = Returned w' -> is_Some (Code w'))
  /\ (s.1.1 = Panicked ->
      url_Hostname (upstreamBase h) = None
      \/ nilIndex c = true
      \/ (Code w = None
          /\ ((exists entry,
                 index c !! key = Some entry
                 /\ ~ 100 <= StatusCode (EntryMetadata entry) <= 999)
              \/ (exists resp,
                    upstream e (request_url h r)
                      (upstream_headers (index c !! key)) = Some resp
                    /\ ~ 100 <= RespStatus resp <= 999))))
  /\ (Method r <> "OPTIONS" ->
      (checkAccessControl h w r).1 = true ->
      request_hash r <> "" ->
      index c !! key = None ->
      url_Hostname (upstreamBase h) = None ->
      s.1 = (Panicked, c)).
Proof.
  intros s key.
  set (causes :=
         url_Hostname (upstreamBase h) = None
         \/ nilIndex c = true
         \/ (Code w = None
             /\ ((exists entry,
                    index c !! key = Some entry
                    /\ ~ 100 <= StatusCode (EntryMetadata entry) <= 999)
                 \/ (exists resp,
                       upstream e (request_url h r)
                         (upstream_headers (index c !! key)) = Some resp
                       /\ ~ 100 <= RespStatus resp <= 999)))).
  set (P := fun o : Outcome ResponseWriter =>
              match o with
              | Returned w' => is_Some (Code w')
              | Panicked => causes
              end).
  assert (Herr : forall w0 msg code st t0 id (c0 : Cache) (e0 : Env),
            100 <= code <= 999 ->
            P (match http_Error w0 msg code
                     return M (Outcome ResponseWriter * Cache) with
               | Panicked => ret (Panicked, c0)
               | Returned w1 =>
                   exec LogRequest r st t0 id; ret (Returned w1, c0)
               end e0).1.1).
  { intros w0 msg code st t0 id c0 e0 Hc.
    destruct (http_Error_Code w0 msg code Hc) as (w' & -> & Hw'). done. }
  assert (Hwr : forall (c0 : Cache) (e0 : Env) t0 id,
            match (WriteResponse c0 (checkAccessControl h w r).2 key
                     (duration_Seconds (h_ttl h)) e0).1.1 with
            | Panicked => causes
            | _ => True
            end ->
            P ((call (res, c) <- WriteResponse c0 (checkAccessControl h w r).2
                                   key (duration_Seconds (h_ttl h));
                match res with
                | Panicked => ret (Panicked, c)
                | Returned (Some _, w) =>
                    exec log_Error "failed to write cached response";
                    match http_Error w "Internal server error" 500
                          return M (Outcome ResponseWriter * Cache) with
                    | Panicked => ret (Panicked, c)
                    | Returned w =>
                        exec LogRequest r 500 t0 id; ret (Returned w, c)
                    end
                | Returned (None, w) =>
                    exec LogRequest r 200 t0 id; ret (Returned w, c)
                end) e0).1.1).
  { intros c0 e0 t0 id Hp. unfold bind at 1.
    pose proof (WriteResponse_outcome c0 (checkAccessControl h w r).2 key
                  (duration_Seconds (h_ttl h)) e0) as Ho.
    destruct (WriteResponse _ _ _ _ _) as [[[[[err|] w2]|] c3] e4];
      cbn [fst snd] in *.
    - unfold bind at 1. destruct (log_Error _ e4) as [[] e5].
      apply Herr. lia.
    - done.
    - done. }
  assert (Hc_base : url_Hostname (upstreamBase h) = None -> causes)
    by (intros ?; by left).
  assert (Hc_nil : nilIndex c = true -> causes)
    by (intros ?; right; by left).
  assert (Hc_entry : forall entry,
            Code w = None -> index c !! key = Some entry ->
            ~ 100 <= StatusCode (EntryMetadata entry) <= 999 -> causes).
  { intros entry ? ? ?. right. right. split; [done|]. left. eauto. }
  assert (Hc_resp : forall resp,
            Code w = None ->
            upstream e (request_url h r) (upstream_headers (index c !! key))
            = Some resp ->
            ~ 100 <= RespStatus resp <= 999 -> causes).
  { intros resp ? ? ?. right. right. split; [done|]. right. eauto. }
  assert (HP : P s.1.1).
  { clearbody causes. unfold s, ServeHTTP, generateRequestID, bind at 1 2.
    rewrite !time_Now_eq.
    destruct (checkAccessControl_writer h w r) as [Hcw _].
    destruct (checkAccessControl h w r) as [ok w1] eqn:Hac.
    cbn [fst snd] in *.
    destruct (String.eqb (Method r) "OPTIONS").
    { destruct ok; [|apply Herr; lia].
      destruct (w_WriteHeader_Code w1 200) as (w' & Hw' & Hc'); [lia|].
      unfold ret. cbn [fst]. by rewrite Hw'. }
    destruct ok; cbn [negb]; [|apply Herr; lia].
    fold (request_hash r). destruct (String.eqb (request_hash r) "").
    { unfold bind. destruct (LogRequest _ _ _ _ _) as [[] e1].
      destruct (http_Error_Code w1 "Invalid hash" 400) as (w' & Hw' & Hc');
        [lia|].
      unfold ret. cbn [fst]. by rewrite Hw'. }
    fold (request_key r). fold key.
    destruct (index c !! key) as [entry|] eqn:Hk.
    - unfold bind at 1.
      rewrite (CheckConditional_found c key r _ entry Hk).
      destruct (CheckConditional c key r _).1.1.
      { unfold bind. destruct (LogRequest _ _ _ _ _) as [[] e1].
        destruct (w_WriteHeader_Code w1 304) as (w' & Hw' & Hc'); [lia|].
        unfold ret. cbn [fst]. by rewrite Hw'. }
      unfold bind at 1. rewrite Get_eq, Hk.
      destruct (negb _).
      { unfold bind at 1. destruct (log_Info _ _) as [[] e3].
        pose proof (Hwr c e3) as Hwr'. cbn [snd] in Hwr'.
        apply Hwr'.
        pose proof (WriteResponse_outcome c w1 key
                      (duration_Seconds (h_ttl h)) e3) as Ho.
        destruct (WriteResponse _ _ _ _ _).1.1 as [|]; [done|].
        destruct Ho as (Hn & entry' & Hk' & Hs).
        rewrite Hk in Hk'. injection Hk' as <-.
        apply (Hc_entry entry); [by rewrite <- Hcw|done|done]. }
      unfold buildUpstreamURL.
      destruct (url_Hostname (upstreamBase h)) as [host|] eqn:Hhost;
        [|by apply Hc_base].
      fold (request_url h r).
      destruct (http_NewRequest_ok _); cbn [negb].
      2: { unfold bind at 1. destruct (log_Error _ _) as [[] e5].
           apply Herr. lia. }
      unfold bind at 1. unfold log_Info at 1. rewrite emit_eq.
      unfold bind at 1. unfold client_Do, bind at 1. rewrite emit_eq.
      cbn [tick upstream fst snd].
      destruct (upstream e (request_url h r) (upstream_headers (Some entry)))
        as [resp|] eqn:Hup.
      2: { unfold bind at 1. destruct (log_Error _ _) as [[] e5].
           apply Herr. lia. }
      destruct (RespStatus resp =? 304) eqn:H304.
      + unfold bind at 1. destruct (log_Info _ _) as [[] e5].
        unfold bind at 1 2. rewrite !time_Now_eq.
        unfold bind at 1.
        rewrite (UpdateMetadata_found c key _ entry _ Hk). cbn zeta.
        set (md1 := with_LastAccessedAt _ _).
        set (c1 := with_index c _).
        unfold bind at 1.
        destruct (match (saveMetadata c1 key md1 _).1 with
                  | Some _ => log_Warn "failed to update metadata"
                  | None => ret tt
                  end _) as [[] e7].
        pose proof (Hwr c1 e7) as Hwr'. cbn [snd] in Hwr'.
        apply Hwr'.
        pose proof (WriteResponse_outcome c1 w1 key
                      (duration_Seconds (h_ttl h)) e7) as Ho.
        destruct (WriteResponse _ _ _ _ _).1.1 as [|]; [done|].
        destruct Ho as (Hn & entry' & Hk' & Hs).
        unfold c1 in Hk'. cbn [with_index index] in Hk'.
        rewrite lookup_insert_eq in Hk'. injection Hk' as <-.
        apply (Hc_entry entry); [by rewrite <- Hcw|done|done].
      + destruct (RespBody resp) as [data|].
        2: { unfold bind at 1. destruct (log_Error _ _) as [[] e5].
             apply Herr. lia. }
        unfold bind at 1 2. rewrite !time_Now_eq. unfold bind at 1.
        destruct (Set_ _ _ _ _ _) as [[[err|] c3] e6] eqn:Hset.
        2: { apply Set_panic in Hset as [_ Hnil]. by apply Hc_nil. }
        unfold bind at 1.
        destruct (match err with
                  | Some _ => log_Warn "failed to cache response"
                  | None => ret tt
                  end e6) as [[] e7].
        destruct (w_WriteHeader _ (RespStatus resp)) as [w3|] eqn:Hwh.
        * unfold bind. destruct (LogRequest _ _ _ _ _) as [[] e8].
          apply Code_w_Write.
        * apply w_WriteHeader_panic in Hwh as [Hn Hs].
          destruct (served_writer_fields w1 (ExtractHeaders resp)
                      (duration_Seconds (h_ttl h))) as (Hc1 & _).
          unfold served_writer in Hc1. cbn [Headers] in Hn.
          rewrite Hc1, Hcw in Hn. by apply (Hc_resp resp).
    - unfold bind at 1. unfold CheckConditional. rewrite Hk.
      unfold ret at 1. unfold bind at 1. rewrite Get_eq, Hk.
      unfold buildUpstreamURL.
      destruct (url_Hostname (upstreamBase h)) as [host|] eqn:Hhost;
        [|by apply Hc_base].
      fold (request_url h r).
      destruct (http_NewRequest_ok _); cbn [negb].
      2: { unfold bind at 1. destruct (log_Error _ _) as [[] e5].
           apply Herr. lia. }
      unfold bind at 1. unfold log_Info at 1. rewrite emit_eq.
      unfold bind at 1. unfold client_Do, bind at 1. rewrite emit_eq.
      cbn [tick upstream fst snd].
      destruct (upstream e (request_url h r) (upstream_headers None))
        as [resp|] eqn:Hup.
      2: { unfold bind at 1. destruct (log_Error _ _) as [[] e5].
           apply Herr. lia. }
      replace (if RespStatus resp =? 304 then None else None)
        with (@None CacheEntry) by (by destruct (_ =? _)).
      destruct (RespBody resp) as [data|].
      2: { unfold bind at 1. destruct (log_Error _ _) as [[] e5].
           apply Herr. lia. }
      unfold bind at 1 2. rewrite !time_Now_eq. unfold bind at 1.
      destruct (Set_ _ _ _ _ _) as [[[err|] c3] e6] eqn:Hset.
      2: { apply Set_panic in Hset as [_ Hnil]. by apply Hc_nil. }
      unfold bind at 1.
      destruct (match err with
                | Some _ => log_Warn "failed to cache response"
                | None => ret tt
                end e6) as [[] e7].
      destruct (w_WriteHeader _ (RespStatus resp)) as [w3|] eqn:Hwh.
      * unfold bind. destruct (LogRequest _ _ _ _ _) as [[] e8].
        apply Code_w_Write.
      * apply w_WriteHeader_panic in Hwh as [Hn Hs].
        destruct (served_writer_fields w1 (ExtractHeaders resp)
                    (duration_Seconds (h_ttl h))) as (Hc1 & _).
        unfold served_writer in Hc1. cbn [Headers] in Hn.
        rewrite Hc1, Hcw in Hn. by apply (Hc_resp resp). }
  split; [|split].
  - intros w' Hw'. unfold P in HP. by rewrite Hw' in HP.
  - intros Hp. unfold P in HP. by rewrite Hp in HP.
  - intros Hm Hac Hh Hk Hbase.
    unfold s, ServeHTTP, generateRequestID, bind. rewrite !time_Now_eq.
    apply String.eqb_neq in Hm. rewrite Hm.
    destruct (checkAccessControl h w r) as [ok w1]. cbn [fst] in Hac.
    subst ok. cbn [negb]. fold (request_hash r).
    apply String.eqb_neq in Hh. rewrite Hh.
    fold (request_key r). fold key. unfold CheckConditional. rewrite Hk.
    unfold ret at 1. rewrite Get_eq, Hk. unfold buildUpstreamURL.
    by rewrite Hbase.
Qed.

End HandlerPaths.

Lemma ServeHTTP_always_responds_witness :
  let s := ServeHTTP (H := sample_lib) sample_handler (sample_avatars 1)
             new_ResponseWriter sample_request sample_revalidation in
  exists w', s.1.1 = Returned w' /\ is_Some (Code w').
Proof.
  intros s. eexists. split; [vm_compute; reflexivity|].
  apply (proj1 (ServeHTTP_always_responds (H := sample_lib) sample_handler
                  (sample_avatars 1) new_ResponseWriter sample_request
                  sample_revalidation)).
  vm_compute. reflexivity.
Defined.

Section HandlerGates.
Context `{GoLib}.



End HandlerGates.


Section HandlerFetch.
Context `{GoLib}.

Lemma Set_index_key (c : Cache) (key : string) (data : list byte)
    (md : Metadata) (e : Env) :
  store_ok c ->
  Z.of_nat (length data) <= maxBytes c ->
  total_size (index c) + Z.of_nat (length data) <= max_int64 ->
  (Set_ c key data md e).1.1 = Returned None ->
  index (Set_ c key data md e).1.2 !! key = Some (Set_entry c key data md).
Proof.
  intros Hok Hle Hfit Hnone.
  destruct (Set_ c key data md e) as [[err c'] e'] eqn:Hset.
  cbn [fst snd] in *. subst err.
  destruct (Set_success _ _ _ _ _ _ _ Hset) as (mb & _ & _ & _ & Hc & _).
  pose proof (Set_inserted_store_ok c key data md Hok Hfit) as Hok2.
  destruct (evictLoop_evicted _ (Set_inserted c key data md)
              (Set_written c key data mb e) eq_refl (in_int64_total _ Hok2))
    as [victims Hev].
  fold (evictIfNeeded (Set_inserted c key data md)) in Hev.
  rewrite <- Hc in Hev.
  pose proof (Set_keeps_key _ _ _ _ _ _ _ _ Hok Hle Hfit Hev) as Hkeep.
  destruct (Set_inserted_fields c key data md) as (Hi & _).
  rewrite (ev_index _ _ _ _ _ Hev), decide_False by done.
  rewrite Hi. apply lookup_insert_eq.
Qed.

(** The run of the handler when it fetches from the upstream and stores
    the answer: the key has no entry, or an entry that the conditional
    check does not answer and that [Get] finds stale, and then the
    answer is not a 304.  The answer is stored by [Set], after two more
    readings of the clock, and written on a writer that takes its status
    and its body. *)
Lemma ServeHTTP_fetched (h : Handler) (c : Cache) (w : ResponseWriter)
    (r : Request) (e : Env) (resp : UpstreamResponse) (data : list byte) :
  admitted h r ->
  Code w = None ->
  nilIndex c = false ->
  (forall entry, index c !! request_key r = Some entry ->
     (CheckConditional c (request_key r) r (tick (tick e))).1.1 = false
     /\ ttl c < time_Sub (clock e (3 + ticks e))
                  (CreatedAt (EntryMetadata entry))
     /\ RespStatus resp <> 304) ->
  url_Hostname (upstreamBase h) <> None ->
  http_NewRequest_ok (request_url h r) = true ->
  upstream e (request_url h r) (upstream_headers (index c !! request_key r))
  = Some resp ->
  RespBody resp = Some data ->
  200 <= RespStatus resp <= 999 ->
  takes_body (RespStatus resp) data = true ->
  Refuses w
    (WHeader (served_writer (access_writer h w r) (ExtractHeaders resp)
                (duration_Seconds (h_ttl h))))
    (Body w) data = false ->
  let n :=
    match index c !! request_key r with Some _ => 4%nat | None => 2%nat end in
  let md := mkMetadata (clock e (n + ticks e)) (clock e (S n + ticks e))
              (ExtractHeaders resp) (RespStatus resp) 0 in
  let st := Set_ c (request_key r) data md
              (traced (ticked (2 + n) e)
                 [EvLog "INFO" "fetching from upstream";
                  EvUpstream (request_url h r)
                    (upstream_headers (index c !! request_key r))]) in
  ServeHTTP h c w r e
  = (Returned
       (written_writer
          (served_writer (access_writer h w r) (ExtractHeaders resp)
             (duration_Seconds (h_ttl h)))
          (RespStatus resp) data),
     st.1.2,
     (LogRequest r (RespStatus resp) (clock e (ticks e))
        (clock e (S (ticks e)))
        (match st.1.1 with
         | Returned err =>
             match err with
             | Some _ => log_Warn "failed to cache response"
             | None => ret tt
             end
         | Panicked => ret tt
         end st.2).2).2).
Proof.
  intros (Hm & Hac & Hh) Hcode Hnil Hent Hbase Hurl Hup Hbody Hst Htb Hrf.
  cbv zeta.
  destruct (checkAccessControl_writer h w r) as [Hcw Hbw].
  pose proof (checkAccessControl_Refuses h w r) as Hrw.
  fold (access_writer h w r) in Hcw, Hbw, Hrw.
  destruct (served_writer_fields (access_writer h w r) (ExtractHeaders resp)
              (duration_Seconds (h_ttl h))) as (Hc1 & Hb1 & Hr1 & _).
  destruct (w_Write_taken
              (served_writer (access_writer h w r) (ExtractHeaders resp)
                 (duration_Seconds (h_ttl h)))
              (RespStatus resp) data) as (w3 & Hwh & Hww); try done.
  { by rewrite Hc1, Hcw. }
  { by rewrite Hr1, Hrw, Hb1, Hbw. }
  unfold ServeHTTP, generateRequestID, bind.
  rewrite time_Now_eq. rewrite time_Now_eq.
  apply String.eqb_neq in Hm. rewrite Hm.
  rewrite (checkAccessControl_fst h _ w r) in Hac.
  unfold access_writer in *.
  destruct (checkAccessControl h w r) as [ok w1].
  cbn [fst snd] in *. subst ok. cbn [negb].
  fold (request_hash r). apply String.eqb_neq in Hh. rewrite Hh.
  fold (request_key r).
  unfold buildUpstreamURL.
  destruct (url_Hostname (upstreamBase h)) as [host|]; [|done].
  fold (request_url h r).
  destruct (index c !! request_key r) as [entry|] eqn:Hk.
  - destruct (Hent entry eq_refl) as (Hcond & Hstale & Hno).
    rewrite (CheckConditional_found c (request_key r) r _ entry Hk), Hcond.
    rewrite Get_eq, Hk. cbn [tick clock ticks].
    assert (Hgt : (time_Sub (clock e (S (S (S (ticks e)))))
                     (CreatedAt (EntryMetadata entry)) >? ttl c) = true).
    { rewrite Z.gtb_ltb. apply Z.ltb_lt, Hstale. }
    rewrite Hgt. cbn [negb]. rewrite Hurl. cbn [negb].
    unfold log_Info at 1. rewrite emit_eq.
    unfold client_Do, bind. rewrite emit_eq. cbn [upstream tick]. rewrite Hup.
    apply Z.eqb_neq in Hno. rewrite Hno.
    rewrite Hbody. rewrite !time_Now_eq.
    cbn [tick clock ticks files locked residue upstream trace].
    rewrite <- !app_assoc. cbn [app].
    set (st := Set_ _ _ _ _ (traced _ _)).
    change (Set_ c (request_key r) data _ _) with st.
    assert (Hnp : st.1.1 <> Panicked).
    { intros Hp. destruct st as [[o c'] e'] eqn:Hset. cbn [fst] in Hp.
      subst o. apply Set_panic in Hset as [_ Hn]. congruence. }
    clearbody st. destruct st as [[[err|] c3] e6]; [|done]. cbn [fst snd].
    cbn [Headers].
    change (w_Header_Set (w_set_all w1 (ExtractHeaders resp)) _ _)
      with (served_writer w1 (ExtractHeaders resp)
              (duration_Seconds (h_ttl h))).
    rewrite Hwh.
    destruct (match err with
              | Some _ => log_Warn "failed to cache response"
              | None => ret tt
              end e6) as [[] e7].
    cbn [snd]. destruct (LogRequest _ _ _ _ _) as [[] e8].
    unfold ret. cbn [snd]. by rewrite Hww.
  - unfold CheckConditional. rewrite Hk. unfold ret at 1.
    rewrite Get_eq, Hk. rewrite Hurl. cbn [negb].
    unfold log_Info at 1. rewrite emit_eq.
    unfold client_Do, bind. rewrite emit_eq.
    cbn [upstream tick]. rewrite Hup.
    replace (if RespStatus resp =? 304 then None else None)
      with (@None CacheEntry) by (by destruct (_ =? _)).
    rewrite Hbody. rewrite !time_Now_eq.
    cbn [tick clock ticks files locked residue upstream trace].
    rewrite <- !app_assoc. cbn [app].
    set (st := Set_ _ _ _ _ (traced _ _)).
    change (Set_ c (request_key r) data _ _) with st.
    assert (Hnp : st.1.1 <> Panicked).
    { intros Hp. destruct st as [[o c'] e'] eqn:Hset. cbn [fst] in Hp.
      subst o. apply Set_panic in Hset as [_ Hn]. congruence. }
    clearbody st. destruct st as [[[err|] c3] e6]; [|done]. cbn [fst snd].
    cbn [Headers].
    change (w_Header_Set (w_set_all w1 (ExtractHeaders resp)) _ _)
      with (served_writer w1 (ExtractHeaders resp)
              (duration_Seconds (h_ttl h))).
    rewrite Hwh.
    destruct (match err with
              | Some _ => log_Warn "failed to cache response"
              | None => ret tt
              end e6) as [[] e7].
    cbn [snd]. destruct (LogRequest _ _ _ _ _) as [[] e8].
    unfold ret. cbn [snd]. by rewrite Hww.
Qed.

(** A request for a key that has no entry, when the upstream server
    answers with a status that [WriteHeader] takes as the status of a
    response, and its body can be read and is taken by the writer.  The
    response carries the status of the upstream answer, whatever it is
    from 200 to 999, its body, the headers that [ExtractHeaders] keeps
    and the [Cache-Control] of the handler in the place of the one of
    the upstream; it is written whether or not the answer could be
    stored.  The store is the one that [Set] returns: unchanged when
    [Set] fails, and when it succeeds on a consistent store with a
    payload that is not larger than the ceiling, holding the answer under
    the key with the upstream status, the five headers that
    [ExtractHeaders] keeps, the third and fourth readings of the clock
    as its times and the length of the body as its size.  Answers that
    are not 200 are stored like the others.  The last event of the
    request is its log line, with the status of the upstream answer. *)
Theorem ServeHTTP_cold_miss (h : Handler) (c : Cache) (w : ResponseWriter)
    (r : Request) (e : Env) (resp : UpstreamResponse) (data : list byte) :
  admitted h r ->
  Code w = None ->
  nilIndex c = false ->
  index c !! request_key r = None ->
  url_Hostname (upstreamBase h) <> None ->
  http_NewRequest_ok (request_url h r) = true ->
  upstream e (request_url h r) ∅ = Some resp ->
  RespBody resp = Some data ->
  200 <= RespStatus resp <= 999 ->
  takes_body (RespStatus resp) data = true ->
  Refuses w
    (WHeader (served_writer (access_writer h w r) (ExtractHeaders resp)
                (duration_Seconds (h_ttl h))))
    (Body w) data = false ->
  let key := request_key r in
  let md := mkMetadata (clock e (2 + ticks e)) (clock e (3 + ticks e))
              (ExtractHeaders resp) (RespStatus resp) 0 in
  let st := Set_ c key data md
              (traced (ticked 4 e)
                 [EvLog "INFO" "fetching from upstream";
                  EvUpstream (request_url h r) ∅]) in
  let s := ServeHTTP h c w r e in
  (exists w',
     s.1.1 = Returned w'
     /\ Code w' = Some (RespStatus resp)
     /\ Body w' = (Body w ++ data)%list
     /\ WHeader w' !! http_CanonicalHeaderKey "Cache-Control"
        = Some (max_age (duration_Seconds (h_ttl h)))
     /\ (forall k v,
           ExtractHeaders resp !! k = Some v ->
           http_CanonicalHeaderKey k
             <> http_CanonicalHeaderKey "Cache-Control" ->
           (forall k', is_Some (ExtractHeaders resp !! k') ->
              http_CanonicalHeaderKey k' = http_CanonicalHeaderKey k ->
              k' = k) ->
           WHeader w' !! http_CanonicalHeaderKey k = Some v))
  /\ s.1.2 = st.1.2
  /\ (st.1.1 <> Returned None -> s.1.2 = c)
  /\ (st.1.1 = Returned None -> store_ok c ->
      Z.of_nat (length data) <= maxBytes c ->
      total_size (index c) + Z.of_nat (length data) <= max_int64 ->
      index s.1.2 !! key
      = Some (mkCacheEntry key (filepath_Join (dir c) key)
                (mkMetadata (clock e (2 + ticks e)) (clock e (3 + ticks e))
                   (ExtractHeaders resp) (RespStatus resp)
                   (Z.of_nat (length data)))))
  /\ (exists d,
        last (trace s.2)
        = Some (EvRequest (Method r) (URLPath r) (RespStatus resp) d
                  (clock e (S (ticks e))))).
Proof.
  intros Hadm Hcode Hnil Hk Hbase Hurl Hup Hbody Hst Htb Hrf key md st s.
  pose proof (ServeHTTP_fetched h c w r e resp data Hadm Hcode Hnil) as Hs.
  rewrite Hk in Hs. cbn [upstream_headers] in Hs.
  specialize (Hs ltac:(done) Hbase Hurl Hup Hbody Hst Htb Hrf).
  cbv zeta in Hs. fold key md st s in Hs.
  assert (Hw := f_equal (fun x => x.1.1) Hs).
  assert (Hc := f_equal (fun x => x.1.2) Hs).
  assert (He := f_equal snd Hs).
  cbn [fst snd] in Hw, Hc, He. clear Hs.
  destruct (checkAccessControl_writer h w r) as [Hcw Hbw].
  fold (access_writer h w r) in Hcw, Hbw.
  destruct (served_writer_fields (access_writer h w r) (ExtractHeaders resp)
              (duration_Seconds (h_ttl h))) as (Hc1 & Hb1 & _ & Hcc & Hhd).
  split; [|split; [done|split; [|split]]].
  4: { rewrite He. unfold LogRequest, bind. rewrite time_Since_eq, emit_eq.
       cbn [snd trace]. rewrite last_snoc. eauto. }
  - eexists. split; [exact Hw|]. unfold written_writer.
    cbn [Code Body WHeader]. split; [done|].
    split; [by rewrite Hb1, Hbw|]. split; [exact Hcc|exact Hhd].
  - intros Hne. rewrite Hc. clear Hc. unfold st in *.
    destruct (Set_ c key data md _) as [[[[msg|]|] c'] e'] eqn:Hset.
    + cbn [fst snd]. by eapply Set_failure.
    + done.
    + cbn [fst snd]. by apply Set_panic in Hset as [-> _].
  - intros Hnone Hok Hle Hfit. rewrite Hc.
    by apply Set_index_key.
Qed.

End HandlerFetch.

Lemma ServeHTTP_cold_miss_witness :
  let resp := mkUpstreamResponse 404 (<["Content-Type" := "text/plain"]> ∅)
                (Some sample_bytes) in
  let e := sample_env 5 ∅ (Some resp) in
  let s := ServeHTTP (H := sample_lib) sample_handler (empty_cache 3600 100)
             new_ResponseWriter sample_request e in
  (exists w', s.1.1 = Returned w' /\ Code w' = Some 404
              /\ Body w' = ([] ++ sample_bytes)%list)
  /\ index s.1.2 !! sample_key
     = Some (mkCacheEntry sample_key ("/c/" ++ sample_key)
               (mkMetadata 7 8 (<["Content-Type" := "text/plain"]> ∅) 404 9)).
Proof.
  intros resp e s.
  destruct (ServeHTTP_cold_miss (H := sample_lib) sample_handler
              (empty_cache 3600 100) new_ResponseWriter sample_request e resp
              sample_bytes)
    as ((w' & Hw & Hcode & Hbody & _) & _ & _ & Hidx & _).
  - vm_compute. repeat split; discriminate.
  - reflexivity.
  - reflexivity.
  - vm_compute. reflexivity.
  - discriminate.
  - reflexivity.
  - reflexivity.
  - reflexivity.
  - vm_compute. split; discriminate.
  - reflexivity.
  - reflexivity.
  - split.
    + exists w'. split; [exact Hw|]. split; [exact Hcode|exact Hbody].
    + etransitivity; [apply Hidx|].
      * vm_compute. reflexivity.
      * apply empty_store_ok.
      * vm_compute. discriminate.
      * vm_compute. discriminate.
      * vm_compute. reflexivity.
Defined.

Section HandlerUpstreamDown.
Context `{GoLib}.

(** There is no serving of stale content.  When the key has no entry,
    or an entry that the conditional check does not answer and that
    [Get], at the next reading of the clock, finds past its TTL, and the
    upstream request fails, the answer is 502 with the message of the
    handler, even though a stale copy may be in the store; the store and
    the disk are as they were, and the trace of the request is the
    upstream request, the error and the log line with status 502. *)
Theorem ServeHTTP_upstream_down (h : Handler) (c : Cache) (w : ResponseWriter)
    (r : Request) (e : Env) :
  admitted h r ->
  Code w = None ->
  (forall entry, index c !! request_key r = Some entry ->
     (CheckConditional c (request_key r) r (tick (tick e))).1.1 = false
     /\ ttl c < time_Sub (clock e (3 + ticks e))
                  (CreatedAt (EntryMetadata entry))) ->
  url_Hostname (upstreamBase h) <> None ->
  http_NewRequest_ok (request_url h r) = true ->
  upstream e (request_url h r) (upstream_headers (index c !! request_key r))
  = None ->
  let s := ServeHTTP h c w r e in
  let n :=
    match index c !! request_key r with Some _ => 4%nat | None => 2%nat end in
  s.1.1 = http_Error (access_writer h w r) "Failed to fetch from upstream" 502
  /\ (exists w', s.1.1 = Returned w' /\ Code w' = Some 502)
  /\ s.1.2 = c
  /\ files s.2 = files e
  /\ trace s.2
     = (trace e
        ++ [EvLog "INFO" "fetching from upstream";
            EvUpstream (request_url h r)
              (upstream_headers (index c !! request_key r));
            EvLog "ERROR" "upstream request failed";
            EvRequest (Method r) (URLPath r) 502
              (time_Sub (clock e (n + ticks e)) (clock e (ticks e)))
              (clock e (S (ticks e)))])%list.
Proof.
  intros (Hm & Hac & Hh) Hcode Hent Hbase Hurl Hup s n.
  destruct (checkAccessControl_writer h w r) as [Hcw _].
  fold (access_writer h w r) in Hcw.
  assert (Herr : exists w',
            http_Error (access_writer h w r) "Failed to fetch from upstream"
              502 = Returned w'
            /\ Code w' = Some 502).
  { unfold http_Error, w_WriteHeader. cbn [w_Header_Set Code].
    rewrite Hcw, Hcode. cbn. eexists. split; [reflexivity|].
    unfold w_Write. cbn [Code default].
    repeat (match goal with
            | |- context [if ?b then _ else _] => destruct b
            end; try done). }
  destruct Herr as (w' & Hw' & Hc').
  assert (Hs : s = (http_Error (access_writer h w r)
                      "Failed to fetch from upstream" 502, c,
                    mkEnv (clock e) (S (n + ticks e)) (files e) (locked e)
                      (residue e) (upstream e)
                      (trace e
                       ++ [EvLog "INFO" "fetching from upstream";
                           EvUpstream (request_url h r)
                             (upstream_headers (index c !! request_key r));
                           EvLog "ERROR" "upstream request failed";
                           EvRequest (Method r) (URLPath r) 502
                             (time_Sub (clock e (n + ticks e))
                                (clock e (ticks e)))
                             (clock e (S (ticks e)))]))).
  { rewrite Hw'. unfold s, n, ServeHTTP, generateRequestID, bind.
    rewrite time_Now_eq. rewrite time_Now_eq.
    apply String.eqb_neq in Hm. rewrite Hm.
    rewrite (checkAccessControl_fst h _ w r) in Hac.
    unfold access_writer in Hw'.
    destruct (checkAccessControl h w r) as [ok w1].
    cbn [fst snd] in Hac, Hw' |- *. subst ok. cbn [negb].
    fold (request_hash r). apply String.eqb_neq in Hh. rewrite Hh.
    fold (request_key r). unfold buildUpstreamURL.
    destruct (url_Hostname (upstreamBase h)) as [host|]; [|done].
    fold (request_url h r).
    destruct (index c !! request_key r) as [entry|] eqn:Hk.
    - destruct (Hent entry eq_refl) as (Hcond & Hstale).
      rewrite (CheckConditional_found c (request_key r) r _ entry Hk), Hcond.
      rewrite Get_eq, Hk. cbn [tick clock ticks].
      assert (Hgt : (time_Sub (clock e (S (S (S (ticks e)))))
                       (CreatedAt (EntryMetadata entry)) >? ttl c) = true).
      { rewrite Z.gtb_ltb. apply Z.ltb_lt, Hstale. }
      rewrite Hgt. cbn [negb]. rewrite Hurl. cbn [negb].
      unfold log_Info, log_Error, client_Do, LogRequest, bind.
      rewrite !emit_eq. cbn [upstream tick]. rewrite Hup.
      rewrite !emit_eq, Hw', time_Since_eq, emit_eq.
      cbn [tick clock ticks files locked residue upstream trace fst snd].
      by rewrite <- !app_assoc.
    - unfold CheckConditional. rewrite Hk. unfold ret at 1.
      rewrite Get_eq, Hk. rewrite Hurl. cbn [negb].
      unfold log_Info, log_Error, client_Do, LogRequest, bind.
      rewrite !emit_eq. cbn [upstream tick]. rewrite Hup.
      rewrite !emit_eq, Hw', time_Since_eq, emit_eq.
      cbn [tick clock ticks files locked residue upstream trace fst snd].
      by rewrite <- !app_assoc. }
  rewrite Hs. cbn [fst snd files trace].
  split; [done|]. split; [|done]. exists w'. by rewrite Hw'.
Qed.

End HandlerUpstreamDown.

Lemma ServeHTTP_upstream_down_witness :
  let s := ServeHTTP (H := sample_lib) sample_handler (sample_avatars 1)
             new_ResponseWriter sample_request (sample_env 5 ∅ None) in
  (exists w', s.1.1 = Returned w' /\ Code w' = Some 502)
  /\ s.1.2 = sample_avatars 1
  /\ index s.1.2 !! sample_key = Some sample_cached.
Proof.
  intros s.
  destruct (ServeHTTP_upstream_down (H := sample_lib) sample_handler
              (sample_avatars 1) new_ResponseWriter sample_request
              (sample_env 5 ∅ None))
    as (_ & Hcode & Hc & _).
  - vm_compute. repeat split; discriminate.
  - reflexivity.
  - intros entry Hk.
    assert (entry = sample_cached) as ->
      by (vm_compute in Hk; by injection Hk as <-).
    split; vm_compute; reflexivity.
  - discriminate.
  - reflexivity.
  - reflexivity.
  - split; [exact Hcode|]. split; [exact Hc|].
    unfold s. rewrite Hc. vm_compute. reflexivity.
Defined.

Section HandlerHit.
Context `{GoLib}.








End HandlerHit.

Section HandlerFresh.
Context `{GoLib}.


End HandlerFresh.


(** * Further properties of the helpers *)

Section HandlerHelpers.
Context `{GoLib}.

Lemma extractQueryParams_lookup (q : gmap string (list string)) (k : string) :
  extractQueryParams q !! k
  = if decide (k ∈ ["s"; "d"; "r"; "f"]) then q !! k ≫= head else None.
Proof.
  unfold extractQueryParams. rewrite lookup_omap.
  destruct (decide (k ∈ ["s"; "d"; "r"; "f"])) as [Hin|Hout].
  - destruct (q !! k) as [vs|] eqn:Hq.
    + by rewrite (proj2 (map_lookup_filter_Some _ q k vs) (conj Hq Hin)).
    + rewrite (proj2 (map_lookup_filter_None _ q k)); [done|]. by left.
  - rewrite (proj2 (map_lookup_filter_None _ q k)); [done|].
    right. intros vs _. exact Hout.
Qed.

(** Only the four parameters [s], [d], [r] and [f] count, each with its
    first value.  [extractQueryParams] keeps a name exactly when it is
    one of the four and has a value, with its first value; so two
    requests for the same path whose queries agree on the first values
    of the four have the same cache key and the same upstream URL,
    whatever other parameters they carry. *)
Theorem query_parameters_allowed (h : Handler) (r1 r2 : Request) :
  (forall q k v,
     extractQueryParams q !! k = Some v
     <-> k ∈ ["s"; "d"; "r"; "f"] /\ exists vs, q !! k = Some (v :: vs))
  /\ (URLPath r1 = URLPath r2 ->
      (forall k, k ∈ ["s"; "d"; "r"; "f"] ->
         URLQuery r1 !! k ≫= head = URLQuery r2 !! k ≫= head) ->
      request_key r1 = request_key r2 /\ request_url h r1 = request_url h r2).
Proof.
  split.
  - intros q k v. rewrite extractQueryParams_lookup.
    destruct (decide (k ∈ ["s"; "d"; "r"; "f"])) as [Hin|Hout].
    + destruct (q !! k) as [[|v' vs]|]; cbn.
      * split; [done|]. by intros (_ & vs & [=]).
      * split.
        -- intros [= ->]. eauto.
        -- by intros (_ & vs' & [= -> _]).
      * split; [done|]. by intros (_ & vs & [=]).
    + split; [done|]. by intros [? _].
  - intros Hp Hq.
    assert (Heq : extractQueryParams (URLQuery r1)
                  = extractQueryParams (URLQuery r2)).
    { apply map_eq. intros k. rewrite !extractQueryParams_lookup.
      destruct (decide _); [by apply Hq|done]. }
    unfold request_key, request_url, request_hash. by rewrite Hp, Heq.
Qed.

Lemma ExtractHeaders_fold (get : string -> string) (l : list string)
    (acc : gmap string string) (k : string) :
  foldl (fun headers key =>
           if negb (String.eqb (get key) "") then <[key := get key]> headers
           else headers) acc l !! k
  = if decide (k ∈ l /\ get k <> "") then Some (get k) else acc !! k.
Proof.
  revert acc. induction l as [|a l IH]; intros acc; cbn [foldl].
  - rewrite decide_False; [done|]. intros [Hin _]. by apply elem_of_nil in Hin.
  - rewrite IH. destruct (decide (k ∈ l /\ get k <> "")) as [[Hin Hne]|Hno].
    + rewrite decide_True; [done|]. split; [by apply list_elem_of_further|done].
    + assert (Hout : k <> a -> ~ (k ∈ a :: l /\ get k <> "")).
      { intros Hka [[?|?]%elem_of_cons ?]; [done|]. by apply Hno. }
      destruct (String.eqb_spec (get a) "") as [He|He]; cbn [negb].
      * rewrite decide_False; [done|].
        intros [[->|?]%elem_of_cons ?]; [done|]. by apply Hno.
      * destruct (decide (k = a)) as [->|Hka].
        -- rewrite lookup_insert_eq, decide_True; [done|].
           split; [apply list_elem_of_here|done].
        -- rewrite lookup_insert_ne by done.
           rewrite decide_False; [done|]. by apply Hout.
Qed.

(** [ExtractHeaders] keeps five headers of the upstream answer and no
    other: [Content-Type], [ETag], [Last-Modified], [Cache-Control] and
    [Content-Length], each under that name with the value of the answer,
    and only when the value is not empty. *)
Theorem ExtractHeaders_spec (resp : UpstreamResponse) (k v : string) :
  ExtractHeaders resp !! k = Some v
  <-> k ∈ ["Content-Type"; "ETag"; "Last-Modified"; "Cache-Control";
           "Content-Length"]
      /\ v = Header_Get (RespHeader resp) k /\ v <> "".
Proof.
  unfold ExtractHeaders.
  rewrite (ExtractHeaders_fold (Header_Get (RespHeader resp))).
  destruct (decide _) as [[Hin Hne]|Hno].
  - split.
    + by intros [= <-].
    + by intros (_ & -> & _).
  - rewrite lookup_empty. split; [done|]. intros (Hin & -> & Hne).
    by destruct Hno.
Qed.

End HandlerHelpers.

Lemma query_parameters_allowed_witness :
  let r1 := mkRequest "GET" "/avatar/abc"
              (<["s" := ["80"; "90"]]> (<["utm" := ["x"]]> ∅)) ∅ in
  let r2 := mkRequest "GET" "/avatar/abc" (<["s" := ["80"]]> ∅) ∅ in
  request_key (H := sample_lib) r1 = request_key (H := sample_lib) r2
  /\ request_url (H := sample_lib) sample_handler r1
     = request_url (H := sample_lib) sample_handler r2.
Proof.
  intros r1 r2.
  apply (proj2 (query_parameters_allowed (H := sample_lib) sample_handler
                  r1 r2)).
  - reflexivity.
  - intros k Hk.
    repeat (apply elem_of_cons in Hk as [->|Hk]; [vm_compute; reflexivity|]).
    by apply elem_of_nil in Hk.
Defined.

(** * Further properties of the access control *)

Lemma substring_full (s : string) : substring 0 (String.length s) s = s.
Proof. induction s as [|a s IH]; simpl; [done|]. by rewrite IH. Qed.

Lemma substring_app_r (p suf : string) :
  substring (String.length p) (String.length suf) (p ++ suf) = suf.
Proof. induction p as [|a p IH]; simpl; [apply substring_full|done]. Qed.

Lemma substring_split (n : nat) (s : string) :
  (n <= String.length s)%nat ->
  s = substring 0 n s ++ substring n (String.length s - n) s.
Proof.
  revert n. induction s as [|a s IH]; intros n Hn.
  - by destruct n.
  - destruct n as [|n]; cbn.
    + by rewrite substring_full.
    + change (String a s
              = String a (substring 0 n s
                          ++ substring n (String.length s - n) s)).
      f_equal. apply IH. cbn in Hn. lia.
Qed.

Lemma string_length_app (s t : string) :
  String.length (s ++ t) = (String.length s + String.length t)%nat.
Proof. induction s as [|a s IH]; simpl; [done|]. by rewrite IH. Qed.

Lemma strings_HasSuffix_spec (s suf : string) :
  strings_HasSuffix s suf = true <-> exists p, s = p ++ suf.
Proof.
  unfold strings_HasSuffix. split.
  - destruct (Nat.leb_spec (String.length suf) (String.length s)) as [Hle|];
      [|done].
    intros Heq%String.eqb_eq.
    exists (substring 0 (String.length s - String.length suf) s).
    pose proof (substring_split (String.length s - String.length suf) s) as Hsp.
    replace (String.length s - (String.length s - String.length suf))%nat
      with (String.length suf) in Hsp by lia.
    rewrite Heq in Hsp. apply Hsp. lia.
  - intros [p ->]. rewrite string_length_app.
    destruct (Nat.leb_spec (String.length suf)
                (String.length p + String.length suf)) as [_|]; [|lia].
    replace (String.length p + String.length suf - String.length suf)%nat
      with (String.length p) by lia.
    rewrite substring_app_r. apply String.eqb_refl.
Qed.

Section AccessControl.
Context `{GoLib}.

(** [isOriginAllowed]: an empty allow list lets every origin through; a
    list that is not empty lets an origin through exactly when it has a
    host name and some entry of the list, trimmed and lowered and not
    empty, is that host name or is a suffix of it after a dot: a
    sub-domain matches, a name that merely ends with the entry does
    not. *)
Theorem isOriginAllowed_spec (origin : string) (l : list string) :
  isOriginAllowed origin l = true
  <-> l = []
      \/ (normalizeOrigin origin <> ""
          /\ exists a, a ∈ l
               /\ strings_TrimSpace (strings_ToLower a) <> ""
               /\ (normalizeOrigin origin
                   = strings_TrimSpace (strings_ToLower a)
                   \/ exists p, normalizeOrigin origin
                        = p ++ "." ++ strings_TrimSpace (strings_ToLower a))).
Proof.
  unfold isOriginAllowed. destruct l as [|a0 l]; [cbn; tauto|].
  cbn [length Nat.eqb].
  assert (Hempty : origin = "" -> normalizeOrigin origin = "").
  { intros ->. reflexivity. }
  destruct (String.eqb_spec origin "") as [Ho|Ho].
  { split; [done|]. intros [?|[Hn _]]; [done|]. by destruct Hn, Hempty. }
  destruct (String.eqb_spec (normalizeOrigin origin) "") as [Hd|Hd].
  { split; [done|]. by intros [?|[? _]]. }
  rewrite existsb_exists. split.
  - intros (a & Hin%list_elem_of_In & Ha). right. split; [done|].
    exists a. split; [done|].
    destruct (String.eqb_spec (strings_TrimSpace (strings_ToLower a)) "")
      as [|Hne]; [done|].
    split; [done|]. apply orb_true_iff in Ha as [Ha|Ha].
    + left. by apply String.eqb_eq.
    + right. by apply strings_HasSuffix_spec.
  - intros [?|(_ & a & Hin & Hne & Hm)]; [done|].
    exists a. split; [by apply list_elem_of_In|].
    destruct (String.eqb_spec (strings_TrimSpace (strings_ToLower a)) "")
      as [|_]; [done|].
    apply orb_true_iff. destruct Hm as [Hm|Hm].
    + left. by apply String.eqb_eq.
    + right. by apply strings_HasSuffix_spec.
Qed.

(** The Referer check parses a host name as a URL.  The host name that
    [extractDomainFromReferer] takes from the Referer goes to
    [isOriginAllowed], which parses its argument as a URL once more; so,
    under an allow list that is not empty, a request whose Origin is
    empty or not allowed is refused whenever the URL parser finds no
    host in that bare host name, whatever the allow list holds. *)
Theorem referer_parsed_twice (h : Handler) (w : ResponseWriter) (r : Request) :
  allowedOrigins h <> [] ->
  negb (String.eqb (Header_Get (ReqHeader r) "Origin") "")
  && isOriginAllowed (Header_Get (ReqHeader r) "Origin") (allowedOrigins h)
  = false ->
  let d := extractDomainFromReferer (Header_Get (ReqHeader r) "Referer") in
  url_Hostname (strings_TrimSpace d) = None
  \/ url_Hostname (strings_TrimSpace d) = Some "" ->
  checkAccessControl h w r = (false, w).
Proof.
  intros Hl Ho d Hd. unfold checkAccessControl.
  destruct (allowedOrigins h) as [|a0 l] eqn:Hal; [done|].
  cbn [length Nat.eqb]. rewrite Ho. fold d.
  assert (Hno : negb (String.eqb d "") && isOriginAllowed d (a0 :: l) = false).
  { unfold isOriginAllowed. cbn [length Nat.eqb].
    destruct (String.eqb_spec d "") as [|Hne]; [done|]. cbn [negb andb].
    unfold normalizeOrigin.
    destruct (String.eqb_spec d "") as [|_]; [done|].
    by destruct Hd as [->| ->]. }
  rewrite Hno. by rewrite andb_false_r.
Qed.

End AccessControl.

Lemma isOriginAllowed_spec_witness :
  isOriginAllowed (H := scheme_lib) "https://img.example.com" ["example.com"]
  = true.
Proof.
  apply (proj2 (isOriginAllowed_spec (H := scheme_lib)
                  "https://img.example.com" ["example.com"])).
  right. split; [vm_compute; discriminate|].
  exists "example.com". split; [apply list_elem_of_here|].
  split; [vm_compute; discriminate|]. right. by exists "img".
Defined.

Lemma referer_parsed_twice_witness :
  let h := mkHandler "https://www.gravatar.com" 3600 ["example.com"] in
  let referred :=
    mkRequest "GET" "/avatar/abc" ∅
      (<["Referer" := "https://example.com/page"]> ∅) in
  let sent :=
    mkRequest "GET" "/avatar/abc" ∅
      (<["Origin" := "https://example.com"]> ∅) in
  extractDomainFromReferer (H := scheme_lib) "https://example.com/page"
  = "example.com"
  /\ checkAccessControl (H := scheme_lib) h new_ResponseWriter referred
     = (false, new_ResponseWriter)
  /\ (checkAccessControl (H := scheme_lib) h new_ResponseWriter sent).1 = true.
Proof.
  intros h referred sent. split; [vm_compute; reflexivity|].
  split; [|vm_compute; reflexivity].
  apply (referer_parsed_twice (H := scheme_lib) h new_ResponseWriter referred).
  - discriminate.
  - vm_compute. reflexivity.
  - right. vm_compute. reflexivity.
Defined.

(** * Further properties of the keys and of the freshness *)

Lemma hex_digits_of_byte (b : byte) :
  has_char (hex_digit (N.div (Byte.to_N b) 16)) "0123456789abcdef" = true
  /\ has_char (hex_digit (N.modulo (Byte.to_N b) 16)) "0123456789abcdef"
     = true.
Proof. destruct b; vm_compute; split; reflexivity. Qed.

Lemma hex_EncodeToString_chars (bs : list byte) (c : ascii) :
  has_char c (hex_EncodeToString bs) = true ->
  has_char c "0123456789abcdef" = true.
Proof.
  induction bs as [|b bs IH]; [done|].
  destruct (hex_digits_of_byte b) as [H1 H2].
  cbn [hex_EncodeToString has_char].
  destruct (Ascii.eqb_spec (hex_digit (N.div (Byte.to_N b) 16)) c) as [<-|_];
    [done|].
  destruct (Ascii.eqb_spec (hex_digit (N.modulo (Byte.to_N b) 16)) c)
    as [<-|_]; [done|].
  exact IH.
Qed.

Lemma hex_EncodeToString_length (bs : list byte) :
  String.length (hex_EncodeToString bs) = (2 * length bs)%nat.
Proof. induction bs as [|b bs IH]; [done|]. cbn. rewrite IH. lia. Qed.

Section KeyShape.
Context `{GoLib}.

(** A cache key is a string of lower-case hexadecimal digits, two for
    each byte of the digest of the canonical string of the path and the
    query, whatever they are: 64 digits when the digest has 32 bytes, as
    those of SHA-256 have.  So a key is never the name of the index
    document, and never the name of a metadata file: no artifact is
    written over [index.json] or over a [.meta] file of the same
    directory. *)
Theorem GenerateKey_hex (path : string) (query : gmap string string) :
  let key := GenerateKey path query in
  let digest :=
    sha256_Sum256
      (list_byte_of_string (canonical_range (query_keys query) path query)) in
  (forall c, has_char c key = true -> has_char c "0123456789abcdef" = true)
  /\ String.length key = (2 * length digest)%nat
  /\ ((forall bs, length (sha256_Sum256 bs) = 32%nat) ->
      String.length key = 64%nat)
  /\ key <> "index.json"
  /\ forall k, key <> k ++ ".meta".
Proof.
  intros key digest.
  assert (Hhex : forall c, has_char c key = true ->
                   has_char c "0123456789abcdef" = true).
  { intros c. apply hex_EncodeToString_chars. }
  assert (Hlen : String.length key = (2 * length digest)%nat)
    by apply hex_EncodeToString_length.
  split; [exact Hhex|]. split; [exact Hlen|]. split; [|split].
  - intros H32. rewrite Hlen. unfold digest. by rewrite H32.
  - intros Heq. specialize (Hhex "i"%char). rewrite Heq in Hhex.
    by specialize (Hhex eq_refl).
  - intros k Heq. specialize (Hhex "."%char). rewrite Heq in Hhex.
    rewrite has_char_app in Hhex.
    assert (Hdot : has_char "." (k ++ ".meta") = true).
    { rewrite has_char_app. cbn. by rewrite orb_true_r. }
    rewrite has_char_app in Hdot. by specialize (Hhex Hdot).
Qed.

End KeyShape.

Lemma time_Sub_mono (t t' u : Z) : t <= t' -> time_Sub t u <= time_Sub t' u.
Proof.
  intros Hle. unfold time_Sub, min_int64, max_int64.
  repeat (match goal with
          | |- context [?a <? ?b] =>
              destruct (Z.ltb_spec a b)
          end); lia.
Qed.

Section Staleness.
Context `{GoLib}.

(** Freshness only decays: an entry that [Get] reports as not fresh at
    one reading of the clock is reported as not fresh at every later
    reading, on the same store and on the store after any [ReadData];
    only [Set] and [UpdateMetadata] write a [CreatedAt].  The saturation
    of the elapsed time at the ends of the [Duration] range does not
    break this. *)
Theorem stale_stays_stale (c : Cache) (key : string) (e e' : Env) :
  (Get c key e).1.1.2 = false ->
  clock e (ticks e) <= clock e' (ticks e') ->
  (Get c key e').1.1.2 = false
  /\ forall key2 e2, (Get (ReadData c key2 e2).1.2 key e').1.1.2 = false.
Proof.
  rewrite !Get_eq. intros Hs Hle.
  assert (Hstale : forall entry, index c !! key = Some entry ->
            (time_Sub (clock e' (ticks e')) (CreatedAt (EntryMetadata entry))
             >? ttl c) = true).
  { intros entry Hk. rewrite Hk in Hs. cbn [fst snd] in Hs.
    apply negb_false_iff in Hs. rewrite Z.gtb_ltb in *.
    apply Z.ltb_lt in Hs. apply Z.ltb_lt.
    pose proof (time_Sub_mono _ _ (CreatedAt (EntryMetadata entry)) Hle). lia. }
  split.
  - destruct (index c !! key) as [entry|] eqn:Hk; [|done].
    cbn [fst snd]. by rewrite Hstale.
  - intros key2 e2. rewrite Get_eq.
    destruct (index c !! key2) as [entry2|] eqn:Hk2.
    + rewrite (ReadData_store_eq c key2 entry2 e2 Hk2). unfold ReadData_store.
      cbn [updateAccessList with_index with_accessList index ttl].
      destruct (decide (key = key2)) as [->|Hne].
      * rewrite lookup_insert_eq. cbn [fst snd with_Metadata EntryMetadata
          with_LastAccessedAt CreatedAt].
        by rewrite (Hstale entry2).
      * rewrite lookup_insert_ne by done.
        destruct (index c !! key) as [entry|] eqn:Hk; [|done].
        cbn [fst snd]. by rewrite Hstale.
    + unfold ReadData. rewrite Hk2. cbn [ret fst snd].
      destruct (index c !! key) as [entry|] eqn:Hk; [|done].
      cbn [fst snd]. by rewrite Hstale.
Qed.

End Staleness.

Lemma stale_stays_stale_witness :
  let e := sample_env 5 ∅ None in
  (Get (sample_avatars 1) sample_key e).1.1.2 = false
  /\ (Get (sample_avatars 1) sample_key (ticked 7 e)).1.1.2 = false.
Proof.
  intros e.
  assert (Hs : (Get (sample_avatars 1) sample_key e).1.1.2 = false)
    by (vm_compute; reflexivity).
  split; [exact Hs|].
  apply (stale_stays_stale (H := sample_lib) (sample_avatars 1) sample_key e
           (ticked 7 e) Hs).
  vm_compute. discriminate.
Defined.

(** * Properties of the configuration *)

Lemma strings_Split_nonempty (sep : ascii) (s : string) :
  strings_Split sep s <> [].
Proof.
  destruct s as [|a s]; [done|]. cbn [strings_Split].
  destruct (Ascii.eqb a sep); [done|]. by destruct (strings_Split sep s).
Qed.

(** Joining the pieces of [strings_Split] with the separator gives the
    string back. *)
Lemma strings_Split_concat (sep : ascii) (s : string) :
  String.concat (String sep "") (strings_Split sep s) = s.
Proof.
  induction s as [|a s IH]; [done|]. cbn [strings_Split].
  pose proof (strings_Split_nonempty sep s) as Hne.
  destruct (strings_Split sep s) as [|piece rest]; [done|].
  destruct (Ascii.eqb_spec a sep) as [->|_].
  - change (String sep (String.concat (String sep "") (piece :: rest))
            = String sep s).
    by rewrite IH.
  - destruct rest as [|piece2 rest].
    + cbn [String.concat] in *. by rewrite IH.
    + change (String a (String.concat (String sep "") (piece :: piece2 :: rest))
              = String a s).
      by rewrite IH.
Qed.

Section ConfigurationProperties.
Context `{GoLib}.

Lemma getEnv_empty (os_Getenv : string -> string) (key : string) :
  getEnv os_Getenv key "" = os_Getenv key.
Proof. unfold getEnv. by destruct (String.eqb_spec (os_Getenv key) ""). Qed.

Lemma Load_origins_fold (acc l : list string) :
  foldl (fun acc origin =>
           let origin := strings_TrimSpace origin in
           if negb (String.eqb origin "") then (acc ++ [origin])%list else acc)
    acc l
  = (acc ++ filter (fun o => o <> "") (strings_TrimSpace <$> l))%list.
Proof.
  revert acc. induction l as [|a l IH]; intros acc; cbn [foldl fmap list_fmap].
  - by rewrite filter_nil, app_nil_r.
  - rewrite IH, filter_cons.
    destruct (String.eqb_spec (strings_TrimSpace a) "") as [He|He];
      cbn [negb].
    + by rewrite decide_False by (by intros ?).
    + rewrite decide_True by done. by rewrite <- app_assoc.
Qed.

(** The allow list that [Load] builds from [ALLOWED_ORIGINS] holds the
    pieces between the commas, trimmed, that are not empty, and nothing
    else.  So when the variable is unset, empty, or made of commas and
    blanks only, the handler built from the configuration has no access
    control at all: it lets every request through and sets no CORS
    header; and when some piece is left, a request with neither an
    Origin nor a Referer is refused. *)
Theorem Load_allowed_origins (os_Getenv : string -> string)
    (time_ParseDuration strconv_ParseInt : string -> option Z)
    (cfg : Config)
    (Hload : Load os_Getenv time_ParseDuration strconv_ParseInt = Some cfg) :
  let pieces := strings_Split ","%char (os_Getenv "ALLOWED_ORIGINS") in
  (forall a, a ∈ AllowedOrigins cfg
     <-> os_Getenv "ALLOWED_ORIGINS" <> "" /\ a <> ""
         /\ exists piece, piece ∈ pieces /\ a = strings_TrimSpace piece)
  /\ (os_Getenv "ALLOWED_ORIGINS" = ""
      \/ (forall piece, piece ∈ pieces -> strings_TrimSpace piece = "") ->
      forall w r, checkAccessControl (NewHandler cfg) w r = (true, w))
  /\ (forall piece, piece ∈ pieces -> os_Getenv "ALLOWED_ORIGINS" <> "" ->
      strings_TrimSpace piece <> "" ->
      forall w r,
        Header_Get (ReqHeader r) "Origin" = "" ->
        Header_Get (ReqHeader r) "Referer" = "" ->
        checkAccessControl (NewHandler cfg) w r = (false, w)).
Proof.
  intros pieces. unfold Load in Hload. cbv zeta in Hload.
  destruct (time_ParseDuration _) as [t|]; [|done].
  destruct (strconv_ParseInt _) as [m|]; [|done].
  rewrite !getEnv_empty in Hload. fold pieces in Hload.
  injection Hload as <-. unfold NewHandler. cbn [AllowedOrigins].
  set (l := if negb (String.eqb _ "") then _ else _).
  assert (Hl : forall a, a ∈ l
             <-> os_Getenv "ALLOWED_ORIGINS" <> "" /\ a <> ""
                 /\ exists piece, piece ∈ pieces /\ a = strings_TrimSpace piece).
  { intros a. unfold l.
    destruct (String.eqb_spec (os_Getenv "ALLOWED_ORIGINS") "") as [He|He];
      cbn [negb].
    - split.
      + by intros ?%elem_of_nil.
      + by intros [? _].
    - rewrite Load_origins_fold, app_nil_l, list_elem_of_filter.
      rewrite list_elem_of_fmap. split.
      + intros (Ha & piece & -> & Hin). eauto.
      + intros (_ & Ha & piece & Hin & ->). eauto. }
  split; [exact Hl|]. split.
  - intros Hblank w r. unfold checkAccessControl. cbn [allowedOrigins].
    destruct l as [|a l']; [done|]. exfalso.
    destruct (proj1 (Hl a) (list_elem_of_here _ _))
      as (Hset & Hne & piece & Hin & ->).
    destruct Hblank as [?|Hblank]; [done|]. by apply Hne, Hblank.
  - intros piece Hin Hset Hne w r Ho Hr.
    unfold checkAccessControl. cbn [allowedOrigins].
    destruct l as [|a l'] eqn:Hll.
    { exfalso. apply (elem_of_nil (strings_TrimSpace piece)).
      apply Hl. eauto. }
    cbn [length Nat.eqb]. rewrite Ho, Hr. done.
Qed.

End ConfigurationProperties.

Lemma Load_allowed_origins_witness :
  let env k := if String.eqb k "ALLOWED_ORIGINS" then ",," else "" in
  exists cfg,
    Some cfg = Load (H := sample_lib) env (fun _ => Some 86400000000000)
                 (fun _ => Some 268435456)
    /\ AllowedOrigins cfg = []
    /\ forall w r,
         checkAccessControl (H := sample_lib) (NewHandler cfg) w r = (true, w).
Proof.
  intros env. eexists. split; [reflexivity|]. split; [reflexivity|].
  refine (proj1 (proj2 (Load_allowed_origins (H := sample_lib) env
                          (fun _ => Some 86400000000000)
                          (fun _ => Some 268435456) _ eq_refl)) _).
  right. intros piece Hin. vm_compute in Hin.
  repeat (apply elem_of_cons in Hin as [->|Hin]; [reflexivity|]).
  by apply elem_of_nil in Hin.
Defined.

(** * The refetch of a stale entry *)

Section HandlerRefetch.
Context `{GoLib}.

(** A request for a key whose entry the conditional check does not
    answer and [Get], at the next reading of the clock, finds past its
    TTL, when the upstream server answers with a status other than 304
    that [WriteHeader] takes as the status of a response, and its body
    can be read and is taken by the writer.  The upstream request
    carries the stored validators: the stored [Last-Modified], when it
    is not empty, as [If-Modified-Since], and the stored [ETag], when it
    is not empty, as [If-None-Match].  The response is the upstream
    answer: its status, its body and the [Cache-Control] of the handler;
    and [Set] replaces the stale entry: on a consistent store, with a
    body that is not larger than the ceiling, the index holds under the
    key the new answer with the fifth and sixth readings of the clock as
    its times.  The last event of the request is its log line, with the
    status of the upstream answer. *)
Theorem ServeHTTP_stale_refetch (h : Handler) (c : Cache) (w : ResponseWriter)
    (r : Request) (e : Env) (entry : CacheEntry) (resp : UpstreamResponse)
    (data : list byte) :
  admitted h r ->
  Code w = None ->
  nilIndex c = false ->
  index c !! request_key r = Some entry ->
  (CheckConditional c (request_key r) r (tick (tick e))).1.1 = false ->
  ttl c < time_Sub (clock e (3 + ticks e)) (CreatedAt (EntryMetadata entry)) ->
  url_Hostname (upstreamBase h) <> None ->
  http_NewRequest_ok (request_url h r) = true ->
  upstream e (request_url h r) (upstream_headers (Some entry)) = Some resp ->
  RespStatus resp <> 304 ->
  RespBody resp = Some data ->
  200 <= RespStatus resp <= 999 ->
  takes_body (RespStatus resp) data = true ->
  Refuses w
    (WHeader (served_writer (access_writer h w r) (ExtractHeaders resp)
                (duration_Seconds (h_ttl h))))
    (Body w) data = false ->
  let key := request_key r in
  let stored := Headers (EntryMetadata entry) in
  let sent := upstream_headers (Some entry) in
  let md := mkMetadata (clock e (4 + ticks e)) (clock e (5 + ticks e))
              (ExtractHeaders resp) (RespStatus resp) 0 in
  let st := Set_ c key data md
              (traced (ticked 6 e)
                 [EvLog "INFO" "fetching from upstream";
                  EvUpstream (request_url h r) sent]) in
  let s := ServeHTTP h c w r e in
  (map_get stored "Last-Modified" <> "" ->
   sent !! http_CanonicalHeaderKey "If-Modified-Since"
   = Some (map_get stored "Last-Modified"))
  /\ (map_get stored "ETag" <> "" ->
      http_CanonicalHeaderKey "If-None-Match"
      <> http_CanonicalHeaderKey "If-Modified-Since" ->
      sent !! http_CanonicalHeaderKey "If-None-Match"
      = Some (map_get stored "ETag"))
  /\ (exists w',
        s.1.1 = Returned w'
        /\ Code w' = Some (RespStatus resp)
        /\ Body w' = (Body w ++ data)%list
        /\ WHeader w' !! http_CanonicalHeaderKey "Cache-Control"
           = Some (max_age (duration_Seconds (h_ttl h))))
  /\ s.1.2 = st.1.2
  /\ (st.1.1 = Returned None -> store_ok c ->
      Z.of_nat (length data) <= maxBytes c ->
      total_size (index c) + Z.of_nat (length data) <= max_int64 ->
      index s.1.2 !! key
      = Some (mkCacheEntry key (filepath_Join (dir c) key)
                (mkMetadata (clock e (4 + ticks e)) (clock e (5 + ticks e))
                   (ExtractHeaders resp) (RespStatus resp)
                   (Z.of_nat (length data)))))
  /\ (exists d,
        last (trace s.2)
        = Some (EvRequest (Method r) (URLPath r) (RespStatus resp) d
                  (clock e (S (ticks e))))).
Proof.
  intros Hadm Hcode Hnil Hk Hcond Hstale Hbase Hurl Hup Hno Hbody Hst Htb Hrf
    key stored sent md st s.
  pose proof (ServeHTTP_fetched h c w r e resp data Hadm Hcode Hnil) as Hs.
  rewrite Hk in Hs.
  specialize (Hs ltac:(by intros ? [= <-]) Hbase Hurl Hup Hbody Hst Htb Hrf).
  cbv zeta in Hs. fold key sent md st s in Hs.
  assert (Hw := f_equal (fun x => x.1.1) Hs).
  assert (Hc := f_equal (fun x => x.1.2) Hs).
  assert (He := f_equal snd Hs).
  cbn [fst snd] in Hw, Hc, He. clear Hs.
  destruct (checkAccessControl_writer h w r) as [Hcw Hbw].
  fold (access_writer h w r) in Hcw, Hbw.
  destruct (served_writer_fields (access_writer h w r) (ExtractHeaders resp)
              (duration_Seconds (h_ttl h))) as (Hc1 & Hb1 & _ & Hcc & _).
  split; [|split; [|split; [|split; [done|split]]]].
  5: { rewrite He. unfold LogRequest, bind. rewrite time_Since_eq, emit_eq.
       cbn [snd trace]. rewrite last_snoc. eauto. }
  - intros Hlm. unfold sent, upstream_headers. fold stored.
    apply String.eqb_neq in Hlm. rewrite Hlm. cbn [negb].
    apply lookup_insert_eq.
  - intros Het Hcan. unfold sent, upstream_headers. fold stored.
    apply String.eqb_neq in Het. rewrite Het. cbn [negb].
    destruct (negb _); unfold Header_Set;
      [rewrite lookup_insert_ne by done|]; apply lookup_insert_eq.
  - eexists. split; [exact Hw|]. unfold written_writer.
    cbn [Code Body WHeader]. split; [done|].
    split; [by rewrite Hb1, Hbw|exact Hcc].
  - intros Hnone Hok Hle Hfit. rewrite Hc.
    by apply Set_index_key.
Qed.

End HandlerRefetch.

Lemma sample_avatars_store_ok (t : Z) : store_ok (sample_avatars t).
Proof.
  assert (Hl : forall k entry, index (sample_avatars t) !! k = Some entry ->
                 k = sample_key /\ entry = sample_cached).
  { unfold sample_avatars. cbn [index]. intros k entry Hk.
    apply lookup_insert_Some in Hk as [[<- <-]|[_ Hk]]; [done|].
    by rewrite lookup_empty in Hk. }
  split.
  - unfold sample_avatars. cbn [currentBytes index].
    rewrite total_size_insert_fresh, total_size_empty by apply lookup_empty.
    reflexivity.
  - intros k entry [_ ->]%Hl. vm_compute. discriminate.
  - unfold sample_avatars. cbn [index].
    rewrite total_size_insert_fresh, total_size_empty by apply lookup_empty.
    vm_compute. discriminate.
  - intros k [entry [-> _]%Hl]. apply list_elem_of_here.
  - apply NoDup_singleton.
Qed.

Lemma ServeHTTP_stale_refetch_witness :
  let resp := mkUpstreamResponse 200 (<["ETag" := "def456"]> ∅)
                (Some sample_bytes) in
  let e := sample_env 5 ∅ (Some resp) in
  let s := ServeHTTP (H := sample_lib) sample_handler (sample_avatars 1)
             new_ResponseWriter sample_request e in
  (exists w', s.1.1 = Returned w' /\ Code w' = Some 200
              /\ Body w' = ([] ++ sample_bytes)%list)
  /\ index s.1.2 !! sample_key
     = Some (mkCacheEntry sample_key ("/c/" ++ sample_key)
               (mkMetadata 9 10 (<["ETag" := "def456"]> ∅) 200 9)).
Proof.
  intros resp e s.
  destruct (ServeHTTP_stale_refetch (H := sample_lib) sample_handler
              (sample_avatars 1) new_ResponseWriter sample_request e
              sample_cached resp sample_bytes)
    as (_ & _ & (w' & Hw & Hcode & Hbody & _) & _ & Hidx & _).
  - vm_compute. repeat split; discriminate.
  - reflexivity.
  - reflexivity.
  - vm_compute. reflexivity.
  - vm_compute. reflexivity.
  - vm_compute. reflexivity.
  - discriminate.
  - reflexivity.
  - reflexivity.
  - discriminate.
  - reflexivity.
  - vm_compute. split; discriminate.
  - reflexivity.
  - reflexivity.
  - split.
    + exists w'. split; [exact Hw|]. split; [exact Hcode|exact Hbody].
    + etransitivity; [apply Hidx|].
      * vm_compute. reflexivity.
      * apply sample_avatars_store_ok.
      * vm_compute. discriminate.
      * vm_compute. discriminate.
      * vm_compute. reflexivity.
Defined.
